(** * CISA news crawler (src/cisa_crawler.py): a shallow embedding

    The crawler walks the paginated news listing of cisa.gov, discovers
    article links on every listing page, fetches each article, extracts
    metadata and body text, and finally writes a JSON report.

    Conventions of the embedding.
    - A Python [str] is a list of Unicode code points ([list N]); [len] is
      [length].  Literals are written [py "..."].
    - The value of [BeautifulSoup(html_content, 'html.parser')] is a tree of
      text and element nodes; an [html_content] is represented by that tree,
      and [None] stands for the two falsy values the code never tells apart
      ([None] and the empty string).
    - The network, the clock and the file system are a [world] that answers
      from the history of events so far; the crawler object is a [crawler]
      record, passed from call to call.
    - Log lines are left out.
    - [urljoin], [int] and the table of Unicode decimal digits belong to the
      interpreter's library: they are parameters. *)

From stdpp Require Import base list gmap sets strings.
From Stdlib Require Import ZArith NArith Ascii Lia.
From Stdlib Require DecimalNat.

(** ** Python strings *)

Fixpoint py (s : string) : list N :=
  match s with
  | EmptyString => []
  | String a r => N_of_ascii a :: py r
  end.

Definition nl : N := 10%N.
Definition sp : N := 32%N.

(** [str.isspace] on one code point; the same table decides [\s] in a
    [re] pattern over [str] and the characters removed by [str.strip()]. *)
Definition isspace (c : N) : bool :=
  ((9 <=? c) && (c <=? 13))%N || ((28 <=? c) && (c <=? 32))%N
  || (c =? 133)%N || (c =? 160)%N || (c =? 5760)%N
  || ((8192 <=? c) && (c <=? 8202))%N
  || (c =? 8232)%N || (c =? 8233)%N || (c =? 8239)%N || (c =? 8287)%N
  || (c =? 12288)%N.

Fixpoint take_while (p : N → bool) (s : list N) : list N :=
  match s with
  | [] => []
  | c :: r => if p c then c :: take_while p r else []
  end.

Fixpoint drop_while (p : N → bool) (s : list N) : list N :=
  match s with
  | [] => []
  | c :: r => if p c then drop_while p r else s
  end.

Definition lstrip (s : list N) : list N := drop_while isspace s.
Definition rstrip (s : list N) : list N := reverse (drop_while isspace (reverse s)).
(** [s.strip()] *)
Definition strip (s : list N) : list N := rstrip (lstrip s).

(** [s.split(sep)] for a one-character separator: never the empty list. *)
Fixpoint split (sep : N) (s : list N) : list (list N) :=
  match s with
  | [] => [[]]
  | c :: r =>
      if (c =? sep)%N then [] :: split sep r
      else match split sep r with
           | l :: ls => (c :: l) :: ls
           | [] => [[c]]
           end
  end.

(** [sep.join(ls)] *)
Fixpoint join (sep : list N) (ls : list (list N)) : list N :=
  match ls with
  | [] => []
  | l :: ls' =>
      match ls' with
      | [] => l
      | _ :: _ => l ++ sep ++ join sep ls'
      end
  end.

Fixpoint startswith (p s : list N) : bool :=
  match p, s with
  | [], _ => true
  | _ :: _, [] => false
  | a :: p', b :: s' => (a =? b)%N && startswith p' s'
  end.

(** [p in s] for strings: [p] occurs as a contiguous substring of [s]. *)
Fixpoint contains (p s : list N) : bool :=
  startswith p s ||
  match s with
  | [] => false
  | _ :: r => contains p r
  end.

Definition endswith (p s : list N) : bool := startswith (reverse p) (reverse s).

(** ** [re.sub] for the three patterns of the content extractor

    [re.sub(pattern, repl, s)] scans [s] from the left; where the pattern
    matches (leftmost, greedy, never empty here) the match is replaced by
    [repl] and scanning resumes after it, otherwise one character is copied.
    A pattern is given by the length of its match at the head of a string.
    [skip] counts the characters of the current match still to be passed. *)

Fixpoint re_sub_from (m : list N → option nat) (repl : list N)
    (skip : nat) (s : list N) : list N :=
  match s with
  | [] => []
  | c :: r =>
      match skip with
      | S k => re_sub_from m repl k r
      | O =>
          match m s with
          | Some (S n) => repl ++ re_sub_from m repl n r
          | _ => c :: re_sub_from m repl 0 r
          end
      end
  end.

Definition re_sub (m : list N → option nat) (repl s : list N) : list N :=
  re_sub_from m repl 0 s.

(** Index of the last newline of [w], if any. *)
Fixpoint last_nl (w : list N) : option nat :=
  match w with
  | [] => None
  | c :: r =>
      match last_nl r with
      | Some i => Some (S i)
      | None => if (c =? nl)%N then Some 0 else None
      end
  end.

(** [\n\s*\n]: a newline, the longest run of whitespace that still ends
    in a newline. *)
Definition match_blank_lines (s : list N) : option nat :=
  match s with
  | c :: r =>
      if (c =? nl)%N then
        match last_nl (take_while isspace r) with
        | Some i => Some (S (S i))
        | None => None
        end
      else None
  | [] => None
  end.

(** [ +]: the longest run of spaces, at least one. *)
Definition match_spaces (s : list N) : option nat :=
  match length (take_while (N.eqb sp) s) with
  | O => None
  | n => Some n
  end.

(** [\n +]: a newline and the longest run of spaces after it, at least one. *)
Definition match_nl_spaces (s : list N) : option nat :=
  match s with
  | c :: r =>
      if (c =? nl)%N then
        match length (take_while (N.eqb sp) r) with
        | O => None
        | n => Some (S n)
        end
      else None
  | [] => None
  end.

(** Lines 254-256: the three substitutions, in order. *)
Definition collapse_whitespace (content : list N) : list N :=
  let content := re_sub match_blank_lines [nl; nl] content in
  let content := re_sub match_spaces [sp] content in
  re_sub match_nl_spaces [nl] content.

(** Line 259: [[line.strip() for line in lines if len(line.strip()) > 20]]. *)
Definition cleaned_lines (lines : list (list N)) : list (list N) :=
  map strip (List.filter (λ line, 20 <? length (strip line)) lines).

(** Lines 252-260, the body of [if content:]. *)
Definition normalize_content (content : list N) : list N :=
  let content := collapse_whitespace content in
  let lines := split nl content in
  join [nl] (cleaned_lines lines).

(** ** The parse tree of [BeautifulSoup(markup, 'html.parser')]

    Text nodes and elements; an element carries its tag name, its attribute
    dictionary (the value of [class] kept as written) and its children.  A
    document is the list of its top-level nodes.  A text node is a string
    that [get_text] returns; comments and the like are not in the tree. *)

#[warnings="-register-all"]
Inductive node :=
  | Text (s : list N)
  | Elem (tag : list N) (attrs : list (list N * list N)) (children : list node).

Fixpoint eqb_str (a b : list N) : bool :=
  match a, b with
  | [], [] => true
  | x :: a', y :: b' => (x =? y)%N && eqb_str a' b'
  | _, _ => false
  end.

Definition nonempty (s : list N) : bool :=
  match s with [] => false | _ :: _ => true end.

(** [d.get(k)] on a dictionary with string keys, in insertion order. *)
Fixpoint dict_lookup (k : list N) (d : list (list N * list N)) : option (list N) :=
  match d with
  | [] => None
  | (k', v) :: d' => if eqb_str k k' then Some v else dict_lookup k d'
  end.

(** [d.get(k, default)] *)
Definition dict_get (k : list N) (default : list N) (d : list (list N * list N)) : list N :=
  match dict_lookup k d with
  | Some v => v
  | None => default
  end.

Definition tag_of (n : node) : option (list N) :=
  match n with Text _ => None | Elem t _ _ => Some t end.

(** [elem.get(name)] *)
Definition get_attr (name : list N) (n : node) : option (list N) :=
  match n with Text _ => None | Elem _ a _ => dict_lookup name a end.

(** The element itself and every element below it, in document order. *)
Fixpoint descendants (n : node) : list node :=
  match n with
  | Text _ => []
  | Elem _ _ cs =>
      n :: (fix go (l : list node) : list node :=
              match l with
              | [] => []
              | c :: l' => descendants c ++ go l'
              end) cs
  end.

(** All elements of a document, in document order: what [find_all] and
    [select_one] range over. *)
Fixpoint elements (doc : list node) : list node :=
  match doc with
  | [] => []
  | n :: doc' => descendants n ++ elements doc'
  end.

(** The text nodes below a node, in document order. *)
Fixpoint strings (n : node) : list (list N) :=
  match n with
  | Text s => [s]
  | Elem _ _ cs =>
      (fix go (l : list node) : list (list N) :=
         match l with
         | [] => []
         | c :: l' => strings c ++ go l'
         end) cs
  end.

Fixpoint doc_strings (doc : list node) : list (list N) :=
  match doc with
  | [] => []
  | n :: doc' => strings n ++ doc_strings doc'
  end.

(** [get_text(separator=sep, strip=True)]: every string stripped, the
    empty ones left out, the rest joined by [sep]. *)
Definition stripped_strings (ss : list (list N)) : list (list N) :=
  List.filter nonempty (map strip ss).

Definition get_text_strip (sep : list N) (n : node) : list N :=
  join sep (stripped_strings (strings n)).

(** [soup.get_text()]: the strings as they are, concatenated. *)
Definition get_text (doc : list node) : list N := concat (doc_strings doc).

Definition mem_str (x : list N) (l : list (list N)) : bool := existsb (eqb_str x) l.

(** The whitespace-separated tokens of an attribute value (the classes of
    an element). *)
Fixpoint words_from (cur : list N) (s : list N) : list (list N) :=
  match s with
  | [] => match cur with [] => [] | _ :: _ => [reverse cur] end
  | c :: r =>
      if isspace c
      then match cur with
           | [] => words_from [] r
           | _ :: _ => reverse cur :: words_from [] r
           end
      else words_from (c :: cur) r
  end.

Definition class_tokens (n : node) : list (list N) :=
  match get_attr (py "class") n with
  | Some v => words_from [] v
  | None => []
  end.

(** The CSS selectors the crawler passes to [select_one]: a tag name
    (['time']), a class (['.date']), an attribute (['[datetime]']) or an
    id (['#content']). *)
Inductive selector :=
  | ByTag (name : list N)
  | ByClass (name : list N)
  | ByAttr (name : list N)
  | ById (name : list N).

Definition matches_selector (sel : selector) (n : node) : bool :=
  match sel with
  | ByTag name => match tag_of n with Some t => eqb_str t name | None => false end
  | ByClass name => mem_str name (class_tokens n)
  | ByAttr name => match get_attr name n with Some _ => true | None => false end
  | ById name => match get_attr (py "id") n with Some v => eqb_str v name | None => false end
  end.

(** [soup.select_one(selector)]: the first match in document order. *)
Definition select_one (sel : selector) (doc : list node) : option node :=
  List.find (matches_selector sel) (elements doc).

(** [soup.find_all(names)]: the elements whose tag is one of [names]. *)
Definition has_tag_in (names : list (list N)) (n : node) : bool :=
  match tag_of n with Some t => mem_str t names | None => false end.

Definition find_all_tags (names : list (list N)) (doc : list node) : list node :=
  List.filter (has_tag_in names) (elements doc).

(** [soup.find(name)] *)
Definition find_tag (name : list N) (doc : list node) : option node :=
  List.find (has_tag_in [name]) (elements doc).

(** [for unwanted in soup.find_all(names): unwanted.decompose()]: every
    element with one of the tags leaves the tree, with all it contains. *)
Fixpoint decompose_node (names : list (list N)) (n : node) : node :=
  match n with
  | Text s => Text s
  | Elem t a cs =>
      Elem t a
        ((fix go (l : list node) : list node :=
            match l with
            | [] => []
            | c :: l' =>
                if has_tag_in names c then go l'
                else decompose_node names c :: go l'
            end) cs)
  end.

Fixpoint decompose_all (names : list (list N)) (doc : list node) : list node :=
  match doc with
  | [] => []
  | n :: doc' =>
      if has_tag_in names n then decompose_all names doc'
      else decompose_node names n :: decompose_all names doc'
  end.

(** [re.search(pattern, s)]: the pattern tried at every position from the
    left; [m] gives the result of a match at the head of a string. *)
Fixpoint re_search {A} (m : list N → option A) (s : list N) : option A :=
  match m s with
  | Some x => Some x
  | None =>
      match s with
      | [] => None
      | _ :: r => re_search m r
      end
  end.

(** ** Content extractor *)

Definition unwanted_tags : list (list N) :=
  [py "nav"; py "header"; py "footer"; py "aside"; py "script"; py "style";
   py "noscript"; py ".navigation"; py ".sidebar"; py ".comments";
   py ".social-share"; py ".related-posts"].

Definition content_selectors : list selector :=
  [ByTag (py "main"); ByTag (py "article"); ByClass (py "content");
   ByClass (py "post-content"); ByClass (py "article-content");
   ByClass (py "entry-content"); ById (py "content"); ByClass (py "main-content")].

(** Lines 237-243: the loop over the content selectors; [content] is
    overwritten by every selector that selects an element, and the loop
    ends at the first text longer than 200. *)
Fixpoint content_loop (sels : list selector) (doc : list node) (content : list N) : list N :=
  match sels with
  | [] => content
  | selector :: rest =>
      match select_one selector doc with
      | Some content_elem =>
          let content := get_text_strip [nl] content_elem in
          if 200 <? length content then content
          else content_loop rest doc content
      | None => content_loop rest doc content
      end
  end.

(** [extract_article_content] (lines 212-262). *)
Definition extract_article_content (html_content : option (list node)) : list N :=
  match html_content with
  | None => []
  | Some parsed =>
      let soup := decompose_all unwanted_tags parsed in
      let content := content_loop content_selectors soup [] in
      let content :=
        if negb (nonempty content) || (length content <? 200) then
          match find_tag (py "body") soup with
          | Some body => get_text_strip [nl] body
          | None => content
          end
        else content in
      if nonempty content then normalize_content content else content
  end.

(** ** Metadata extractor *)

Definition comma : N := 44%N.

Definition is_ascii_letter (c : N) : bool :=
  ((65 <=? c) && (c <=? 90))%N || ((97 <=? c) && (c <=? 122))%N.

Definition date_selectors : list selector :=
  [ByTag (py "time"); ByClass (py "date"); ByClass (py "release-date");
   ByClass (py "published-date"); ByAttr (py "datetime")].

Definition author_selectors : list selector :=
  [ByClass (py "author"); ByClass (py "byline"); ByClass (py "writer");
   ByTag (py "cite"); ByClass (py "author-name")].

(** Lines 166-174. *)
Fixpoint release_date_loop (sels : list selector) (soup : list node)
    (release_date : list N) : list N :=
  match sels with
  | [] => release_date
  | selector :: rest =>
      match select_one selector soup with
      | Some date_elem =>
          let release_date :=
            match get_attr (py "datetime") date_elem with
            | Some v => v
            | None => []
            end in
          let release_date :=
            if nonempty release_date then release_date
            else get_text_strip [] date_elem in
          if nonempty release_date then release_date
          else release_date_loop rest soup release_date
      | None => release_date_loop rest soup release_date
      end
  end.

(** Lines 193-198. *)
Fixpoint author_loop (sels : list selector) (soup : list node)
    (author : list N) : list N :=
  match sels with
  | [] => author
  | selector :: rest =>
      match select_one selector soup with
      | Some author_elem =>
          let author := get_text_strip [] author_elem in
          if nonempty author then author
          else author_loop rest soup author
      | None => author_loop rest soup author
      end
  end.

(** The [(?:,\s*[^,]+)*] tail of the author pattern, started at a comma
    or at the end of the text: a comma is taken with the run of non-commas
    after it as long as that run is not empty (white space counts). *)
Fixpoint by_tail (s : list N) : list N :=
  match s with
  | [] => []
  | c :: r =>
      if (c =? comma)%N then
        match r with
        | [] => []
        | c' :: _ => if (c' =? comma)%N then [] else c :: by_tail r
        end
      else c :: by_tail r
  end.

Definition not_comma (c : N) : bool := negb (c =? comma)%N.

(** The author pattern at the head of [s]: [By], then [\s+], then group 1,
    which is [[^,]+] followed by the tail above.  [\s+] takes the white
    space after [By]; when nothing but a comma or the end follows, it gives
    its last character back to [[^,]+]. *)
Definition match_by (s : list N) : option (list N) :=
  if startswith (py "By") s then
    let rest := drop 2 s in
    let run := take_while not_comma rest in
    let after := drop_while not_comma rest in
    match run with
    | c :: _ =>
        if isspace c then
          match lstrip run with
          | (_ :: _) as g => Some (g ++ by_tail after)
          | [] =>
              if 2 <=? length run then Some (drop (length run - 1) run ++ by_tail after)
              else None
          end
        else None
    | [] => None
    end
  else None.

Section Tables.

(** [\d] in a pattern over [str]: the Unicode decimal digits (category
    Nd), a table of the interpreter. *)
Variable isdecimal : N → bool.

(** [Released\s*([A-Za-z]+\s+\d{1,2},\s+\d{4})] at the head of [s]: group 1. *)
Definition match_released (s : list N) : option (list N) :=
  if startswith (py "Released") s then
    let s1 := drop_while isspace (drop 8 s) in
    let month := take_while is_ascii_letter s1 in
    let s2 := drop_while is_ascii_letter s1 in
    let ws1 := take_while isspace s2 in
    let s3 := drop_while isspace s2 in
    let day := take_while isdecimal s3 in
    let s4 := drop_while isdecimal s3 in
    if nonempty month && nonempty ws1
       && (1 <=? length day) && (length day <=? 2) then
      match s4 with
      | c :: s5 =>
          let ws2 := take_while isspace s5 in
          let s6 := drop_while isspace s5 in
          let year := take 4 s6 in
          if (c =? comma)%N && nonempty ws2
             && (length year =? 4) && forallb isdecimal year
          then Some (month ++ ws1 ++ day ++ [c] ++ ws2 ++ year)
          else None
      | [] => None
      end
    else None
  else None.

(** What [extract_article_metadata] returns: the pair of two empty
    dictionaries of line 152, or the dictionary of lines 207-210. *)
Inductive metadata_result :=
  | MetaPair (a b : list (list N * list N))
  | MetaDict (d : list (list N * list N)).

(** [extract_article_metadata] (lines 149-210). *)
Definition extract_article_metadata (html_content : option (list node)) : metadata_result :=
  match html_content with
  | None => MetaPair [] []
  | Some soup =>
      let release_date := release_date_loop date_selectors soup [] in
      let release_date :=
        if nonempty release_date then release_date
        else
          let text_content := get_text soup in
          match re_search match_released text_content with
          | Some g => g
          | None => release_date
          end in
      let author := author_loop author_selectors soup [] in
      let author :=
        if nonempty author then author
        else
          let text_content := get_text soup in
          match re_search match_by text_content with
          | Some g => strip g
          | None => author
          end in
      MetaDict [(py "release_date", release_date); (py "author", author)]
  end.

(** ** Link discoverer *)

(** [urljoin] of [urllib.parse], the URL resolver of the interpreter's
    library. *)
Variable urljoin : list N → list N → list N.

(** An [article_info]: the dictionary with the two keys ['title'] and
    ['url'] built at lines 82-85 and 108-111. *)
Record article_info := { title : list N; url : list N }.

(** [is_article_url] (lines 117-124). *)
Definition is_article_url (url : list N) : bool :=
  contains (py "cisa.gov") url
  && contains (py "/news-events/news/") url
  && negb (endswith (py ".pdf") url)
  && negb (endswith (py ".doc") url)
  && negb (endswith (py ".docx") url).

Definition class_keywords : list (list N) :=
  [py "news"; py "article"; py "content"; py "item"; py "entry"].

(** [class_=re.compile(r'news|article|content|item|entry')]: one of the
    words occurs in a class of the element. *)
Definition class_matches_keywords (n : node) : bool :=
  match get_attr (py "class") n with
  | Some v => existsb (λ kw, contains kw v) class_keywords
  | None => false
  end.

(** Line 71. *)
Definition article_elements (soup : list node) : list node :=
  List.filter (λ n, has_tag_in [py "div"; py "article"] n && class_matches_keywords n)
    (elements soup).

(** Line 75: [soup.find_all('a', href=re.compile(r'/news-events/news/'))]. *)
Definition article_links (soup : list node) : list node :=
  List.filter
    (λ n, has_tag_in [py "a"] n &&
          match get_attr (py "href") n with
          | Some h => contains (py "/news-events/news/") h
          | None => false
          end)
    (elements soup).

(** Line 91: [soup.find_all('a', href=True)]. *)
Definition all_links (soup : list node) : list node :=
  List.filter
    (λ n, has_tag_in [py "a"] n &&
          match get_attr (py "href") n with Some _ => true | None => false end)
    (elements soup).

(** Lines 76-86: the loop of the path-pattern tier. *)
Fixpoint path_pattern_loop (page_url : list N) (links : list node) : list article_info :=
  match links with
  | [] => []
  | link :: rest =>
      match get_attr (py "href") link with
      | Some ((_ :: _) as href) =>
          let absolute_url := urljoin page_url href in
          let title := get_text_strip [] link in
          if nonempty title && (10 <? length title)
          then {| title := title; url := absolute_url |} :: path_pattern_loop page_url rest
          else path_pattern_loop page_url rest
      | _ => path_pattern_loop page_url rest
      end
  end.

(** Lines 94-113: the loop of the heuristic tier, with its [seen_urls]. *)
Fixpoint heuristic_loop (visited_urls : gset (list N)) (page_url : list N)
    (links : list node) (seen_urls : gset (list N)) : list article_info :=
  match links with
  | [] => []
  | link :: rest =>
      match get_attr (py "href") link with
      | Some ((_ :: _) as href) =>
          let absolute_url := urljoin page_url href in
          if is_article_url absolute_url
             && bool_decide (absolute_url ∉ seen_urls)
             && bool_decide (absolute_url ∉ visited_urls)
          then
            let title := get_text_strip [] link in
            if nonempty title && (10 <? length title)
            then {| title := title; url := absolute_url |}
                 :: heuristic_loop visited_urls page_url rest ({[absolute_url]} ∪ seen_urls)
            else heuristic_loop visited_urls page_url rest seen_urls
          else heuristic_loop visited_urls page_url rest seen_urls
      | _ => heuristic_loop visited_urls page_url rest seen_urls
      end
  end.

(** [extract_article_links] (lines 61-115); [visited_urls] is the
    crawler's attribute. *)
Definition extract_article_links (visited_urls : gset (list N))
    (html_content : option (list node)) (page_url : list N) : list article_info :=
  match html_content with
  | None => []
  | Some soup =>
      let articles :=
        match article_elements soup with
        | [] => path_pattern_loop page_url (article_links soup)
        | _ :: _ => []
        end in
      match articles with
      | [] => heuristic_loop visited_urls page_url (all_links soup) ∅
      | _ :: _ => articles
      end
  end.

(** ** Clock *)

(** A [datetime]; [datetime.now()] is a reading of the world's clock. *)
Record datetime := {
  year : N; month : N; day : N;
  hour : N; minute : N; second : N; microsecond : N
}.

Definition digit (n : N) : N := (48 + n mod 10)%N.

Definition pad2 (n : N) : list N := [digit (n / 10); digit n].
Definition pad4 (n : N) : list N :=
  [digit (n / 1000); digit (n / 100); digit (n / 10); digit n].
Definition pad6 (n : N) : list N :=
  [digit (n / 100000); digit (n / 10000); digit (n / 1000);
   digit (n / 100); digit (n / 10); digit n].

(** [dt.isoformat()]: [YYYY-MM-DDTHH:MM:SS], with [.ffffff] when the
    microseconds are not zero. *)
Definition isoformat (dt : datetime) : list N :=
  pad4 (year dt) ++ py "-" ++ pad2 (month dt) ++ py "-" ++ pad2 (day dt)
  ++ py "T" ++ pad2 (hour dt) ++ py ":" ++ pad2 (minute dt) ++ py ":"
  ++ pad2 (second dt)
  ++ (if (microsecond dt =? 0)%N then [] else py "." ++ pad6 (microsecond dt)).

(** ** The crawler and its world *)

(** What the crawler does to the outside, with two marks of where the
    run is: the request for a listing page (line 344) and the entry of an
    article URL in [visited_urls] (line 271). *)
Inductive event :=
  | EvListing (page_num : nat)
  | EvVisit (url : list N)
  | EvGet (url : list N)
  | EvSleep (seconds : nat)
  | EvNow
  | EvSaved
  | EvSaveFailed.

(** The answer to [session.get(url, timeout=30)] followed by
    [raise_for_status()]: a [RequestException], or the text of the
    response (here parsed; [None] for an empty text). *)
Inductive response :=
  | RequestException
  | ResponseText (text : option (list node)).

Record world := {
  http_get : list event → list N → response;
  clock : list event → datetime;
  can_write : list event → bool
}.

(** The document written by [save_to_json] (lines 387-392). *)
Record report := {
  total_articles : nat;
  crawl_date : list N;
  source_url : list N;
  report_articles : list (list (list N * list N))
}.

(** A [CISACrawler]: [articles] and [visited_urls] (lines 40-41), with
    the history of events and the content of [cisa_news.json]. *)
Record crawler := {
  articles : list (list (list N * list N));
  visited_urls : gset (list N);
  events : list event;
  saved : option report
}.

Definition base_url : list N := py "https://www.cisa.gov/news-events/news".

(** [CISACrawler()] *)
Definition new_crawler : crawler :=
  {| articles := []; visited_urls := ∅; events := []; saved := None |}.

Definition emit (evs : list event) (self : crawler) : crawler :=
  {| articles := articles self; visited_urls := visited_urls self;
     events := events self ++ evs; saved := saved self |}.

(** How a call ends: it returns, it raises, or the model's loop bound ran
    out before it ended. *)
Inductive exn := AttributeError | OSError.

Inductive outcome (A : Type) :=
  | Done (a : A)
  | Raised (e : exn)
  | Running.
#[global] Arguments Done {A} a.
#[global] Arguments Raised {A} e.
#[global] Arguments Running {A}.

(** [get_page_content] (lines 43-59): [remaining] attempts are left of
    [max_retries]; returns the markup and the events of the call. *)
Fixpoint get_page_content_loop (w : world) (url : list N) (max_retries remaining : nat)
    (history : list event) : option (list node) * list event :=
  match remaining with
  | O => (None, [])
  | S remaining' =>
      let attempt := max_retries - remaining in
      match http_get w history url with
      | ResponseText text => (text, [EvGet url])
      | RequestException =>
          if attempt <? max_retries - 1 then
            let '(r, evs) :=
              get_page_content_loop w url max_retries remaining'
                (history ++ [EvGet url; EvSleep 5]) in
            (r, EvGet url :: EvSleep 5 :: evs)
          else (None, [EvGet url])
      end
  end.

Definition get_page_content (w : world) (url : list N) (max_retries : nat)
    (self : crawler) : option (list node) * crawler :=
  let '(r, evs) := get_page_content_loop w url max_retries max_retries (events self) in
  (r, emit evs self).

(** [crawl_article] (lines 264-297). *)
Definition crawl_article (w : world) (info : article_info) (self : crawler)
    : outcome (option (list (list N * list N)) * crawler) :=
  let url := url info in
  if bool_decide (url ∈ visited_urls self) then Done (None, self)
  else
    let self :=
      {| articles := articles self; visited_urls := {[url]} ∪ visited_urls self;
         events := events self ++ [EvVisit url]; saved := saved self |} in
    let '(html_content, self) := get_page_content w url 3 self in
    match html_content with
    | None => Done (None, self)
    | Some _ =>
        let metadata := extract_article_metadata html_content in
        let content := extract_article_content html_content in
        if negb (nonempty content) || (length content <? 100) then Done (None, self)
        else
          match metadata with
          | MetaPair _ _ => Raised AttributeError
          | MetaDict metadata =>
              let article_data :=
                [(py "title", title info);
                 (py "url", url);
                 (py "author", dict_get (py "author") [] metadata);
                 (py "release_date", dict_get (py "release_date") [] metadata);
                 (py "content", content);
                 (py "crawl_date", isoformat (clock w (events self)))] in
              Done (Some article_data, emit [EvNow] self)
          end
    end.

(** [if max_articles and len(self.articles) >= max_articles] *)
Definition article_limit_reached (max_articles : option Z) (self : crawler) : bool :=
  match max_articles with
  | Some m => negb (m =? 0)%Z && (m <=? Z.of_nat (length (articles self)))%Z
  | None => false
  end.

(** [if max_pages and page_num > max_pages] *)
Definition page_limit_reached (max_pages : option Z) (page_num : nat) : bool :=
  match max_pages with
  | Some m => negb (m =? 0)%Z && (m <? Z.of_nat page_num)%Z
  | None => false
  end.

(** Lines 366-375: the loop over the links of one listing page. *)
Fixpoint article_loop (w : world) (max_articles : option Z)
    (links : list article_info) (self : crawler) : outcome crawler :=
  match links with
  | [] => Done self
  | info :: rest =>
      if article_limit_reached max_articles self then Done self
      else
        match crawl_article w info self with
        | Done (article_data, self) =>
            let self :=
              match article_data with
              | Some d =>
                  {| articles := articles self ++ [d]; visited_urls := visited_urls self;
                     events := events self; saved := saved self |}
              | None => self
              end in
            article_loop w max_articles rest (emit [EvSleep 1] self)
        | Raised e => Raised e
        | Running => Running
        end
  end.

Fixpoint digits_of_uint (d : Decimal.uint) : list N :=
  match d with
  | Decimal.Nil => []
  | Decimal.D0 r => 48%N :: digits_of_uint r
  | Decimal.D1 r => 49%N :: digits_of_uint r
  | Decimal.D2 r => 50%N :: digits_of_uint r
  | Decimal.D3 r => 51%N :: digits_of_uint r
  | Decimal.D4 r => 52%N :: digits_of_uint r
  | Decimal.D5 r => 53%N :: digits_of_uint r
  | Decimal.D6 r => 54%N :: digits_of_uint r
  | Decimal.D7 r => 55%N :: digits_of_uint r
  | Decimal.D8 r => 56%N :: digits_of_uint r
  | Decimal.D9 r => 57%N :: digits_of_uint r
  end.

(** [f"{self.base_url}?page={page_num}"] *)
Definition listing_url (page_num : nat) : list N :=
  base_url ++ py "?page=" ++ digits_of_uint (Nat.to_uint page_num).

(** The four ways out of the loop of [crawl_all_pages]. *)
Inductive exit_reason :=
  | ArticleLimit
  | PageLimit
  | ListingFailed
  | NoArticles.

(** One turn of [while True] (lines 335-379): [inl] when it breaks,
    [inr] when it goes on to the next page. *)
Definition page_turn (w : world) (max_articles max_pages : option Z)
    (page_num : nat) (self : crawler) : outcome (exit_reason * crawler + crawler) :=
  if article_limit_reached max_articles self then Done (inl (ArticleLimit, self))
  else if page_limit_reached max_pages page_num then Done (inl (PageLimit, self))
  else
    let page_url := listing_url page_num in
    let '(html_content, self) :=
      get_page_content w page_url 3 (emit [EvListing page_num] self) in
    match html_content with
    | None => Done (inl (ListingFailed, self))
    | Some _ =>
        match extract_article_links (visited_urls self) html_content page_url with
        | [] => Done (inl (NoArticles, self))
        | (_ :: _) as links =>
            match article_loop w max_articles links self with
            | Done self => Done (inr (emit [EvSleep 2] self))
            | Raised e => Raised e
            | Running => Running
            end
        end
    end.

(** [crawl_all_pages] from page [page_num] on; [fuel] bounds the number
    of turns.  Returns the value of [page_num] at the break, the reason
    and the crawler. *)
Fixpoint crawl_pages_from (w : world) (max_articles max_pages : option Z)
    (fuel page_num : nat) (self : crawler) : outcome (nat * exit_reason * crawler) :=
  match fuel with
  | O => Running
  | S fuel' =>
      match page_turn w max_articles max_pages page_num self with
      | Done (inl (reason, self)) => Done (page_num, reason, self)
      | Done (inr self) =>
          crawl_pages_from w max_articles max_pages fuel' (S page_num) self
      | Raised e => Raised e
      | Running => Running
      end
  end.

(** [crawl_all_pages] (lines 326-381). *)
Definition crawl_all_pages (w : world) (max_articles max_pages : option Z)
    (fuel : nat) (self : crawler) : outcome (nat * exit_reason * crawler) :=
  crawl_pages_from w max_articles max_pages fuel 1 self.

(** Lines 386-392: [open] and [json.dump]; raises when the world refuses
    the write. *)
Definition write_report (w : world) (self : crawler) : outcome crawler :=
  if can_write w (events self) then
    let r :=
      {| total_articles := length (articles self);
         crawl_date := isoformat (clock w (events self));
         source_url := base_url;
         report_articles := articles self |} in
    Done {| articles := articles self; visited_urls := visited_urls self;
            events := events self ++ [EvNow; EvSaved]; saved := Some r |}
  else Raised OSError.

(** [save_to_json] (lines 383-396): [except Exception] logs and returns. *)
Definition save_to_json (w : world) (self : crawler) : outcome crawler :=
  match write_report w self with
  | Done self => Done self
  | Raised _ => Done (emit [EvSaveFailed] self)
  | Running => Running
  end.

(** [run] (lines 398-405). *)
Definition run (w : world) (max_articles max_pages : option Z)
    (fuel : nat) (self : crawler) : outcome crawler :=
  match crawl_all_pages w max_articles max_pages fuel self with
  | Done (_, _, self) => save_to_json w self
  | Raised e => Raised e
  | Running => Running
  end.

(** ** Command line *)

(** [int(token)] of the interpreter: [None] for a [ValueError]. *)
Variable int : list N → option Z.

(** [sys.argv.index(flag)] *)
Fixpoint index (flag : list N) (argv : list (list N)) : option nat :=
  match argv with
  | [] => None
  | a :: rest =>
      if eqb_str a flag then Some 0
      else match index flag rest with
           | Some i => Some (S i)
           | None => None
           end
  end.

(** Lines 413-419 (and 421-427): the value a flag leaves in its variable. *)
Definition flag_value (flag : list N) (argv : list (list N)) : option Z :=
  if mem_str flag argv then
    match index flag argv with
    | Some idx =>
        if idx + 1 <? length argv then
          match argv !! (idx + 1) with
          | Some token => int token
          | None => None
          end
        else None
    | None => None
    end
  else None.

(** Lines 409-427. *)
Definition parse_args (argv : list (list N)) : option Z * option Z :=
  if 1 <? length argv then
    (flag_value (py "--max") argv, flag_value (py "--pages") argv)
  else (None, None).

(** [main] (lines 407-430). *)
Definition main (w : world) (fuel : nat) (argv : list (list N)) : outcome crawler :=
  let '(max_articles, max_pages) := parse_args argv in
  run w max_articles max_pages fuel new_crawler.

(** The exit status of the process: 0 when [main] returns, 1 when an
    exception escapes it. *)
Definition exit_status (o : outcome crawler) : option Z :=
  match o with
  | Done _ => Some 0%Z
  | Raised _ => Some 1%Z
  | Running => None
  end.

(** What both tiers give: a candidate comes from an anchor of the page,
    its URL is the anchor's [href] resolved against [page_url], its title
    the anchor's stripped text. *)
Definition from_anchor (page_url : list N) (links : list node) (c : article_info) : Prop :=
  ∃ link href, In link links ∧ get_attr (py "href") link = Some href ∧
    url c = urljoin page_url href ∧ title c = get_text_strip [] link.


(** ** Observations on a run *)

(** The URLs entered in [visited_urls], in the order of entry. *)
Fixpoint visits (evs : list event) : list (list N) :=
  match evs with
  | [] => []
  | EvVisit u :: r => u :: visits r
  | _ :: r => visits r
  end.

(** The listing pages asked for, in order. *)
Fixpoint listings (evs : list event) : list nat :=
  match evs with
  | [] => []
  | EvListing n :: r => n :: listings r
  | _ :: r => listings r
  end.

(** The listing pages completed: the pause of 2 seconds of line 378
    follows each of them and nothing else. *)
Fixpoint pages_processed (evs : list event) : nat :=
  match evs with
  | [] => 0
  | EvSleep 2 :: r => S (pages_processed r)
  | _ :: r => pages_processed r
  end.

(** The events of the work on one article. *)
Definition article_event (e : event) : bool :=
  match e with
  | EvVisit _ | EvGet _ | EvNow => true
  | EvSleep n => negb (n =? 2)
  | EvListing _ | EvSaved | EvSaveFailed => false
  end.

(** The state at the start of the turn for page [page_num + n], when the
    [n] turns before it all went on to the next page. *)
Fixpoint turns (w : world) (max_articles max_pages : option Z)
    (n page_num : nat) (self : crawler) : option crawler :=
  match n with
  | O => Some self
  | S n' =>
      match page_turn w max_articles max_pages page_num self with
      | Done (inr self') => turns w max_articles max_pages n' (S page_num) self'
      | _ => None
      end
  end.

(** The record [crawl_article] assembles (lines 287-294). *)
Definition article_record (w : world) (d : list (list N * list N)) : Prop :=
  ∃ t u a r c h,
    d = [(py "title", t); (py "url", u); (py "author", a);
         (py "release_date", r); (py "content", c);
         (py "crawl_date", isoformat (clock w h))]
    ∧ 100 ≤ length c.

(** What the crawl adds to a crawler: events [evs], records, and the
    visited URLs that [evs] tells. *)
Record progress (w : world) (self self' : crawler) (evs : list event) : Prop := {
  pr_events : events self' = events self ++ evs;
  pr_articles :
    ∃ new, articles self' = articles self ++ new ∧ Forall (article_record w) new;
  pr_visited :
    ∀ u, u ∈ visited_urls self' ↔ u ∈ visited_urls self ∨ In u (visits evs);
  pr_fresh :
    List.NoDup (visits evs) ∧ ∀ u, In u (visits evs) → u ∉ visited_urls self;
  pr_saved : saved self' = saved self
}.

(** An article that the world serves and that passes the length test of line 283
    is recorded. *)
Definition served (w : world) (info : article_info) : Prop :=
  ∃ doc, (∀ h, http_get w h (url info) = ResponseText (Some doc)) ∧
         100 ≤ length (extract_article_content (Some doc)).


(** The events of a fetch: requests for the URL and pauses of 5 seconds. *)
Definition fetch_events (url : list N) (evs : list event) : Prop :=
  Forall (λ e, e = EvGet url ∨ e = EvSleep 5) evs.


(** The fields of a [datetime] are in range. *)
Definition valid_datetime (dt : datetime) : Prop :=
  (1 ≤ year dt ≤ 9999)%N ∧ (1 ≤ month dt ≤ 12)%N ∧ (1 ≤ day dt ≤ 31)%N ∧
  (hour dt ≤ 23)%N ∧ (minute dt ≤ 59)%N ∧ (second dt ≤ 59)%N ∧
  (microsecond dt ≤ 999999)%N.

Definition is_digit (c : N) : bool := ((48 <=? c) && (c <=? 57))%N.

Definition num2 (a b : N) : N := (10 * (a - 48) + (b - 48))%N.

(** An ISO-8601 date and time in the extended format,
    [YYYY-MM-DDTHH:MM:SS] with an optional decimal fraction of the second. *)
Definition is_iso8601 (s : list N) : bool :=
  match s with
  | y1 :: y2 :: y3 :: y4 :: d1 :: m1 :: m2 :: d2 :: a1 :: a2 :: t
    :: h1 :: h2 :: c1 :: i1 :: i2 :: c2 :: s1 :: s2 :: frac =>
      forallb is_digit [y1; y2; y3; y4; m1; m2; a1; a2; h1; h2; i1; i2; s1; s2]
      && (d1 =? 45)%N && (d2 =? 45)%N && (t =? 84)%N
      && (c1 =? 58)%N && (c2 =? 58)%N
      && (1 <=? num2 m1 m2)%N && (num2 m1 m2 <=? 12)%N
      && (1 <=? num2 a1 a2)%N && (num2 a1 a2 <=? 31)%N
      && (num2 h1 h2 <=? 23)%N && (num2 i1 i2 <=? 59)%N
      && (num2 s1 s2 <=? 59)%N
      && match frac with
         | [] => true
         | dot :: ds => (dot =? 46)%N && nonempty ds && forallb is_digit ds
         end
  | _ => false
  end.

End Tables.

(** ** Text in normal form *)

(** A string is trimmed when neither end is white space. *)
Definition trimmed (s : list N) : Prop :=
  (∀ c, head s = Some c → isspace c = false) ∧
  (∀ c, last s = Some c → isspace c = false).

(** [t] occurs in [s] as a contiguous piece. *)
Definition infix (t s : list N) : Prop := ∃ p q, s = p ++ t ++ q.

(** Every two neighbouring characters of [s] are related by [R]. *)
Definition adjacent (R : N → N → Prop) (s : list N) : Prop :=
  ∀ s1 a b s2, s = s1 ++ a :: b :: s2 → R a b.

(** No two spaces side by side. *)
Definition Rss (a b : N) : Prop := ¬ (a = sp ∧ b = sp).
(** After a newline, no white space. *)
Definition Rnw (a b : N) : Prop := a = nl → isspace b = false.

(** A line as [normalize_content] leaves it. *)
Definition good_line (l : list N) : Prop :=
  trimmed l ∧ 20 < length l ∧ ¬ In nl l ∧ adjacent Rss l.

(** A page whose body holds [text] and nothing else. *)
Definition page_of_text (text : list N) : list node :=
  [Elem (py "body") [] [Text text]].

(** The tree of a markup that is [text] alone, with no tag: one text
    node and no element ([html.parser] adds none). *)
Definition bare_text (text : list N) : list node := [Text text].

(** ** A small site, for the examples *)

(** [urljoin] where the examples use it: an [href] that is an absolute
    [https] URL resolves to itself. *)
Definition urljoin_absolute (base href : list N) : list N := href.

Definition anchor (href text : list N) : node :=
  Elem (py "a") [(py "href", href)] [Text text].

Definition report_pdf : list N := py "https://example.com/news-events/news/report.pdf".

(** A listing page with the same link to a report twice. *)
Definition pdf_listing : list node :=
  [Elem (py "html") []
     [Elem (py "body") []
        [anchor report_pdf (py "Annual report 2024");
         anchor report_pdf (py "Annual report 2024")]]].

(** [int] on the tokens of the examples: a run of ASCII digits. *)
Definition int_ascii (s : list N) : option Z :=
  match s with
  | [] => None
  | _ :: _ =>
      if forallb is_digit s
      then Some (fold_left (λ acc c, 10 * acc + Z.of_N (c - 48))%Z s 0%Z)
      else None
  end.

Definition alert_url (i : nat) : list N :=
  py "https://www.cisa.gov/news-events/news/alert-" ++ digits_of_uint (Nat.to_uint i).

Definition alert_title (i : nat) : list N :=
  py "Security alert number " ++ digits_of_uint (Nat.to_uint i).

(** A listing page with [n] links to alerts, in a plain list. *)
Definition alert_listing (n : nat) : list node :=
  [Elem (py "html") []
     [Elem (py "body") []
        (map (λ i, anchor (alert_url i) (alert_title i)) (seq 0 n))]].

(** The same links inside a [div] of class [news-list]. *)
Definition framed_listing (n : nat) : list node :=
  [Elem (py "html") []
     [Elem (py "body") []
        [Elem (py "div") [(py "class", py "news-list")]
           (map (λ i, anchor (alert_url i) (alert_title i)) (seq 0 n))]]].

Definition alert_page : list node :=
  [Elem (py "html") []
     [Elem (py "body") []
        [Elem (py "p") []
           [Text (py "The agency has released an advisory describing a vulnerability that affects industrial control systems worldwide.")]]]].

Definition empty_page : list node := [Elem (py "html") [] [Elem (py "body") [] []]].

(** Listing page 1 links to [n] alerts, every alert is served, every other
    listing page is empty; the file can be written or not. *)
Definition site (n : nat) (writable : bool) : world :=
  {| http_get := λ _ u,
       if eqb_str u (listing_url 1) then ResponseText (Some (alert_listing n))
       else if contains (py "/news-events/news/") u then ResponseText (Some alert_page)
       else if contains (py "?page=") u then ResponseText (Some empty_page)
       else RequestException;
     clock := λ _,
       {| year := 2025; month := 4; day := 1; hour := 9; minute := 30;
          second := 15; microsecond := 250 |};
     can_write := λ _, writable |}.

Definition script : list N := py "cisa_crawler.py".

(** No request is answered. *)
Definition offline : world :=
  {| http_get := λ _ _, RequestException;
     clock := clock (site 0 true);
     can_write := λ _, true |}.

Definition first_alert : article_info :=
  {| title := alert_title 0; url := alert_url 0 |}.

(** A crawler that has visited the first alert. *)
Definition seen_first : crawler :=
  {| articles := []; visited_urls := {[alert_url 0]}; events := []; saved := None |}.

(** No two equal strings in a list. *)
Fixpoint nodupb (l : list (list N)) : bool :=
  match l with
  | [] => true
  | x :: r => negb (mem_str x r) && nodupb r
  end.

(** ** Functions the crawler defines and does not call *)

(** The elements below a node, in document order: what [find_all] and
    [find] of an element range over. *)
Definition below (n : node) : list node :=
  match n with Text _ => [] | Elem _ _ cs => elements cs end.

(** [title and len(title) > 10] *)
Definition long_enough (title : list N) : bool :=
  nonempty title && (10 <? length title).

Definition heading_tags : list (list N) :=
  [py "h1"; py "h2"; py "h3"; py "h4"; py "h5"; py "h6"].

(** Lines 135-138. *)
Fixpoint title_loop (title_elements : list node) : option (list N) :=
  match title_elements with
  | [] => None
  | title_elem :: rest =>
      let title := get_text_strip [] title_elem in
      if long_enough title then Some title else title_loop rest
  end.

(** [class_=re.compile(r'title|headline')] *)
Definition class_matches_title (n : node) : bool :=
  match get_attr (py "class") n with
  | Some v => contains (py "title") v || contains (py "headline") v
  | None => false
  end.

(** [extract_title] (lines 126-147). *)
Definition extract_title (link_element parent_element : node) : option (list N) :=
  let title := get_text_strip [] link_element in
  if long_enough title then Some title
  else
    let title_elements :=
      List.filter (has_tag_in heading_tags) (below parent_element) in
    match title_loop title_elements with
    | Some title => Some title
    | None =>
        match List.find class_matches_title (below parent_element) with
        | Some title_elem =>
            let title := get_text_strip [] title_elem in
            if long_enough title then Some title else None
        | None => None
        end
    end.

(** [re.findall(pattern, s)] for a pattern with one group: the groups of
    the matches met from the left, no two overlapping.  [m] gives the group
    and the length of a match at the head of a string. *)
Fixpoint re_findall_from {A} (m : list N → option (A * nat))
    (skip : nat) (s : list N) : list A :=
  match s with
  | [] => []
  | c :: r =>
      match skip with
      | S k => re_findall_from m k r
      | O =>
          match m s with
          | Some (x, S n) => x :: re_findall_from m n r
          | _ => re_findall_from m 0 r
          end
      end
  end.

Definition re_findall {A} (m : list N → option (A * nat)) (s : list N) : list A :=
  re_findall_from m 0 s.

(** A letter of a pattern under [re.IGNORECASE]: the lower-case letter or
    its capital (for [p], [a], [g] and [e] nothing else matches). *)
Definition nocase (lower c : N) : bool := (c =? lower)%N || (c =? lower - 32)%N.

Section Pagination.

(** The Unicode decimal digits, as in [Tables]; none of them is white
    space. *)
Variable isdecimal : N → bool.

(** [int(s)]; [None] for a [ValueError]. *)
Variable int : list N → option Z.

(** [page=(\d+)] at the head of [s]: group 1. *)
Definition match_page_eq (s : list N) : option (list N) :=
  if startswith (py "page=") s then
    match take_while isdecimal (drop 5 s) with
    | [] => None
    | (_ :: _) as digits => Some digits
    end
  else None.

(** [page\s*(\d+)] under [re.IGNORECASE] at the head of [s]: group 1 and
    the length of the match. *)
Definition match_page_text (s : list N) : option (list N * nat) :=
  match s with
  | p :: a :: g :: e :: r =>
      if nocase 112 p && nocase 97 a && nocase 103 g && nocase 101 e then
        let ws := take_while isspace r in
        match take_while isdecimal (drop_while isspace r) with
        | [] => None
        | (_ :: _) as digits => Some (digits, 4 + length ws + length digits)
        end
      else None
  | _ => None
  end.

(** Line 307: [soup.find_all('a', href=re.compile(r'page=\d+'))]. *)
Definition pagination_links (soup : list node) : list node :=
  List.filter
    (λ n, has_tag_in [py "a"] n &&
          match get_attr (py "href") n with
          | Some h =>
              match re_search match_page_eq h with Some _ => true | None => false end
          | None => false
          end)
    (elements soup).

(** Lines 310-315; [None] when [int] raises. *)
Fixpoint max_page_loop (links : list node) (max_page : Z) : option Z :=
  match links with
  | [] => Some max_page
  | link :: rest =>
      let href := match get_attr (py "href") link with Some h => h | None => [] end in
      match re_search match_page_eq href with
      | Some digits =>
          match int digits with
          | Some page_num => max_page_loop rest (Z.max max_page page_num)
          | None => None
          end
      | None => max_page_loop rest max_page
      end
  end.

(** [max(int(p) for p in page_matches)], for a list that is not empty. *)
Fixpoint max_ints (page_matches : list (list N)) : option Z :=
  match page_matches with
  | [] => None
  | p :: rest =>
      match int p with
      | Some n =>
          match rest with
          | [] => Some n
          | _ :: _ =>
              match max_ints rest with
              | Some n' => Some (Z.max n n')
              | None => None
              end
          end
      | None => None
      end
  end.

(** [get_max_pages] (lines 299-324); [None] when [int] raises. *)
Definition get_max_pages (html_content : option (list node)) : option Z :=
  match html_content with
  | None => Some 1%Z
  | Some soup =>
      match max_page_loop (pagination_links soup) 1 with
      | Some max_page =>
          if (max_page =? 1)%Z then
            let page_text := get_text soup in
            match re_findall match_page_text page_text with
            | [] => Some max_page
            | (_ :: _) as page_matches => max_ints page_matches
            end
          else Some max_page
      | None => None
      end
  end.

End Pagination.

(** ** Further observations *)

(** The history at the attempt of index [j] of a fetch that started at
    history [h]: [j] failed requests, each followed by its pause. *)
Definition attempt_history (h : list event) (url : list N) (j : nat) : list event :=
  h ++ concat (replicate j [EvGet url; EvSleep 5]).

(** The events of a fetch that is answered, or gives up, at the attempt of
    index [i]. *)
Definition fetch_trace (url : list N) (i : nat) : list event :=
  concat (replicate i [EvGet url; EvSleep 5]) ++ [EvGet url].

(** The candidate an anchor stands for: its stripped text and its [href]
    resolved against the page URL. *)
Definition candidate_of (urljoin : list N → list N → list N)
    (page_url : list N) (link : node) : article_info :=
  {| title := get_text_strip [] link;
     url := urljoin page_url
              (match get_attr (py "href") link with Some h => h | None => [] end) |}.

(** The tag names that [html.parser] gives never begin with a dot: every
    element of the tree has such a tag. *)
Fixpoint no_dot_tags (n : node) : bool :=
  match n with
  | Text _ => true
  | Elem t _ cs =>
      negb (startswith [46%N] t) &&
      (fix go (l : list node) : bool :=
         match l with
         | [] => true
         | c :: l' => no_dot_tags c && go l'
         end) cs
  end.

(** The seven names of [unwanted_tags] that are tag names. *)
Definition boilerplate_tags : list (list N) :=
  [py "nav"; py "header"; py "footer"; py "aside"; py "script"; py "style";
   py "noscript"].

(** The text of the element a selector selects, when it selects one. *)
Definition selected_text (sel : selector) (soup : list node) : option (list N) :=
  match select_one sel soup with
  | Some e => Some (get_text_strip [nl] e)
  | None => None
  end.

(** The date one element gives (lines 170-172): its [datetime] attribute,
    or its stripped text when the attribute is missing or empty. *)
Definition date_of (date_elem : node) : list N :=
  let release_date :=
    match get_attr (py "datetime") date_elem with
    | Some v => v
    | None => []
    end in
  if nonempty release_date then release_date
  else get_text_strip [] date_elem.

(** A date as the pattern of line 179 takes it from the text: a month in
    ASCII letters, white space, one or two digits, a comma, white space,
    four digits. *)
Definition date_shape (isdecimal : N → bool) (s : list N) : Prop :=
  ∃ month ws1 day ws2 year,
    s = month ++ ws1 ++ day ++ [comma] ++ ws2 ++ year ∧
    month ≠ [] ∧ forallb is_ascii_letter month = true ∧
    ws1 ≠ [] ∧ forallb isspace ws1 = true ∧
    1 ≤ length day ≤ 2 ∧ forallb isdecimal day = true ∧
    ws2 ≠ [] ∧ forallb isspace ws2 = true ∧
    length year = 4 ∧ forallb isdecimal year = true.

(** The [url] fields of a list of records. *)
Definition record_urls (ds : list (list (list N * list N))) : list (option (list N)) :=
  map (dict_lookup (py "url")) ds.

(** What a stretch of the crawl records: the records it adds have the
    URLs entered in [visited_urls] during the stretch, or some of them, in
    the order of entry. *)
Definition recorded (self self' : crawler) : Prop :=
  ∃ new evs,
    articles self' = articles self ++ new ∧
    events self' = events self ++ evs ∧
    sublist (record_urls new) (map Some (visits evs)).

(** The page number a pagination link names: the number after the first
    [page=] of its [href] that digits follow. *)
Definition link_page (isdecimal : N → bool) (int : list N → option Z)
    (link : node) (n : Z) : Prop :=
  ∃ digits,
    re_search (match_page_eq isdecimal)
      (match get_attr (py "href") link with Some h => h | None => [] end)
    = Some digits ∧
    int digits = Some n.

(** A run of digits, as [\d+] takes it. *)
Definition digit_run (isdecimal : N → bool) (s : list N) : Prop :=
  s ≠ [] ∧ forallb isdecimal s = true.

(** The URLs requested, in order. *)
Fixpoint gets (evs : list event) : list (list N) :=
  match evs with
  | [] => []
  | EvGet u :: r => u :: gets r
  | _ :: r => gets r
  end.

(** Every request of [evs] is for a listing page that [evs] asks for or
    for a URL that [evs] enters in [visited_urls]. *)
Definition accounted (evs : list event) : Prop :=
  ∀ u, In u (gets evs) →
    (∃ k, In k (listings evs) ∧ u = listing_url k) ∨ In u (visits evs).

(** ** Further pages and worlds, for the examples *)

(** The first request of a run is refused, every later one is answered
    with the page of an alert. *)
Definition flaky : world :=
  {| http_get := λ h _,
       match h with
       | [] => RequestException
       | _ :: _ => ResponseText (Some alert_page)
       end;
     clock := clock (site 0 true);
     can_write := λ _, true |}.

(** A teaser: a short link beside a heading. *)
Definition teaser_link : node := anchor (alert_url 0) (py "More").

Definition teaser : node :=
  Elem (py "div") []
    [teaser_link; Elem (py "h2") [] [Text (py "  Security alert number 0 ")]].

Definition advisory_text : list N :=
  py "The agency has released an advisory describing a vulnerability that affects industrial control systems worldwide. Operators are urged to apply the updates of the vendor and to review the access to their networks."
  ++ [nl] ++ py "Contact".

(** A page with a short [main], a long [article] with a side bar in it,
    and a navigation bar. *)
Definition article_page : list node :=
  [Elem (py "html") []
     [Elem (py "body") []
        [Elem (py "nav") [] [Text (py "Home")];
         Elem (py "main") [] [Text (py "Overview")];
         Elem (py "article") []
           [Elem (py "div") [(py "class", py "sidebar")]
              [Text (py "Related advisories of this year")];
            Elem (py "p") [] [Text advisory_text]]]]].

(** A page whose only content region is a short [main]. *)
Definition short_main_page : list node :=
  [Elem (py "html") []
     [Elem (py "body") []
        [Elem (py "main") [] [Text (py "Overview")];
         Elem (py "p") []
           [Text (py "The agency has released an advisory for operators.")]]]].

(** A page that carries its date and its author in the markup and in the
    text. *)
Definition signed_page : list node :=
  [Elem (py "html") []
     [Elem (py "body") []
        [Elem (py "span") [(py "class", py "date"); (py "datetime", py "2024-05-01")]
           [Text (py "May 1")];
         Elem (py "cite") [] [Text (py "  ")];
         Elem (py "span") [(py "class", py "author-name")] [Text (py " Jane Doe ")];
         Elem (py "p") [] [Text (py "Released January 5, 2024 By John Roe, CISA")]]]].

Definition released_text : list N :=
  py "Alert. Released  January 5, 2024 By John Roe".

(** A listing page with links to the pages 2 and 7. *)
Definition paged_listing : list node :=
  [Elem (py "html") []
     [Elem (py "body") []
        [anchor (py "/news-events/news?page=2") (py "2");
         anchor (py "/news-events/news?page=7") (py "Last");
         Elem (py "p") [] [Text (py "Page 1 of 7")]]]].

(** * Properties *)

Example normalize_sample :
  normalize_content
    (py "   The agency published new guidance.   " ++ [nl; sp; nl; nl] ++ py "Menu" ++ [nl]
      ++ py "  Second   paragraph of   the advisory text.")
  = py "The agency published new guidance." ++ [nl]
      ++ py "Second paragraph of the advisory text.".
Proof. vm_compute. reflexivity. Qed.

#[local] Arguments N.eqb : simpl never.
#[local] Arguments isspace : simpl never.
#[local] Arguments py : simpl never.
#[local] Arguments get_attr : simpl never.
#[local] Arguments get_text_strip : simpl never.
#[local] Arguments is_article_url : simpl never.
#[local] Arguments article_limit_reached : simpl never.
#[local] Arguments page_limit_reached : simpl never.
#[local] Arguments extract_article_content : simpl never.
#[local] Arguments extract_article_metadata : simpl never.
#[local] Arguments extract_article_links : simpl never.
#[local] Arguments listing_url : simpl never.

(** ** Strings: prefixes of a test, stripping *)

Lemma take_drop_while p s : take_while p s ++ drop_while p s = s.
Proof.
  induction s as [|c r IH]; simpl; [reflexivity|].
  destruct (p c); simpl; [by rewrite IH | reflexivity].
Qed.

Lemma drop_while_head p s c : head (drop_while p s) = Some c → p c = false.
Proof.
  induction s as [|a r IH]; simpl; [discriminate|].
  destruct (p a) eqn:E; [exact IH|].
  simpl. intros [= <-]. exact E.
Qed.

Lemma drop_while_id p s : (∀ c, head s = Some c → p c = false) → drop_while p s = s.
Proof.
  destruct s as [|a r]; simpl; [reflexivity|].
  intros H. by rewrite (H a eq_refl).
Qed.

Lemma drop_length_take_while p s : drop (length (take_while p s)) s = drop_while p s.
Proof.
  induction s as [|c r IH]; simpl; [reflexivity|].
  destruct (p c); simpl; [exact IH | reflexivity].
Qed.

Lemma take_while_nil p s : (∀ c, head s = Some c → p c = false) → take_while p s = [].
Proof.
  destruct s as [|a r]; simpl; [reflexivity|].
  intros H. by rewrite (H a eq_refl).
Qed.

Lemma drop_while_last p s c :
  last (drop_while p s) = Some c → last s = Some c.
Proof.
  intros H. rewrite <- (take_drop_while p s), last_app. by rewrite H.
Qed.

Lemma strip_trimmed s : trimmed (strip s).
Proof.
  unfold strip, rstrip, lstrip. split; intros c.
  - rewrite head_reverse. intros H%drop_while_last.
    rewrite last_reverse in H. by apply drop_while_head in H.
  - rewrite last_reverse. apply drop_while_head.
Qed.

Lemma trimmed_strip s : trimmed s → strip s = s.
Proof.
  intros [Hh Hl]. unfold strip, rstrip, lstrip.
  rewrite (drop_while_id _ s Hh), drop_while_id.
  - apply reverse_involutive.
  - intros c. rewrite head_reverse. apply Hl.
Qed.

Lemma strip_idempotent s : strip (strip s) = strip s.
Proof. apply trimmed_strip, strip_trimmed. Qed.

Lemma infix_refl s : infix s s.
Proof. exists [], []. by rewrite app_nil_r. Qed.

Lemma infix_trans t u s : infix t u → infix u s → infix t s.
Proof.
  intros (p & q & ->) (p' & q' & ->). exists (p' ++ p), (q ++ q').
  by rewrite !app_assoc.
Qed.

Lemma infix_In t s c : infix t s → In c t → In c s.
Proof. intros (p & q & ->) H. rewrite !in_app_iff. tauto. Qed.

Lemma drop_while_infix p s : infix (drop_while p s) s.
Proof.
  exists (take_while p s), []. by rewrite app_nil_r, take_drop_while.
Qed.

Lemma strip_infix s : infix (strip s) s.
Proof.
  unfold strip, rstrip, lstrip.
  apply infix_trans with (drop_while isspace s); [|apply drop_while_infix].
  generalize (drop_while isspace s). intros t.
  destruct (drop_while_infix isspace (reverse t)) as (p & q & E).
  exists (reverse q), (reverse p).
  generalize dependent (drop_while isspace (reverse t)). intros u E.
  apply (f_equal reverse) in E.
  rewrite reverse_involutive, !reverse_app in E.
  by rewrite E, <- app_assoc.
Qed.

(** ** Strings: a relation between neighbours *)

Lemma adjacent_infix R t s : infix t s → adjacent R s → adjacent R t.
Proof.
  intros (p & q & ->) H s1 a b s2 ->.
  apply (H (p ++ s1) a b (s2 ++ q)).
  by rewrite <- !app_assoc.
Qed.

Lemma adjacent_nil R : adjacent R [].
Proof. intros [|] ? ? ? ?; discriminate. Qed.

Lemma adjacent_cons R a s :
  adjacent R (a :: s) ↔ (∀ b, head s = Some b → R a b) ∧ adjacent R s.
Proof.
  split.
  - intros H. split.
    + intros b Hb. destruct s as [|b' s']; simplify_eq/=.
      by apply (H [] a b s').
    + intros s1 x y s2 ->. by apply (H (a :: s1) x y s2).
  - intros [H1 H2] [|c s1] x y s2 E; simplify_eq/=.
    + by apply H1.
    + by apply (H2 s1 x y s2).
Qed.

Lemma adjacent_tail R a s : adjacent R (a :: s) → adjacent R s.
Proof. intros H. by apply adjacent_cons in H as [_ ?]. Qed.

Lemma adjacent_app_cons R l b t :
  adjacent R l → adjacent R (b :: t) →
  (∀ a, last l = Some a → R a b) →
  adjacent R (l ++ b :: t).
Proof.
  induction l as [|a l IH]; intros Hl Ht Hb; simpl; [exact Ht|].
  apply adjacent_cons in Hl as [Ha Hl].
  apply adjacent_cons. split.
  - intros c. destruct l as [|a' l']; simpl.
    + intros [= <-]. by apply Hb.
    + intros [= <-]. by apply Ha.
  - apply IH; [exact Hl | exact Ht|].
    intros c Hc. apply Hb. rewrite last_cons. by rewrite Hc.
Qed.

Lemma adjacent_drop R n s : adjacent R s → adjacent R (drop n s).
Proof.
  apply adjacent_infix. exists (take n s), [].
  by rewrite app_nil_r, take_drop.
Qed.

(** ** [re.sub]: one step *)

Lemma re_sub_from_drop m repl k s :
  re_sub_from m repl k s = re_sub m repl (drop k s).
Proof.
  revert k. induction s as [|c r IH]; intros [|k]; try reflexivity.
  simpl. apply IH.
Qed.

Lemma re_sub_nil m repl : re_sub m repl [] = [].
Proof. reflexivity. Qed.

Lemma re_sub_cons m repl c r :
  re_sub m repl (c :: r) =
  match m (c :: r) with
  | Some (S n) => repl ++ re_sub m repl (drop n r)
  | _ => c :: re_sub m repl r
  end.
Proof.
  unfold re_sub at 1. simpl.
  destruct (m (c :: r)) as [[|n]|]; try reflexivity.
  by rewrite re_sub_from_drop.
Qed.

(** ** The three substitutions *)

Lemma eqb_sp_true c : (sp =? c)%N = true ↔ c = sp.
Proof. rewrite N.eqb_eq. split; congruence. Qed.

Lemma match_spaces_cons c r :
  match_spaces (c :: r) =
  if (sp =? c)%N then Some (S (length (take_while (N.eqb sp) r))) else None.
Proof. unfold match_spaces. simpl. by destruct (sp =? c)%N. Qed.

Lemma re_sub_spaces_cons c r :
  re_sub match_spaces [sp] (c :: r) =
  if (sp =? c)%N then sp :: re_sub match_spaces [sp] (drop_while (N.eqb sp) r)
  else c :: re_sub match_spaces [sp] r.
Proof.
  rewrite re_sub_cons, match_spaces_cons.
  destruct (sp =? c)%N; [|reflexivity].
  by rewrite drop_length_take_while.
Qed.

Lemma head_re_sub_spaces s : head (re_sub match_spaces [sp] s) = head s.
Proof.
  destruct s as [|c r]; [reflexivity|].
  rewrite re_sub_spaces_cons.
  destruct (sp =? c)%N eqn:E; [|reflexivity].
  apply eqb_sp_true in E. by subst.
Qed.

Lemma drop_while_length p s : length (drop_while p s) ≤ length s.
Proof.
  induction s as [|c r IH]; simpl; [lia|].
  destruct (p c); simpl; lia.
Qed.

Lemma re_sub_spaces_adjacent s : adjacent Rss (re_sub match_spaces [sp] s).
Proof.
  remember (length s) as n eqn:Hn.
  assert (Hle : length s ≤ n) by lia. clear Hn.
  revert s Hle. induction n as [|n IH]; intros [|c r] Hle; simpl in Hle;
    try apply adjacent_nil; try lia.
  rewrite re_sub_spaces_cons.
  destruct (sp =? c)%N eqn:E; apply adjacent_cons; split.
  - intros b. rewrite head_re_sub_spaces.
    intros Hb%drop_while_head. intros [_ ->]. discriminate.
  - apply IH. pose proof (drop_while_length (N.eqb sp) r). lia.
  - intros b _ [-> _]. discriminate.
  - apply IH. lia.
Qed.

Lemma match_nl_spaces_cons c r :
  match_nl_spaces (c :: r) =
  if (c =? nl)%N then
    match take_while (N.eqb sp) r with
    | [] => None
    | _ :: _ => Some (S (length (take_while (N.eqb sp) r)))
    end
  else None.
Proof.
  unfold match_nl_spaces. destruct (c =? nl)%N; [|reflexivity].
  by destruct (take_while (N.eqb sp) r).
Qed.

Lemma re_sub_nl_spaces_cons c r :
  re_sub match_nl_spaces [nl] (c :: r) =
  if (c =? nl)%N then nl :: re_sub match_nl_spaces [nl] (drop_while (N.eqb sp) r)
  else c :: re_sub match_nl_spaces [nl] r.
Proof.
  rewrite re_sub_cons, match_nl_spaces_cons.
  destruct (c =? nl)%N eqn:E; [|reflexivity].
  apply N.eqb_eq in E. subst c.
  destruct (take_while (N.eqb sp) r) eqn:Et.
  - destruct r as [|b r']; [reflexivity|]. simpl in *.
    by destruct (sp =? b)%N.
  - rewrite <- Et. by rewrite drop_length_take_while.
Qed.

Lemma head_re_sub_nl_spaces s : head (re_sub match_nl_spaces [nl] s) = head s.
Proof.
  destruct s as [|c r]; [reflexivity|].
  rewrite re_sub_nl_spaces_cons.
  destruct (c =? nl)%N eqn:E; [|reflexivity].
  apply N.eqb_eq in E. by subst.
Qed.

Lemma re_sub_nl_spaces_adjacent s :
  adjacent Rss s → adjacent Rss (re_sub match_nl_spaces [nl] s).
Proof.
  remember (length s) as n eqn:Hn.
  assert (Hle : length s ≤ n) by lia. clear Hn.
  revert s Hle. induction n as [|n IH]; intros [|c r] Hle Hs; simpl in Hle;
    try apply adjacent_nil; try lia.
  rewrite re_sub_nl_spaces_cons.
  destruct (c =? nl)%N eqn:E; apply adjacent_cons; split.
  - apply N.eqb_eq in E. subst c. intros b _ [H _]. discriminate.
  - apply IH.
    + pose proof (drop_while_length (N.eqb sp) r). lia.
    + apply adjacent_infix with (c :: r); [|exact Hs].
      apply infix_trans with r; [apply drop_while_infix|].
      exists [c], []. by rewrite app_nil_r.
  - intros b. rewrite head_re_sub_nl_spaces. intros Hb.
    apply adjacent_cons in Hs as [Hs _]. by apply Hs.
  - apply IH; [lia|]. by apply adjacent_tail in Hs.
Qed.

Lemma collapse_whitespace_adjacent c : adjacent Rss (collapse_whitespace c).
Proof. apply re_sub_nl_spaces_adjacent, re_sub_spaces_adjacent. Qed.

Lemma re_sub_blank_id s :
  adjacent Rnw s → re_sub match_blank_lines [nl; nl] s = s.
Proof.
  induction s as [|c r IH]; intros Hs; [reflexivity|].
  apply adjacent_cons in Hs as [Hc Hr].
  rewrite re_sub_cons, (IH Hr).
  replace (match_blank_lines (c :: r)) with (@None nat); [reflexivity|].
  unfold match_blank_lines. destruct (c =? nl)%N eqn:E; [|reflexivity].
  apply N.eqb_eq in E. rewrite take_while_nil; [reflexivity|].
  intros b Hb. by apply Hc.
Qed.

Lemma re_sub_spaces_id s :
  adjacent Rss s → re_sub match_spaces [sp] s = s.
Proof.
  induction s as [|c r IH]; intros Hs; [reflexivity|].
  apply adjacent_cons in Hs as [Hc Hr].
  rewrite re_sub_spaces_cons.
  destruct (sp =? c)%N eqn:E.
  - apply eqb_sp_true in E. subst c.
    rewrite drop_while_id; [by rewrite (IH Hr)|].
    intros b Hb. destruct (sp =? b)%N eqn:Eb; [|reflexivity].
    apply eqb_sp_true in Eb. subst b. by destruct (Hc _ Hb).
  - by rewrite (IH Hr).
Qed.

Lemma re_sub_nl_spaces_id s :
  adjacent Rnw s → re_sub match_nl_spaces [nl] s = s.
Proof.
  induction s as [|c r IH]; intros Hs; [reflexivity|].
  apply adjacent_cons in Hs as [Hc Hr].
  rewrite re_sub_nl_spaces_cons.
  destruct (c =? nl)%N eqn:E.
  - apply N.eqb_eq in E. subst c.
    rewrite drop_while_id; [by rewrite (IH Hr)|].
    intros b Hb. destruct (sp =? b)%N eqn:Eb; [|reflexivity].
    apply eqb_sp_true in Eb. subst b. by specialize (Hc _ Hb eq_refl).
  - by rewrite (IH Hr).
Qed.

(** ** [split] and [join] *)

Lemma split_nonempty sep s : split sep s ≠ [].
Proof.
  destruct s as [|c r]; simpl; [discriminate|].
  destruct (c =? sep)%N; [discriminate|].
  destruct (split sep r); discriminate.
Qed.

Lemma join_cons2 sep l l2 L :
  join sep (l :: l2 :: L) = l ++ sep ++ join sep (l2 :: L).
Proof. reflexivity. Qed.

Lemma join_cons_head sep c l L :
  join sep ((c :: l) :: L) = c :: join sep (l :: L).
Proof. destruct L; reflexivity. Qed.

Lemma join_split sep s : join [sep] (split sep s) = s.
Proof.
  induction s as [|c r IH]; [reflexivity|]. simpl.
  destruct (c =? sep)%N eqn:E.
  - apply N.eqb_eq in E. subst c.
    pose proof (split_nonempty sep r) as Hne.
    destruct (split sep r) as [|l L]; [done|].
    rewrite join_cons2, IH. reflexivity.
  - pose proof (split_nonempty sep r) as Hne.
    destruct (split sep r) as [|l L]; [done|].
    by rewrite join_cons_head, IH.
Qed.

Lemma join_In_infix sep L l : In l L → infix l (join sep L).
Proof.
  induction L as [|l0 L IH]; [done|].
  intros [->|Hin].
  - destruct L as [|l2 L]; [apply infix_refl|].
    rewrite join_cons2. by exists [], (sep ++ join sep (l2 :: L)).
  - destruct L as [|l2 L]; [done|].
    rewrite join_cons2. destruct (IH Hin) as (p & q & ->).
    exists (l0 ++ sep ++ p), q. by rewrite <- !app_assoc.
Qed.

Lemma split_In_infix sep s l : In l (split sep s) → infix l s.
Proof.
  intros H. rewrite <- (join_split sep s) at 1. by apply join_In_infix.
Qed.

Lemma split_In_no_sep sep s l : In l (split sep s) → ¬ In sep l.
Proof.
  revert l. induction s as [|c r IH]; simpl; intros l.
  - intros [<-|[]] [].
  - destruct (c =? sep)%N eqn:E.
    + intros [<-|Hin]; [intros []|by apply IH].
    + pose proof (split_nonempty sep r) as Hne.
      destruct (split sep r) as [|l0 L]; [done|].
      intros [<-|Hin].
      * intros [->|Hin]; [by rewrite N.eqb_refl in E|].
        apply (IH l0); [by left | done].
      * apply IH. by right.
Qed.

Lemma split_no_sep sep l : ¬ In sep l → split sep l = [l].
Proof.
  induction l as [|c r IH]; intros H; [reflexivity|]. simpl.
  destruct (c =? sep)%N eqn:E.
  - apply N.eqb_eq in E. subst. destruct H. by left.
  - rewrite IH; [reflexivity|]. intros ?. apply H. by right.
Qed.

Lemma split_app_sep sep l t :
  ¬ In sep l → split sep (l ++ sep :: t) = l :: split sep t.
Proof.
  induction l as [|c r IH]; intros H; simpl.
  - by rewrite N.eqb_refl.
  - destruct (c =? sep)%N eqn:E.
    + apply N.eqb_eq in E. subst. destruct H. by left.
    + rewrite IH; [reflexivity|]. intros ?. apply H. by right.
Qed.

Lemma split_join sep L :
  L ≠ [] → Forall (λ l, ¬ In sep l) L → split sep (join [sep] L) = L.
Proof.
  induction L as [|l L IH]; [done|]. intros _ HL.
  apply Forall_cons in HL as [Hl HL].
  destruct L as [|l2 L].
  - by apply split_no_sep.
  - rewrite join_cons2.
    change (l ++ [sep] ++ join [sep] (l2 :: L))
      with (l ++ sep :: join [sep] (l2 :: L)).
    rewrite split_app_sep by done. by rewrite IH.
Qed.

(** ** Normal form of the extracted text *)

Lemma cleaned_lines_spec lines l :
  In l (cleaned_lines lines) ↔
  ∃ l0, In l0 lines ∧ l = strip l0 ∧ 20 < length (strip l0).
Proof.
  unfold cleaned_lines. rewrite in_map_iff. split.
  - intros (l0 & <- & [Hin Hlen]%filter_In). exists l0.
    apply Nat.ltb_lt in Hlen. done.
  - intros (l0 & Hin & -> & Hlen). exists l0. split; [done|].
    apply filter_In. split; [done|]. by apply Nat.ltb_lt.
Qed.

Lemma cleaned_lines_good c :
  Forall good_line (cleaned_lines (split nl (collapse_whitespace c))).
Proof.
  apply List.Forall_forall. intros l (l0 & Hin & -> & Hlen)%cleaned_lines_spec.
  repeat split.
  - apply strip_trimmed.
  - apply strip_trimmed.
  - exact Hlen.
  - intros H. apply (split_In_no_sep _ _ _ Hin).
    by apply (infix_In _ _ _ (strip_infix l0)).
  - apply adjacent_infix with l0; [apply strip_infix|].
    apply adjacent_infix with (collapse_whitespace c);
      [by apply (split_In_infix nl) | apply collapse_whitespace_adjacent].
Qed.

Lemma cleaned_lines_id L : Forall good_line L → cleaned_lines L = L.
Proof.
  unfold cleaned_lines. induction 1 as [|l L (Ht & Hlen & _) _ IH]; [reflexivity|].
  simpl. rewrite (trimmed_strip l Ht).
  destruct (Nat.ltb_spec 20 (length l)); [|lia].
  simpl. by rewrite (trimmed_strip l Ht), IH.
Qed.

Lemma head_join sep l L : l ≠ [] → head (join sep (l :: L)) = head l.
Proof. destruct l as [|c l]; [done|]. intros _. by rewrite join_cons_head. Qed.

Lemma join_adjacent R L :
  Forall (λ l, l ≠ [] ∧ adjacent R l
               ∧ (∀ a, last l = Some a → R a nl)
               ∧ (∀ b, head l = Some b → R nl b)) L →
  adjacent R (join [nl] L).
Proof.
  induction 1 as [|l L (Hne & Hadj & Hlast & Hhead) HL IH]; [apply adjacent_nil|].
  destruct L as [|l2 L]; [exact Hadj|].
  rewrite join_cons2.
  change (l ++ [nl] ++ join [nl] (l2 :: L)) with (l ++ nl :: join [nl] (l2 :: L)).
  apply adjacent_app_cons; [exact Hadj| |exact Hlast].
  apply adjacent_cons. split; [|exact IH].
  apply Forall_cons in HL as [(Hne2 & _ & _ & Hhead2) _].
  intros b. rewrite head_join by done. apply Hhead2.
Qed.

Lemma no_nl_adjacent_Rnw l : ¬ In nl l → adjacent Rnw l.
Proof.
  intros H s1 a b s2 -> ->. exfalso. apply H.
  rewrite in_app_iff. right. by left.
Qed.

Lemma last_In (l : list N) a : last l = Some a → In a l.
Proof.
  intros (l' & ->)%last_Some. rewrite in_app_iff. right. by left.
Qed.

Lemma good_lines_join L :
  Forall good_line L →
  adjacent Rnw (join [nl] L) ∧ adjacent Rss (join [nl] L).
Proof.
  intros HL. split; apply join_adjacent;
    (eapply Forall_impl; [exact HL|]);
    intros l ([Hh Hl] & Hlen & Hnl & Hss); repeat split.
  - intros ->. simpl in Hlen. lia.
  - by apply no_nl_adjacent_Rnw.
  - intros a Ha ->. exfalso. apply Hnl. by apply last_In.
  - intros b Hb _. by apply Hh.
  - intros ->. simpl in Hlen. lia.
  - exact Hss.
  - intros a _ [_ H]. discriminate.
  - intros b _ [H _]. discriminate.
Qed.

Lemma normalize_content_fixed L :
  Forall good_line L → normalize_content (join [nl] L) = join [nl] L.
Proof.
  intros HL. destruct (good_lines_join L HL) as [Hnw Hss].
  unfold normalize_content, collapse_whitespace.
  rewrite (re_sub_blank_id _ Hnw), (re_sub_spaces_id _ Hss),
    (re_sub_nl_spaces_id _ Hnw).
  destruct L as [|l L]; [reflexivity|].
  rewrite split_join.
  - by rewrite cleaned_lines_id.
  - discriminate.
  - eapply Forall_impl; [exact HL|]. by intros ? (_ & _ & ? & _).
Qed.

Lemma normalize_content_trimmed content : trimmed (normalize_content content).
Proof.
  unfold normalize_content.
  pose proof (cleaned_lines_good content) as HL.
  generalize dependent (cleaned_lines (split nl (collapse_whitespace content))).
  intros L HL. split; intros c.
  - destruct HL as [|l L (Ht & Hlen & _) _]; [discriminate|].
    rewrite head_join; [apply Ht|].
    intros ->. simpl in Hlen. lia.
  - induction HL as [|l L (Ht & Hlen & _) HL IH]; [discriminate|].
    destruct L as [|l2 L]; [apply Ht|].
    rewrite join_cons2, app_assoc, last_app.
    destruct (last (join [nl] (l2 :: L))) as [y|] eqn:E.
    + intros [= <-]. by apply IH.
    + apply last_None in E.
      apply Forall_cons in HL as [(_ & Hlen2 & _) _].
      destruct l2; [simpl in Hlen2; lia|].
      rewrite join_cons_head in E. discriminate.
Qed.

Lemma extract_page_of_text t :
  extract_article_content (Some (page_of_text t)) =
  let content := join [nl] (stripped_strings [t]) in
  if nonempty content then normalize_content content else content.
Proof. reflexivity. Qed.

(** C6 as the code has it: the normalisation of the content extractor is
    idempotent, the text [extract_article_content] returns is a fixed point
    of it, and extracting again from a page whose body is that text returns
    the same text.  From the text alone, with no element around it, the
    extractor returns the empty string: it reads text from a selected
    element or from [body] only. *)
Theorem extract_article_content_idempotent :
  (∀ content,
     normalize_content (normalize_content content) = normalize_content content) ∧
  (∀ html_content,
     let text := extract_article_content html_content in
     normalize_content text = text ∧
     extract_article_content (Some (page_of_text text)) = text) ∧
  (∀ text, extract_article_content (Some (bare_text text)) = []).
Proof.
  assert (Hfix : ∀ content,
    normalize_content (normalize_content content) = normalize_content content).
  { intros content. unfold normalize_content at 2 3.
    apply normalize_content_fixed, cleaned_lines_good. }
  assert (Hout : ∀ html_content, ∃ content,
    extract_article_content html_content = normalize_content content).
  { intros [parsed|]; [|by exists []].
    unfold extract_article_content.
    match goal with |- context [if nonempty ?c then _ else _] =>
      destruct c as [|a c'] eqn:E end.
    - by exists [].
    - by eexists. }
  split; [exact Hfix|]. split; [|reflexivity].
  intros html_content text. destruct (Hout html_content) as [content Hc].
  subst text. rewrite Hc. split; [apply Hfix|].
  rewrite extract_page_of_text. unfold stripped_strings. simpl.
  rewrite (trimmed_strip _ (normalize_content_trimmed content)).
  destruct (normalize_content content) as [|a t] eqn:E; [reflexivity|].
  simpl. rewrite <- E. apply Hfix.
Qed.

(** C9 as the code has it: the text returned consists of the stripped
    lines longer than 20 characters, in order; a line is dropped exactly
    when its stripped length is at most 20. *)
Theorem normalize_content_keeps_long_lines content :
  let lines := split nl (collapse_whitespace content) in
  let kept := cleaned_lines lines in
  normalize_content content = join [nl] kept ∧
  kept = map strip (List.filter (λ l, 20 <? length (strip l)) lines) ∧
  (∀ l0, In l0 lines → 20 < length (strip l0) → In (strip l0) kept) ∧
  (∀ l, In l kept → 20 < length l ∧ ∃ l0, In l0 lines ∧ l = strip l0) ∧
  (kept ≠ [] → split nl (normalize_content content) = kept).
Proof.
  intros lines kept. repeat split.
  - intros l0 Hin Hlen. apply cleaned_lines_spec. by exists l0.
  - apply cleaned_lines_spec in H as (l0 & _ & -> & Hlen). exact Hlen.
  - apply cleaned_lines_spec in H as (l0 & Hin & -> & _). by exists l0.
  - intros Hne. unfold normalize_content. fold lines. fold kept.
    apply split_join; [exact Hne|].
    eapply Forall_impl; [apply cleaned_lines_good|].
    by intros ? (_ & _ & ? & _).
Qed.

(** ** Link discoverer *)

Section Links.

Variable urljoin : list N → list N → list N.

Lemma path_pattern_loop_In page_url links c :
  In c (path_pattern_loop urljoin page_url links) →
  10 < length (title c) ∧ from_anchor urljoin page_url links c.
Proof.
  induction links as [|link rest IH]; simpl; [done|].
  assert (Hrest : In c (path_pattern_loop urljoin page_url rest) →
    10 < length (title c) ∧ from_anchor urljoin page_url (link :: rest) c).
  { intros (? & l & h & ? & ?)%IH. split; [done|]. exists l, h. split; [by right|done]. }
  destruct (get_attr (py "href") link) as [[|h0 href]|] eqn:Eh; try exact Hrest.
  destruct (nonempty _ && (10 <? _)) eqn:Et; [|exact Hrest].
  intros [<-|Hin]; [|by apply Hrest].
  apply andb_prop in Et as [_ Hlen%Nat.ltb_lt]. split; [exact Hlen|].
  exists link, (h0 :: href). split; [by left|done].
Qed.

Lemma heuristic_loop_In visited page_url links seen c :
  In c (heuristic_loop urljoin visited page_url links seen) →
  10 < length (title c) ∧ is_article_url (url c) = true ∧
  (url c ∉ seen) ∧ (url c ∉ visited) ∧ from_anchor urljoin page_url links c.
Proof.
  revert seen. induction links as [|link rest IH]; intros seen; simpl; [done|].
  assert (Hrest : ∀ seen', seen ⊆ seen' →
    In c (heuristic_loop urljoin visited page_url rest seen') →
    10 < length (title c) ∧ is_article_url (url c) = true ∧
    (url c ∉ seen) ∧ (url c ∉ visited) ∧ from_anchor urljoin page_url (link :: rest) c).
  { intros seen' Hsub Hin.
    destruct (IH _ Hin) as (H1 & H2 & H3 & H4 & l & h & H5 & H6).
    split; [done|]. split; [done|].
    split; [intros ?; apply H3; by apply Hsub|]. split; [done|].
    exists l, h. split; [by right|done]. }
  destruct (get_attr (py "href") link) as [[|h0 href]|] eqn:Eh;
    try (by apply Hrest).
  destruct (is_article_url _ && _ && _) eqn:Ea; [|by apply Hrest].
  destruct (nonempty _ && (10 <? _)) eqn:Et; [|by apply Hrest].
  intros [<-|Hin];
    [|apply (Hrest ({[urljoin page_url (h0 :: href)]} ∪ seen));
      [apply union_subseteq_r | exact Hin]].
  apply andb_prop in Et as [_ Hlen%Nat.ltb_lt].
  apply andb_prop in Ea as [[Hart Hseen%bool_decide_eq_true]%andb_prop
                              Hvis%bool_decide_eq_true].
  simpl. repeat split; try done.
  exists link, (h0 :: href). split; [by left|done].
Qed.

Lemma heuristic_loop_NoDup visited page_url links seen :
  List.NoDup (map url (heuristic_loop urljoin visited page_url links seen)).
Proof.
  revert seen. induction links as [|link rest IH]; intros seen; simpl;
    [constructor|].
  destruct (get_attr (py "href") link) as [[|h0 href]|]; try apply IH.
  destruct (is_article_url _ && _ && _); [|apply IH].
  destruct (nonempty _ && (10 <? _)); [|apply IH].
  simpl. constructor; [|apply IH].
  intros (c & Hc & Hin%heuristic_loop_In)%in_map_iff.
  destruct Hin as (_ & _ & Hseen & _). set_solver.
Qed.

(** C1 as the code has it.  Every candidate has a title longer than 10
    characters and the URL of an anchor of the page, resolved against the
    page URL.  When the heuristic tier produced the result (the path-pattern
    tier gave nothing or did not run), every URL passes [is_article_url]
    (it contains [cisa.gov] and [/news-events/news/] and does not end in
    [.pdf], [.doc] or [.docx]), is not in [visited_urls], and no two
    candidates share a URL.  Otherwise the result is that of the
    path-pattern tier, whose anchors have an [href] containing
    [/news-events/news/]. *)
Theorem extract_article_links_sound visited soup page_url :
  let found := extract_article_links urljoin visited (Some soup) page_url in
  let tier2 :=
    match article_elements soup with
    | [] => path_pattern_loop urljoin page_url (article_links soup)
    | _ :: _ => []
    end in
  (∀ c, In c found →
     10 < length (title c) ∧ from_anchor urljoin page_url (all_links soup) c) ∧
  (tier2 = [] →
     (∀ c, In c found →
        contains (py "cisa.gov") (url c) = true ∧
        contains (py "/news-events/news/") (url c) = true ∧
        endswith (py ".pdf") (url c) = false ∧
        endswith (py ".doc") (url c) = false ∧
        endswith (py ".docx") (url c) = false ∧
        url c ∉ visited) ∧
     List.NoDup (map url found)) ∧
  (tier2 ≠ [] →
     found = tier2 ∧
     ∀ c, In c found → from_anchor urljoin page_url (article_links soup) c).
Proof.
  intros found tier2.
  assert (Hsub : ∀ c, from_anchor urljoin page_url (article_links soup) c →
                      from_anchor urljoin page_url (all_links soup) c).
  { intros c (l & h & Hin & Hh & ?). exists l, h. split; [|done].
    unfold article_links, all_links in *.
    apply filter_In in Hin as [Hin Hf]. apply filter_In. split; [done|].
    apply andb_prop in Hf as [-> _]. by rewrite Hh. }
  assert (H2 : ∀ c, In c tier2 →
    10 < length (title c) ∧ from_anchor urljoin page_url (article_links soup) c).
  { subst tier2. destruct (article_elements soup); [|done].
    apply path_pattern_loop_In. }
  subst found. unfold extract_article_links. fold tier2.
  destruct tier2 as [|c0 cs] eqn:E2.
  - split; [|split; [|done]].
    + intros c (? & _ & _ & _ & ?)%heuristic_loop_In. done.
    + intros _. split; [|apply heuristic_loop_NoDup].
      intros c (_ & Hart & _ & Hvis & _)%heuristic_loop_In.
      unfold is_article_url in Hart.
      repeat (apply andb_prop in Hart as [Hart ?%negb_true_iff]).
      apply andb_prop in Hart as [? ?]. done.
  - split; [|split; [done|]].
    + intros c [? ?]%H2. split; [done|]. by apply Hsub.
    + intros _. split; [done|]. intros c [_ ?]%H2. done.
Qed.

End Links.

(** C1 fails in the path-pattern tier: the two candidates share one URL,
    which is on another host, ends in [.pdf] and is already visited. *)
Lemma path_pattern_tier_unchecked :
  let found :=
    extract_article_links urljoin_absolute {[report_pdf]} (Some pdf_listing)
      (listing_url 1) in
  map url found = [report_pdf; report_pdf] ∧
  contains (py "cisa.gov") report_pdf = false ∧
  endswith (py ".pdf") report_pdf = true ∧
  report_pdf ∈ ({[report_pdf]} : gset (list N)) ∧
  ¬ List.NoDup (map url found).
Proof.
  repeat split; try set_solver.
  intros H. vm_compute in H. inversion H as [|? ? Hn _]. apply Hn. by left.
Qed.

(** ** The run: what the crawl adds to the crawler *)

Lemma visits_app e1 e2 : visits (e1 ++ e2) = visits e1 ++ visits e2.
Proof.
  induction e1 as [|[] e1 IH]; simpl; try done. by rewrite IH.
Qed.

Lemma listings_app e1 e2 : listings (e1 ++ e2) = listings e1 ++ listings e2.
Proof.
  induction e1 as [|[] e1 IH]; simpl; try done. by rewrite IH.
Qed.

Lemma pages_processed_app e1 e2 :
  pages_processed (e1 ++ e2) = pages_processed e1 + pages_processed e2.
Proof.
  induction e1 as [|e e1 IH]; [done|].
  destruct e as [| | |[|[|[|n]]]| | |]; simpl; lia.
Qed.

Lemma article_events_quiet evs :
  forallb article_event evs = true → listings evs = [] ∧ pages_processed evs = 0.
Proof.
  induction evs as [|e evs IH]; [done|]. simpl.
  intros [He Hevs]%andb_prop. destruct (IH Hevs) as [IH1 IH2].
  destruct e as [| | |[|[|[|n]]]| | |]; simpl in *; try done.
Qed.

Lemma forallb_article_event_app e1 e2 :
  forallb article_event e1 = true → forallb article_event e2 = true →
  forallb article_event (e1 ++ e2) = true.
Proof. intros H1 H2. rewrite forallb_app. by rewrite H1, H2. Qed.

Section Run.

Variable isdecimal : N → bool.
Variable urljoin : list N → list N → list N.
Variable w : world.

Lemma fetch_events_quiet url evs :
  fetch_events url evs → visits evs = [] ∧ forallb article_event evs = true.
Proof.
  induction 1 as [|e evs [->| ->] _ [IH1 IH2]]; simpl; done.
Qed.

Lemma get_page_content_loop_events url max_retries remaining history :
  fetch_events url (get_page_content_loop w url max_retries remaining history).2.
Proof.
  revert history. induction remaining as [|n IH]; intros history; simpl.
  - constructor.
  - destruct (http_get w history url).
    + destruct (_ <? _).
      * specialize (IH (history ++ [EvGet url; EvSleep 5])).
        destruct (get_page_content_loop _ _ _ _ _) as [r evs]. simpl in *.
        apply List.Forall_cons; [by left|].
        apply List.Forall_cons; [by right|done].
      * apply List.Forall_cons; [by left|constructor].
    + apply List.Forall_cons; [by left|constructor].
Qed.

Lemma get_page_content_loop_first url max_retries n history :
  head (get_page_content_loop w url max_retries (S n) history).2 = Some (EvGet url).
Proof.
  simpl. destruct (http_get w history url); [|done].
  destruct (_ <? _); [|done].
  by destruct (get_page_content_loop _ _ _ _ _).
Qed.

Lemma get_page_content_spec url self r self' :
  get_page_content w url 3 self = (r, self') →
  ∃ evs, self' = emit evs self ∧ fetch_events url evs ∧
         head evs = Some (EvGet url).
Proof.
  unfold get_page_content.
  pose proof (get_page_content_loop_events url 3 3 (events self)) as H1.
  pose proof (get_page_content_loop_first url 3 2 (events self)) as H2.
  destruct (get_page_content_loop w url 3 3 (events self)) as [r0 evs].
  intros [= <- <-]. by exists evs.
Qed.

Lemma progress_refl self : progress w self self [].
Proof.
  split; simpl.
  - by rewrite app_nil_r.
  - exists []. by rewrite app_nil_r.
  - intros u. tauto.
  - split; [constructor | done].
  - done.
Qed.

Lemma progress_trans a b c e1 e2 :
  progress w a b e1 → progress w b c e2 → progress w a c (e1 ++ e2).
Proof.
  intros [E1 (n1 & A1 & R1) V1 [N1 F1] S1] [E2 (n2 & A2 & R2) V2 [N2 F2] S2].
  split.
  - by rewrite E2, E1, app_assoc.
  - exists (n1 ++ n2). rewrite A2, A1, app_assoc. split; [done|].
    by apply Forall_app.
  - intros u. rewrite V2, V1, visits_app, in_app_iff. tauto.
  - rewrite visits_app. split.
    + apply List.NoDup_app; [done|done|].
      intros u Hu1 Hu2. apply (F2 u Hu2), V1. by right.
    + intros u [Hu|Hu]%in_app_iff; [by apply F1|].
      intros Hv. apply (F2 u Hu), V1. by left.
  - by rewrite S2.
Qed.

Lemma progress_emit evs self :
  visits evs = [] → progress w self (emit evs self) evs.
Proof.
  intros Hv. split; simpl.
  - done.
  - exists []. by rewrite app_nil_r.
  - intros u. rewrite Hv. simpl. tauto.
  - rewrite Hv. split; [constructor | done].
  - done.
Qed.

Lemma extract_article_metadata_Some soup :
  ∃ release_date author,
    extract_article_metadata isdecimal (Some soup) =
    MetaDict [(py "release_date", release_date); (py "author", author)].
Proof. unfold extract_article_metadata. by eexists _, _. Qed.

(** [crawl_article] always returns; what it returns and leaves behind. *)
Lemma crawl_article_Done info self :
  ∃ r self' evs,
    crawl_article isdecimal w info self = Done (r, self') ∧
    progress w self self' evs ∧ articles self' = articles self ∧
    forallb article_event evs = true ∧
    (url info ∈ visited_urls self → r = None ∧ self' = self) ∧
    (url info ∉ visited_urls self →
       visited_urls self' = {[url info]} ∪ visited_urls self ∧
       ∃ evs', evs = EvVisit (url info) :: EvGet (url info) :: evs' ∧
               visits evs' = []) ∧
    (∀ d, r = Some d →
       article_record w d ∧ dict_lookup (py "title") d = Some (title info)
       ∧ dict_lookup (py "url") d = Some (url info)).
Proof.
  unfold crawl_article. case_bool_decide as Hv.
  { exists None, self, []. split_and!; try done. apply progress_refl. }
  set (self1 := {| articles := articles self;
                   visited_urls := {[url info]} ∪ visited_urls self;
                   events := events self ++ [EvVisit (url info)];
                   saved := saved self |}).
  assert (P1 : progress w self self1 [EvVisit (url info)]).
  { split; simpl; try done.
    - exists []. by rewrite app_nil_r.
    - intros u. rewrite elem_of_union, elem_of_singleton. simpl.
      split; [intros [->|?]; [right; by left | by left]|].
      intros [?|[<-|[]]]; [by right | by left].
    - split; [repeat constructor; by intros []|].
      intros u [<-|[]]. done. }
  destruct (get_page_content w (url info) 3 self1) as [html self2] eqn:Eg.
  apply get_page_content_spec in Eg as (evs & -> & Hf & Hhd).
  destruct (fetch_events_quiet _ _ Hf) as [Hq1 Hq2].
  destruct evs as [|e0 evs0]; [done|]. injection Hhd as ->.
  assert (P2 : progress w self (emit (EvGet (url info) :: evs0) self1)
                 ([EvVisit (url info)] ++ EvGet (url info) :: evs0)).
  { eapply progress_trans; [exact P1|]. by apply progress_emit. }
  assert (Hnone : ∃ (r : option (list (list N * list N))) self' evs,
    Done (None, emit (EvGet (url info) :: evs0) self1) = Done (r, self') ∧
    progress w self self' evs ∧ articles self' = articles self ∧
    forallb article_event evs = true ∧
    (url info ∈ visited_urls self → r = None ∧ self' = self) ∧
    (url info ∉ visited_urls self →
       visited_urls self' = {[url info]} ∪ visited_urls self ∧
       ∃ evs', evs = EvVisit (url info) :: EvGet (url info) :: evs' ∧
               visits evs' = []) ∧
    (∀ d, r = Some d →
       article_record w d ∧ dict_lookup (py "title") d = Some (title info)
       ∧ dict_lookup (py "url") d = Some (url info))).
  { eexists _, _, _. split; [reflexivity|]. split; [exact P2|].
    split_and!; try done. intros _. split; [done|]. by exists evs0. }
  destruct html as [soup|]; [|exact Hnone].
  destruct (extract_article_metadata_Some soup) as (rd & au & ->).
  destruct (negb _ || _) eqn:Eshort; [exact Hnone|].
  apply orb_false_elim in Eshort as [_ Hlen%Nat.ltb_ge].
  eexists _, _, _. split; [reflexivity|]. split_and!.
  - eapply progress_trans; [exact P2|]. by apply (progress_emit [EvNow]).
  - done.
  - simpl. rewrite forallb_app. simpl in Hq2. by rewrite Hq2.
  - done.
  - intros _. split; [done|]. exists (evs0 ++ [EvNow]). split; [done|].
    rewrite visits_app. simpl in Hq1. by rewrite Hq1.
  - intros d [= <-]. split_and!; [|done|done].
    by eexists _, _, _, _, _, _.
Qed.

Lemma progress_append d self :
  article_record w d →
  progress w self
    {| articles := articles self ++ [d]; visited_urls := visited_urls self;
       events := events self; saved := saved self |} [].
Proof.
  intros Hd. split; simpl.
  - by rewrite app_nil_r.
  - exists [d]. split; [done|]. by constructor.
  - intros u. tauto.
  - split; [constructor|done].
  - done.
Qed.

(** The loop over the links of a page always ends normally. *)
Lemma article_loop_Done max_articles links self :
  ∃ self' evs,
    article_loop isdecimal w max_articles links self = Done self' ∧
    progress w self self' evs ∧ forallb article_event evs = true.
Proof.
  revert self. induction links as [|info rest IH]; intros self; simpl.
  { exists self, []. split; [done|]. split; [apply progress_refl|done]. }
  destruct (article_limit_reached max_articles self).
  { exists self, []. split; [done|]. split; [apply progress_refl|done]. }
  destruct (crawl_article_Done info self)
    as (r & self1 & e1 & -> & P1 & _ & Q1 & _ & _ & Hr).
  set (self2 := match r with Some d => _ | None => self1 end).
  assert (P2 : progress w self1 self2 []).
  { subst self2. destruct r as [d|]; [|apply progress_refl].
    apply progress_append. by apply Hr. }
  destruct (IH (emit [EvSleep 1] self2)) as (self' & e3 & -> & P3 & Q3).
  exists self', ((e1 ++ []) ++ [EvSleep 1] ++ e3). split; [done|]. split.
  - eapply progress_trans; [eapply progress_trans; [exact P1|exact P2]|].
    eapply progress_trans; [by apply (progress_emit [EvSleep 1])|exact P3].
  - rewrite app_nil_r. apply forallb_article_event_app; [done|].
    by apply forallb_article_event_app.
Qed.

(** One turn of the page loop always ends normally; the pages it asks
    for and completes. *)
Lemma page_turn_Done max_articles max_pages page_num self :
  ∃ res evs,
    page_turn isdecimal urljoin w max_articles max_pages page_num self = Done res ∧
    progress w self (match res with inl (_, s) => s | inr s => s end) evs ∧
    match res with
    | inl (reason, _) =>
        pages_processed evs = 0 ∧
        listings evs =
          match reason with
          | ArticleLimit | PageLimit => []
          | ListingFailed | NoArticles => [page_num]
          end
    | inr _ => pages_processed evs = 1 ∧ listings evs = [page_num]
    end.
Proof.
  unfold page_turn.
  destruct (article_limit_reached max_articles self).
  { eexists _, []. split; [done|]. split; [apply progress_refl|done]. }
  destruct (page_limit_reached max_pages page_num).
  { eexists _, []. split; [done|]. split; [apply progress_refl|done]. }
  destruct (get_page_content w (listing_url page_num) 3 _) as [html self1] eqn:Eg.
  apply get_page_content_spec in Eg as (evs & -> & Hf & _).
  destruct (fetch_events_quiet _ _ Hf) as [Hq1 Hq2].
  destruct (article_events_quiet _ Hq2) as [Hq3 Hq4].
  set (self0 := emit [EvListing page_num] self).
  assert (P1 : progress w self (emit evs self0) ([EvListing page_num] ++ evs)).
  { eapply progress_trans; by apply progress_emit. }
  destruct html as [soup|].
  2:{ eexists _, _. split; [done|]. split; [exact P1|].
      simpl. by rewrite Hq3, Hq4. }
  destruct (extract_article_links _ _ _ _) as [|c cs] eqn:El.
  { eexists _, _. split; [done|]. split; [exact P1|].
    simpl. by rewrite Hq3, Hq4. }
  destruct (article_loop_Done max_articles (c :: cs) (emit evs self0))
    as (self2 & e2 & -> & P2 & Q2).
  destruct (article_events_quiet _ Q2) as [Hq5 Hq6].
  eexists _, _. split; [done|]. split.
  - eapply progress_trans; [eapply progress_trans; [exact P1|exact P2]|].
    by apply (progress_emit [EvSleep 2]).
  - rewrite !pages_processed_app, !listings_app. simpl.
    rewrite Hq3, Hq4, Hq5, Hq6. done.
Qed.

Lemma turns_progress max_articles max_pages n page_num self self' :
  turns isdecimal urljoin w max_articles max_pages n page_num self = Some self' →
  ∃ evs, progress w self self' evs ∧
         pages_processed evs = n ∧ listings evs = seq page_num n.
Proof.
  revert page_num self. induction n as [|n IH]; intros page_num self; simpl.
  { intros [= <-]. exists []. split; [apply progress_refl|done]. }
  destruct (page_turn_Done max_articles max_pages page_num self)
    as (res & e1 & -> & P1 & Hres).
  destruct res as [[]|self1]; [done|].
  intros (e2 & P2 & H2 & H3)%IH. exists (e1 ++ e2).
  split; [by eapply progress_trans|].
  destruct Hres as [H4 H5].
  rewrite pages_processed_app, listings_app, H2, H3, H4, H5. done.
Qed.

(** A run of the page loop that breaks went through [turns] and one more
    turn. *)
Lemma crawl_pages_from_turns max_articles max_pages fuel page_num self k reason self' :
  crawl_pages_from isdecimal urljoin w max_articles max_pages fuel page_num self
    = Done (k, reason, self') →
  ∃ n s, k = page_num + n ∧ n < fuel ∧
    turns isdecimal urljoin w max_articles max_pages n page_num self = Some s ∧
    page_turn isdecimal urljoin w max_articles max_pages k s = Done (inl (reason, self')).
Proof.
  revert page_num self. induction fuel as [|fuel IH]; intros page_num self; simpl; [done|].
  destruct (page_turn _ _ _ _ _ _ _) as [[[r s]|s]| |] eqn:Et; try done.
  - intros [= <- <- <-]. exists 0, self. rewrite Nat.add_0_r.
    split; [done|]. split; [lia|]. done.
  - intros (n & s' & -> & Hn & Ht & Hp)%IH. exists (S n), s'.
    split; [lia|]. split; [lia|]. simpl. rewrite Et. split; [done|].
    by replace (page_num + S n) with (S page_num + n) by lia.
Qed.

Lemma turns_crawl_pages_from max_articles max_pages n page_num self s reason self' fuel :
  turns isdecimal urljoin w max_articles max_pages n page_num self = Some s →
  page_turn isdecimal urljoin w max_articles max_pages (page_num + n) s
    = Done (inl (reason, self')) →
  n < fuel →
  crawl_pages_from isdecimal urljoin w max_articles max_pages fuel page_num self
    = Done (page_num + n, reason, self').
Proof.
  revert page_num self fuel. induction n as [|n IH]; intros page_num self fuel; simpl.
  - intros [= <-]. rewrite Nat.add_0_r. intros Hp Hf.
    destruct fuel; [lia|]. simpl. by rewrite Hp.
  - destruct (page_turn _ _ _ _ _ _ self) as [[[r s1]|s1]| |] eqn:Et; try done.
    intros Ht Hp Hf. destruct fuel; [lia|]. simpl. rewrite Et.
    replace (page_num + S n) with (S page_num + n) in * by lia.
    apply IH; [done|done|lia].
Qed.

Lemma crawl_pages_from_never_raises max_articles max_pages fuel page_num self e :
  crawl_pages_from isdecimal urljoin w max_articles max_pages fuel page_num self
    ≠ Raised e.
Proof.
  revert page_num self. induction fuel as [|fuel IH]; intros page_num self; simpl; [done|].
  destruct (page_turn_Done max_articles max_pages page_num self)
    as (res & e1 & -> & _).
  destruct res as [[]|]; [done|apply IH].
Qed.

Lemma crawl_pages_from_progress max_articles max_pages fuel page_num self k reason self' :
  crawl_pages_from isdecimal urljoin w max_articles max_pages fuel page_num self
    = Done (k, reason, self') →
  ∃ evs, progress w self self' evs.
Proof.
  intros (n & s & -> & _ & (e1 & P1 & _)%turns_progress & Hp)%crawl_pages_from_turns.
  destruct (page_turn_Done max_articles max_pages (page_num + n) s)
    as (res & e2 & Hres & P2 & _).
  rewrite Hp in Hres. injection Hres as <-.
  exists (e1 ++ e2). by eapply progress_trans.
Qed.

(** ** Visited URLs *)

Lemma progress_new_crawler self evs :
  progress w new_crawler self evs →
  events self = evs ∧ List.NoDup (visits evs) ∧
  (∀ u, u ∈ visited_urls self ↔ In u (visits evs)) ∧
  Forall (article_record w) (articles self) ∧ saved self = None.
Proof.
  intros [E (new & A & R) V [N _] S]. simpl in *. split_and!; try done.
  - intros u. rewrite V. split; [|by right].
    intros [Hu|Hu]; [by apply not_elem_of_empty in Hu | done].
  - by rewrite A.
Qed.

(** C3: [crawl_article] returns at once, with no request and the crawler
    unchanged, for a URL already in [visited_urls]; for any other URL it
    first enters the URL in [visited_urls] and then fetches it, whatever
    the fetch gives, and enters no other URL.  In a run of
    [crawl_all_pages] from a new crawler, after any number of pages and at
    the end, no URL is entered (and so fetched as an article) twice, and
    [visited_urls] holds the URLs entered. *)
Theorem visited_once :
  (∀ info self,
     url info ∈ visited_urls self →
     crawl_article isdecimal w info self = Done (None, self)) ∧
  (∀ info self,
     url info ∉ visited_urls self →
     ∃ r self' evs,
       crawl_article isdecimal w info self = Done (r, self') ∧
       visited_urls self' = {[url info]} ∪ visited_urls self ∧
       events self' = events self ++ EvVisit (url info) :: EvGet (url info) :: evs ∧
       visits evs = []) ∧
  (∀ max_articles max_pages n self,
     turns isdecimal urljoin w max_articles max_pages n 1 new_crawler = Some self →
     List.NoDup (visits (events self)) ∧
     ∀ u, u ∈ visited_urls self ↔ In u (visits (events self))) ∧
  (∀ max_articles max_pages fuel k reason self,
     crawl_all_pages isdecimal urljoin w max_articles max_pages fuel new_crawler
       = Done (k, reason, self) →
     List.NoDup (visits (events self)) ∧
     ∀ u, u ∈ visited_urls self ↔ In u (visits (events self))).
Proof.
  split_and!.
  - intros info self Hv.
    destruct (crawl_article_Done info self)
      as (r & self' & evs & -> & _ & _ & _ & Hin & _).
    by destruct (Hin Hv) as [-> ->].
  - intros info self Hv.
    destruct (crawl_article_Done info self)
      as (r & self' & evs & -> & P & _ & _ & _ & Hout & _).
    destruct (Hout Hv) as (Hvis & evs' & -> & Hq).
    exists r, self', evs'. split_and!; try done. apply P.
  - intros max_articles max_pages n self (evs & P & _)%turns_progress.
    apply progress_new_crawler in P as (-> & ? & ? & _). done.
  - intros max_articles max_pages fuel k reason self
      (evs & P)%crawl_pages_from_progress.
    apply progress_new_crawler in P as (-> & ? & ? & _). done.
Qed.

(** A run whose turns for pages 1 to k-1 go on and whose turn for page k
    finds no link. *)
Lemma crawl_stops_at_empty_page max_articles max_pages k s self' :
  1 ≤ k →
  turns isdecimal urljoin w max_articles max_pages (k - 1) 1 new_crawler = Some s →
  page_turn isdecimal urljoin w max_articles max_pages k s
    = Done (inl (NoArticles, self')) →
  ∀ fuel, k ≤ fuel →
    crawl_all_pages isdecimal urljoin w max_articles max_pages fuel new_crawler
      = Done (k, NoArticles, self') ∧
    pages_processed (events self') = k - 1 ∧
    listings (events self') = seq 1 k ∧
    ¬ In (S k) (listings (events self')).
Proof.
  intros Hk Ht Hp fuel Hfuel.
  assert (Hrun : crawl_all_pages isdecimal urljoin w max_articles max_pages fuel
                   new_crawler = Done (k, NoArticles, self')).
  { unfold crawl_all_pages. replace k with (1 + (k - 1)) at 1 by lia.
    eapply turns_crawl_pages_from; [exact Ht| |lia].
    by replace (1 + (k - 1)) with k by lia. }
  split; [exact Hrun|].
  destruct (turns_progress _ _ _ _ _ _ Ht) as (e1 & P1 & H1 & H2).
  destruct (page_turn_Done max_articles max_pages k s)
    as (res & e2 & Hres & P2 & H3).
  rewrite Hp in Hres. injection Hres as <-. destruct H3 as [H3 H4].
  pose proof (progress_trans _ _ _ _ _ P1 P2) as P.
  apply progress_new_crawler in P as (-> & _).
  rewrite pages_processed_app, listings_app, H1, H2, H3, H4.
  assert (Hseq : seq 1 (k - 1) ++ [k] = seq 1 k).
  { destruct k as [|k']; [lia|].
    replace (S k' - 1) with k' by lia. by rewrite seq_S. }
  rewrite Hseq. split_and!; [lia|done|].
  rewrite in_seq. lia.
Qed.

(** The turn for a listing page that the world serves, with no limit set. *)
Lemma page_turn_served page_num page self :
  (∀ h, http_get w h (listing_url page_num) = ResponseText (Some page)) →
  page_turn isdecimal urljoin w None None page_num self =
  let self1 := emit [EvGet (listing_url page_num)] (emit [EvListing page_num] self) in
  match extract_article_links urljoin (visited_urls self) (Some page)
          (listing_url page_num) with
  | [] => Done (inl (NoArticles, self1))
  | (_ :: _) as links =>
      match article_loop isdecimal w None links self1 with
      | Done self2 => Done (inr (emit [EvSleep 2] self2))
      | Raised e => Raised e
      | Running => Running
      end
  end.
Proof.
  intros Hget. unfold page_turn, get_page_content.
  simpl get_page_content_loop. rewrite Hget. reflexivity.
Qed.

Lemma turns_unbounded (pages : nat → list node) n start self :
  (∀ j h, start ≤ j < start + n →
     http_get w h (listing_url j) = ResponseText (Some (pages j))) →
  (∀ j visited, start ≤ j < start + n →
     extract_article_links urljoin visited (Some (pages j)) (listing_url j) ≠ []) →
  ∃ s, turns isdecimal urljoin w None None n start self = Some s.
Proof.
  revert start self. induction n as [|n IH]; intros start self Hget Hlinks; simpl.
  { by exists self. }
  rewrite (page_turn_served start (pages start)) by (intros h; apply Hget; lia).
  cbv zeta.
  destruct (extract_article_links _ _ _ _) as [|c cs] eqn:El.
  { by destruct (Hlinks start (visited_urls self) ltac:(lia)). }
  destruct (article_loop_Done None (c :: cs)
              (emit [EvGet (listing_url start)] (emit [EvListing start] self)))
    as (self2 & evs & -> & _).
  apply IH.
  - intros j h Hj. apply Hget. lia.
  - intros j visited Hj. apply Hlinks. lia.
Qed.

(** C4: in a run whose turns for pages 1 to k-1 go on to the next page and
    whose turn for page k finds no link, [crawl_all_pages] ends at page k
    for that reason whenever it is given k turns or more, with k-1 pages
    completed, the listing pages 1 to k asked for and page k+1 never.
    With no limit set this is the run over every sequence of served listing
    pages of which page k is the first without candidates. *)
Theorem stops_at_first_empty_page k :
  1 < k →
  (∀ max_articles max_pages s self',
     turns isdecimal urljoin w max_articles max_pages (k - 1) 1 new_crawler = Some s →
     page_turn isdecimal urljoin w max_articles max_pages k s
       = Done (inl (NoArticles, self')) →
     ∀ fuel, k ≤ fuel →
       crawl_all_pages isdecimal urljoin w max_articles max_pages fuel new_crawler
         = Done (k, NoArticles, self') ∧
       pages_processed (events self') = k - 1 ∧
       listings (events self') = seq 1 k ∧
       ¬ In (S k) (listings (events self'))) ∧
  (∀ pages : nat → list node,
     (∀ j h, 1 ≤ j ≤ k →
        http_get w h (listing_url j) = ResponseText (Some (pages j))) →
     (∀ j visited, 1 ≤ j < k →
        extract_article_links urljoin visited (Some (pages j)) (listing_url j) ≠ []) →
     (∀ visited,
        extract_article_links urljoin visited (Some (pages k)) (listing_url k) = []) →
     ∀ fuel, k ≤ fuel →
     ∃ self',
       crawl_all_pages isdecimal urljoin w None None fuel new_crawler
         = Done (k, NoArticles, self') ∧
       pages_processed (events self') = k - 1 ∧
       listings (events self') = seq 1 k ∧
       ¬ In (S k) (listings (events self'))).
Proof.
  intros Hk. split.
  - intros max_articles max_pages s self' Ht Hp fuel Hfuel.
    apply (crawl_stops_at_empty_page _ _ _ s); [lia|done|done|done].
  - intros pages Hget Hlinks Hempty fuel Hfuel.
    destruct (turns_unbounded pages (k - 1) 1 new_crawler) as [s Hs].
    { intros j h Hj. apply Hget. lia. }
    { intros j visited Hj. apply Hlinks. lia. }
    eexists. eapply (crawl_stops_at_empty_page None None k s); [lia|exact Hs| |done].
    rewrite (page_turn_served k (pages k)) by (intros h; apply Hget; lia).
    cbv zeta. by rewrite Hempty.
Qed.

(** ** The article limit *)

Lemma article_limit_reached_Some m self :
  (0 < m)%Z →
  article_limit_reached (Some m) self
  = bool_decide (m ≤ Z.of_nat (length (articles self)))%Z.
Proof.
  intros Hm. unfold article_limit_reached.
  destruct (Z.eqb_spec m 0); [lia|]. simpl.
  case_bool_decide; lia.
Qed.

Lemma article_loop_bound m links self self' :
  (0 < m)%Z → (Z.of_nat (length (articles self)) ≤ m)%Z →
  article_loop isdecimal w (Some m) links self = Done self' →
  (Z.of_nat (length (articles self')) ≤ m)%Z.
Proof.
  intros Hm. revert self. induction links as [|info rest IH]; intros self Hle; simpl.
  { by intros [= <-]. }
  rewrite article_limit_reached_Some by done.
  case_bool_decide as Hlim; [by intros [= <-]|].
  destruct (crawl_article_Done info self)
    as (r & self1 & e1 & -> & _ & Ha & _).
  apply IH. destruct r; simpl; rewrite ?length_app, Ha; simpl; lia.
Qed.

Lemma page_turn_bound m max_pages page_num self res :
  (0 < m)%Z → (Z.of_nat (length (articles self)) ≤ m)%Z →
  page_turn isdecimal urljoin w (Some m) max_pages page_num self = Done res →
  (Z.of_nat (length (articles (match res with inl (_, s) => s | inr s => s end))) ≤ m)%Z.
Proof.
  intros Hm Hle. unfold page_turn.
  destruct (article_limit_reached _ _); [by intros [= <-]|].
  destruct (page_limit_reached _ _); [by intros [= <-]|].
  destruct (get_page_content _ _ _ _) as [html self1] eqn:Eg.
  apply get_page_content_spec in Eg as (evs & -> & _).
  destruct html; [|by intros [= <-]].
  destruct (extract_article_links _ _ _ _) as [|c cs]; [by intros [= <-]|].
  destruct (article_loop _ _ _ _ _) as [s| |] eqn:El; try done.
  intros [= <-]. simpl. by apply article_loop_bound in El.
Qed.

Lemma crawl_pages_from_bound m max_pages fuel page_num self k reason self' :
  (0 < m)%Z → (Z.of_nat (length (articles self)) ≤ m)%Z →
  crawl_pages_from isdecimal urljoin w (Some m) max_pages fuel page_num self
    = Done (k, reason, self') →
  (Z.of_nat (length (articles self')) ≤ m)%Z.
Proof.
  intros Hm. revert page_num self.
  induction fuel as [|fuel IH]; intros page_num self Hle; simpl; [done|].
  destruct (page_turn _ _ _ _ _ _ _) as [res| |] eqn:Et; try done.
  pose proof (page_turn_bound _ _ _ _ _ Hm Hle Et) as Hb.
  destruct res as [[r s]|s]; [by intros [= <- <- <-]|].
  by apply IH.
Qed.

Lemma crawl_article_success info self :
  url info ∉ visited_urls self → served w info →
  ∃ d self',
    crawl_article isdecimal w info self = Done (Some d, self') ∧
    articles self' = articles self ∧
    visited_urls self' = {[url info]} ∪ visited_urls self ∧
    events self' = events self ++ [EvVisit (url info); EvGet (url info); EvNow] ∧
    saved self' = saved self ∧
    dict_lookup (py "url") d = Some (url info).
Proof.
  intros Hv (doc & Hget & Hlen). unfold crawl_article.
  rewrite bool_decide_eq_false_2 by done.
  unfold get_page_content. simpl get_page_content_loop. rewrite Hget.
  destruct (extract_article_metadata_Some doc) as (rd & au & ->).
  destruct (extract_article_content (Some doc)) as [|c0 content] eqn:Ec;
    [simpl in Hlen; lia|].
  rewrite <- Ec. replace (negb _ || _) with false.
  2:{ rewrite Ec. simpl negb. rewrite orb_false_l. symmetry. by apply Nat.ltb_ge. }
  eexists _, _. split; [reflexivity|]. simpl. split_and!; try done.
  by rewrite <- !app_assoc.
Qed.

Lemma article_loop_fills m cs rest self :
  (0 < m)%Z →
  (Z.of_nat (length (articles self)) + Z.of_nat (length cs) = m)%Z →
  List.NoDup (map url cs) →
  (∀ c, In c cs → url c ∉ visited_urls self) →
  (∀ c, In c cs → served w c) →
  ∃ self' new evs,
    article_loop isdecimal w (Some m) (cs ++ rest) self = Done self' ∧
    articles self' = articles self ++ new ∧
    map (dict_lookup (py "url")) new = map (λ c, Some (url c)) cs ∧
    events self' = events self ++ evs ∧
    visits evs = map url cs ∧ forallb article_event evs = true.
Proof.
  intros Hm. revert self.
  induction cs as [|c cs IH]; intros self Hlen Hnd Hvis Hserved.
  - exists self, [], []. rewrite !app_nil_r. split_and!; try done.
    destruct rest as [|c rest]; [done|]. simpl.
    rewrite article_limit_reached_Some by done.
    rewrite bool_decide_eq_true_2; [done|]. simpl in Hlen. lia.
  - simpl app. simpl article_loop.
    rewrite article_limit_reached_Some by done.
    rewrite bool_decide_eq_false_2 by (simpl in Hlen; lia).
    destruct (crawl_article_success c self)
      as (d & self1 & -> & Ha & Hv1 & He & Hs & Hd);
      [apply Hvis; by left | apply Hserved; by left|].
    apply NoDup_cons_iff in Hnd as [Hc Hnd].
    edestruct (IH (emit [EvSleep 1]
                 {| articles := articles self1 ++ [d];
                    visited_urls := visited_urls self1;
                    events := events self1; saved := saved self1 |}))
      as (self' & new & evs & -> & Hnew & Hurls & Hevs & Hvisits & Hq).
    + simpl. rewrite length_app, Ha. simpl in *. lia.
    + exact Hnd.
    + intros c' Hc'. simpl. rewrite Hv1.
      intros [Heq%elem_of_singleton|Hin]%elem_of_union.
      * apply Hc. apply in_map_iff. by exists c'.
      * apply (Hvis c'); [by right|done].
    + intros c' Hc'. apply Hserved. by right.
    + exists self', (d :: new),
        ([EvVisit (url c); EvGet (url c); EvNow] ++ [EvSleep 1] ++ evs).
      simpl in *. split_and!; try done.
      * by rewrite Hnew, Ha, <- app_assoc.
      * by rewrite Hd, Hurls.
      * by rewrite Hevs, He, <- !app_assoc.
      * by rewrite Hvisits.
Qed.

(** C5: with a limit of [m] articles, the crawler never holds more than
    [m] records.  When listing page 1 is served and gives [m] candidates or
    more, of which the first [m] have different URLs and are all served
    and pass the length test, [crawl_all_pages] ends with exactly [m]
    records, those of the first [m] candidates: no later candidate is
    tried, and listing page 2 is never asked for. *)
Theorem article_limit_enforced (m : nat) :
  0 < m →
  (∀ max_pages fuel k reason self,
     crawl_all_pages isdecimal urljoin w (Some (Z.of_nat m)) max_pages fuel new_crawler
       = Done (k, reason, self) →
     length (articles self) ≤ m) ∧
  (∀ listing cands,
     (∀ h, http_get w h (listing_url 1) = ResponseText (Some listing)) →
     extract_article_links urljoin ∅ (Some listing) (listing_url 1) = cands →
     m ≤ length cands →
     List.NoDup (map url (take m cands)) →
     (∀ c, In c (take m cands) → served w c) →
     ∀ fuel, 2 ≤ fuel →
     ∃ self,
       crawl_all_pages isdecimal urljoin w (Some (Z.of_nat m)) None fuel new_crawler
         = Done (2, ArticleLimit, self) ∧
       length (articles self) = m ∧
       map (dict_lookup (py "url")) (articles self)
         = map (λ c, Some (url c)) (take m cands) ∧
       visits (events self) = map url (take m cands) ∧
       listings (events self) = [1]).
Proof.
  intros Hm. split.
  - intros max_pages fuel k reason self Hrun.
    apply crawl_pages_from_bound in Hrun; simpl; lia.
  - intros listing cands Hget Hcands Hlen Hnd Hserved fuel Hfuel.
    destruct (article_loop_fills (Z.of_nat m) (take m cands) (drop m cands)
                (emit [EvGet (listing_url 1)] (emit [EvListing 1] new_crawler)))
      as (self1 & new & evs & Hloop & Hnew & Hurls & Hevs & Hvisits & Hq);
      [lia| | done | set_solver | done |].
    { simpl. rewrite length_take. lia. }
    rewrite take_drop in Hloop. simpl in Hnew, Hevs.
    destruct (article_events_quiet _ Hq) as [Hq1 Hq2].
    exists (emit [EvSleep 2] self1).
    assert (Hlen1 : length (articles self1) = m).
    { rewrite Hnew. rewrite <- (length_map (dict_lookup (py "url")) new), Hurls.
      rewrite length_map, length_take. lia. }
    split_and!.
    + assert (Ht1 : page_turn isdecimal urljoin w (Some (Z.of_nat m)) None 1
                      new_crawler = Done (inr (emit [EvSleep 2] self1))).
      { unfold page_turn.
        rewrite article_limit_reached_Some by lia.
        rewrite bool_decide_eq_false_2 by (simpl; lia).
        simpl page_limit_reached. cbv iota.
        unfold get_page_content. simpl get_page_content_loop. rewrite Hget.
        simpl visited_urls. rewrite Hcands.
        destruct cands as [|c0 cands']; [simpl in Hlen; lia|].
        by rewrite Hloop. }
      assert (Ht2 : page_turn isdecimal urljoin w (Some (Z.of_nat m)) None 2
                      (emit [EvSleep 2] self1)
                    = Done (inl (ArticleLimit, emit [EvSleep 2] self1))).
      { unfold page_turn. rewrite article_limit_reached_Some by lia.
        rewrite bool_decide_eq_true_2; [done|]. simpl. rewrite Hlen1. lia. }
      unfold crawl_all_pages.
      apply (turns_crawl_pages_from _ _ 1 1 _ (emit [EvSleep 2] self1));
        [simpl; by rewrite Ht1 | exact Ht2 | lia].
    + done.
    + simpl. by rewrite Hnew.
    + simpl. rewrite Hevs, !visits_app. simpl. by rewrite Hvisits, app_nil_r.
    + simpl. rewrite Hevs, !listings_app. simpl. by rewrite Hq1.
Qed.

(** ** The persisted report *)

Lemma is_digit_digit n : is_digit (digit n) = true.
Proof.
  unfold is_digit, digit. apply andb_true_intro.
  assert (n mod 10 < 10)%N by (apply N.mod_upper_bound; lia).
  generalize dependent (n mod 10)%N. intros x Hx.
  split; apply N.leb_le; lia.
Qed.

Lemma num2_digits n : (n < 100)%N → num2 (digit (n / 10)) (digit n) = n.
Proof.
  intros Hn. unfold num2, digit.
  rewrite (N.mod_small (n / 10) 10) by (apply N.Div0.div_lt_upper_bound; lia).
  assert (Hr : (n mod 10 < 10)%N) by (apply N.mod_upper_bound; lia).
  pose proof (N.div_mod n 10 ltac:(lia)) as Hq.
  generalize dependent (n mod 10)%N. generalize dependent (n / 10)%N.
  intros q r Hr Hq. lia.
Qed.

Lemma isoformat_is_iso8601 dt : valid_datetime dt → is_iso8601 (isoformat dt) = true.
Proof.
  intros (Hy & Hm & Hd & Hh & Hi & Hs & Hu).
  unfold isoformat, pad4, pad2, pad6.
  change (py "-") with [45%N]. change (py "T") with [84%N].
  change (py ":") with [58%N]. change (py ".") with [46%N].
  assert (Hfrac : ∀ ds : list N, forallb is_digit ds = true →
    match (if (microsecond dt =? 0)%N then [] else [46%N] ++ ds) with
    | [] => true
    | dot :: ds => (dot =? 46)%N && nonempty ds && forallb is_digit ds
    end = true ∨ ds = []).
  { intros ds Hds. destruct (microsecond dt =? 0)%N; [by left|].
    destruct ds; [by right|]. left. simpl in *. done. }
  cbn [app is_iso8601 forallb].
  rewrite !is_digit_digit, !num2_digits by lia. cbn [andb].
  rewrite !N.eqb_refl. cbn [andb].
  repeat match goal with
  | |- context [(?a <=? ?b)%N] =>
      replace (a <=? b)%N with true by (symmetry; apply N.leb_le; lia)
  end.
  cbn [andb].
  destruct (Hfrac [digit (microsecond dt / 100000); digit (microsecond dt / 10000);
                   digit (microsecond dt / 1000); digit (microsecond dt / 100);
                   digit (microsecond dt / 10); digit (microsecond dt)])
    as [H|H]; [|exact H|discriminate].
  cbn [forallb]. by rewrite !is_digit_digit.
Qed.

Lemma save_to_json_Done self :
  ∃ self', save_to_json w self = Done self' ∧ articles self' = articles self ∧
    (can_write w (events self) = true →
       saved self' =
         Some {| total_articles := length (articles self);
                 crawl_date := isoformat (clock w (events self));
                 source_url := base_url;
                 report_articles := articles self |}) ∧
    (can_write w (events self) = false →
       self' = emit [EvSaveFailed] self).
Proof.
  unfold save_to_json, write_report.
  destruct (can_write w (events self)); eexists; split_and!; done.
Qed.

Lemma article_record_fields d :
  article_record w d →
  (∀ h, valid_datetime (clock w h)) →
  map fst d = [py "title"; py "url"; py "author"; py "release_date";
               py "content"; py "crawl_date"] ∧
  (∃ c, dict_lookup (py "content") d = Some c ∧ 100 ≤ length c) ∧
  (∃ ts, dict_lookup (py "crawl_date") d = Some ts ∧ is_iso8601 ts = true) ∧
  dict_lookup (py "crawl_timestamp") d = None.
Proof.
  intros (t & u & a & r & c & h & -> & Hlen) Hclock. split_and!.
  - done.
  - by exists c.
  - exists (isoformat (clock w h)). split; [done|].
    by apply isoformat_is_iso8601.
  - done.
Qed.

(** C2 as the code has it: when the clock gives valid dates, every record
    of the report that a run from a new crawler writes has the six fields
    [title], [url], [author], [release_date], [content] and [crawl_date]
    (none is named [crawl_timestamp]), its [content] has at least 100
    characters, and its [crawl_date] is an ISO-8601 string. *)
Theorem persisted_records max_articles max_pages fuel self r :
  (∀ h, valid_datetime (clock w h)) →
  run isdecimal urljoin w max_articles max_pages fuel new_crawler = Done self →
  saved self = Some r →
  report_articles r = articles self ∧
  total_articles r = length (report_articles r) ∧
  is_iso8601 (crawl_date r) = true ∧
  Forall (λ d,
      map fst d = [py "title"; py "url"; py "author"; py "release_date";
                   py "content"; py "crawl_date"] ∧
      (∃ c, dict_lookup (py "content") d = Some c ∧ 100 ≤ length c) ∧
      (∃ ts, dict_lookup (py "crawl_date") d = Some ts ∧ is_iso8601 ts = true) ∧
      dict_lookup (py "crawl_timestamp") d = None)
    (report_articles r).
Proof.
  intros Hclock Hrun Hsaved. unfold run, crawl_all_pages in Hrun.
  destruct (crawl_pages_from _ _ _ _ _ _ _ _) as [[[k reason] s]| |] eqn:Ec;
    try done.
  apply crawl_pages_from_progress in Ec as (evs & P).
  apply progress_new_crawler in P as (_ & _ & _ & Hrec & Hnone).
  destruct (save_to_json_Done s) as (s' & Hs & Ha & Hok & Hfail).
  rewrite Hs in Hrun. injection Hrun as ->.
  destruct (can_write w (events s)) eqn:Ew.
  - rewrite (Hok eq_refl) in Hsaved. injection Hsaved as <-. simpl.
    split_and!; try done.
    + by apply isoformat_is_iso8601.
    + eapply Forall_impl; [exact Hrec|]. intros d Hd.
      by apply article_record_fields.
  - rewrite (Hfail eq_refl) in Hsaved. simpl in Hsaved. congruence.
Qed.

(** ** Failures and the exit status *)

Variable int : list N → option Z.

Lemma run_never_raises max_articles max_pages fuel self e :
  run isdecimal urljoin w max_articles max_pages fuel self ≠ Raised e.
Proof.
  unfold run, crawl_all_pages.
  pose proof (crawl_pages_from_never_raises max_articles max_pages fuel 1 self) as Hc.
  destruct (crawl_pages_from _ _ _ _ _ _ _ _) as [[[k reason] s]|e'|]; try done.
  - destruct (save_to_json_Done s) as (s' & -> & _). done.
  - by destruct (Hc e').
Qed.

Lemma exit_status_main fuel argv :
  exit_status (main isdecimal urljoin int w fuel argv) ≠ Some 1%Z.
Proof.
  unfold main. destruct (parse_args int argv) as [max_articles max_pages].
  pose proof (run_never_raises max_articles max_pages fuel new_crawler) as Hr.
  destruct (run _ _ _ _ _ _ _) as [s|e|]; simpl; try done.
  by destruct (Hr e).
Qed.

(** C8 as the code has it: no exception leaves [main], so the exit status
    is never 1.  A failed write is caught in [save_to_json], which notes
    the failure and returns; nothing is saved.  An article for which
    [crawl_article] returns nothing is passed over and the loop goes on
    with the next link.  A listing page that cannot be fetched ends the
    page loop with the records unchanged. *)
Theorem failures_are_not_fatal :
  (∀ fuel argv,
     exit_status (main isdecimal urljoin int w fuel argv) ≠ Some 1%Z) ∧
  (∀ self,
     can_write w (events self) = false →
     save_to_json w self = Done (emit [EvSaveFailed] self)) ∧
  (∀ max_articles info rest self self1,
     article_limit_reached max_articles self = false →
     crawl_article isdecimal w info self = Done (None, self1) →
     article_loop isdecimal w max_articles (info :: rest) self
     = article_loop isdecimal w max_articles rest (emit [EvSleep 1] self1)) ∧
  (∀ max_articles max_pages fuel page_num self self1,
     article_limit_reached max_articles self = false →
     page_limit_reached max_pages page_num = false →
     get_page_content w (listing_url page_num) 3 (emit [EvListing page_num] self)
       = (None, self1) →
     crawl_pages_from isdecimal urljoin w max_articles max_pages (S fuel) page_num self
       = Done (page_num, ListingFailed, self1)
     ∧ articles self1 = articles self).
Proof.
  split_and!.
  - apply exit_status_main.
  - intros self Hw. destruct (save_to_json_Done self) as (s' & -> & _ & _ & Hf).
    by rewrite (Hf Hw).
  - intros max_articles info rest self self1 Hlim Hc. simpl.
    by rewrite Hlim, Hc.
  - intros max_articles max_pages fuel page_num self self1 Hlim Hpages Hg.
    simpl. unfold page_turn. rewrite Hlim, Hpages, Hg. split; [done|].
    by apply get_page_content_spec in Hg as (evs & -> & _).
Qed.

(** ** Command line *)

Lemma flag_value_absent flag argv :
  mem_str flag argv = false → flag_value int flag argv = None.
Proof. intros H. unfold flag_value. by rewrite H. Qed.

Lemma flag_value_bad flag argv i :
  index flag argv = Some i →
  (argv !! (i + 1) = None ∨ ∃ token, argv !! (i + 1) = Some token ∧ int token = None) →
  flag_value int flag argv = None.
Proof.
  intros Hi Hbad. unfold flag_value. rewrite Hi.
  destruct (mem_str flag argv); [|done].
  destruct (i + 1 <? length argv); [|done].
  destruct Hbad as [->|(token & -> & ->)]; done.
Qed.

(** C10: when the token after [--max] (after [--pages]) is missing or is
    refused by [int], the flag leaves [None] in [max_articles] (in
    [max_pages]), as when the flag is not given; [main] then runs the
    crawler with that limit unset, and no exception leaves it. *)
Theorem bad_flag_value_ignored argv :
  (∀ i,
     index (py "--max") argv = Some i →
     (argv !! (i + 1) = None
      ∨ ∃ token, argv !! (i + 1) = Some token ∧ int token = None) →
     (parse_args int argv).1 = None ∧
     ∀ fuel,
       main isdecimal urljoin int w fuel argv
       = run isdecimal urljoin w None (parse_args int argv).2 fuel new_crawler
       ∧ exit_status (main isdecimal urljoin int w fuel argv) ≠ Some 1%Z) ∧
  (∀ i,
     index (py "--pages") argv = Some i →
     (argv !! (i + 1) = None
      ∨ ∃ token, argv !! (i + 1) = Some token ∧ int token = None) →
     (parse_args int argv).2 = None ∧
     ∀ fuel,
       main isdecimal urljoin int w fuel argv
       = run isdecimal urljoin w (parse_args int argv).1 None fuel new_crawler
       ∧ exit_status (main isdecimal urljoin int w fuel argv) ≠ Some 1%Z) ∧
  (mem_str (py "--max") argv = false → (parse_args int argv).1 = None) ∧
  (mem_str (py "--pages") argv = false → (parse_args int argv).2 = None).
Proof.
  split_and!.
  - intros i Hi Hbad.
    assert (H1 : (parse_args int argv).1 = None).
    { unfold parse_args. destruct (1 <? length argv); [|done].
      simpl. by eapply flag_value_bad. }
    split; [exact H1|]. intros fuel. split; [|apply exit_status_main].
    unfold main. destruct (parse_args int argv) as [a b]. simpl in *. by subst.
  - intros i Hi Hbad.
    assert (H2 : (parse_args int argv).2 = None).
    { unfold parse_args. destruct (1 <? length argv); [|done].
      simpl. by eapply flag_value_bad. }
    split; [exact H2|]. intros fuel. split; [|apply exit_status_main].
    unfold main. destruct (parse_args int argv) as [a b]. simpl in *. by subst.
  - intros H. unfold parse_args. destruct (1 <? length argv); [|done].
    simpl. by apply flag_value_absent.
  - intros H. unfold parse_args. destruct (1 <? length argv); [|done].
    simpl. by apply flag_value_absent.
Qed.

(** ** Metadata extractor *)

Lemma extract_article_metadata_defaults :
  extract_article_metadata isdecimal (Some [])
  = MetaDict [(py "release_date", []); (py "author", [])].
Proof. reflexivity. Qed.

(** C7 fails on empty markup: for [None] (or the empty string) the
    function returns the pair of two empty dictionaries of line 152, not a
    dictionary with the keys [release_date] and [author]. *)
Theorem extract_article_metadata_empty_markup :
  extract_article_metadata isdecimal None = MetaPair [] [] ∧
  ¬ ∃ d, extract_article_metadata isdecimal None = MetaDict d.
Proof. split; [reflexivity|]. intros [d Hd]. discriminate. Qed.

End Run.

(** * The properties on the small site *)

(** C9 on a text of two lines, of 20 and of 21 characters: one line is
    kept, and it is the line of the returned text. *)
Lemma normalize_content_keeps_long_lines_witness :
  let content := py "Security advisory 01" ++ [nl] ++ py "A line of twenty-one." in
  cleaned_lines (split nl (collapse_whitespace content)) ≠ [] ∧
  split nl (normalize_content content)
  = cleaned_lines (split nl (collapse_whitespace content)).
Proof.
  intros content.
  assert (H : cleaned_lines (split nl (collapse_whitespace content)) ≠ [])
    by (vm_compute; discriminate).
  split; [exact H|].
  exact (proj2 (proj2 (proj2 (proj2 (normalize_content_keeps_long_lines content)))) H).
Defined.

(** C9 fails at 20: a line of exactly 20 characters is dropped. *)
Lemma line_of_20_is_dropped :
  let line := py "Security advisory 01" in
  let content := line ++ [nl] ++ py "A line of twenty-one." in
  length (strip line) = 20 ∧
  In line (split nl (collapse_whitespace content)) ∧
  ¬ In (strip line) (split nl (normalize_content content)) ∧
  extract_article_content (Some (page_of_text content)) = py "A line of twenty-one.".
Proof.
  split_and!; [reflexivity | by left | | reflexivity].
  vm_compute. intros [H|[]]. discriminate.
Qed.

(** C6 fails on the text alone: the text extracted from the page of an
    alert is not empty, and the extractor run on that text, as markup with
    no tag, returns the empty string. *)
Lemma extractor_on_bare_text :
  let text := extract_article_content (Some alert_page) in
  text = py "The agency has released an advisory describing a vulnerability that affects industrial control systems worldwide." ∧
  extract_article_content (Some (bare_text text)) = [] ∧
  extract_article_content (Some (bare_text text)) ≠ text.
Proof. split_and!; [reflexivity | reflexivity | discriminate]. Qed.

(** C1 on two listing pages: links inside a [div] of class [news-list]
    (the heuristic tier gives the result) and the same links in a plain
    list (the path-pattern tier gives it). *)
Lemma extract_article_links_sound_witness :
  (let found := extract_article_links urljoin_absolute ∅ (Some (framed_listing 2)) (listing_url 1) in
   (∀ c, In c found →
      contains (py "cisa.gov") (url c) = true ∧
      contains (py "/news-events/news/") (url c) = true ∧
      endswith (py ".pdf") (url c) = false ∧
      endswith (py ".doc") (url c) = false ∧
      endswith (py ".docx") (url c) = false ∧
      url c ∉ (∅ : gset (list N))) ∧
   List.NoDup (map url found)) ∧
  (let found := extract_article_links urljoin_absolute ∅ (Some (alert_listing 2)) (listing_url 1) in
   found = path_pattern_loop urljoin_absolute (listing_url 1) (article_links (alert_listing 2)) ∧
   ∀ c, In c found → from_anchor urljoin_absolute (listing_url 1) (article_links (alert_listing 2)) c).
Proof.
  split.
  - apply (proj1 (proj2 (extract_article_links_sound urljoin_absolute ∅
                          (framed_listing 2) (listing_url 1)))).
    reflexivity.
  - apply (proj2 (proj2 (extract_article_links_sound urljoin_absolute ∅
                          (alert_listing 2) (listing_url 1)))).
    vm_compute. discriminate.
Defined.

Lemma site_clock_valid n writable h : valid_datetime (clock (site n writable) h).
Proof. unfold valid_datetime. simpl. lia. Qed.

(** C2 on the site with one alert: the run writes a report of one record. *)
Lemma persisted_records_witness :
  ∃ self r,
    (∀ h, valid_datetime (clock (site 1 true) h)) ∧
    run is_digit urljoin_absolute (site 1 true) None None 3 new_crawler = Done self ∧
    saved self = Some r ∧
    length (report_articles r) = 1 ∧
    Forall (λ d,
        map fst d = [py "title"; py "url"; py "author"; py "release_date";
                     py "content"; py "crawl_date"] ∧
        (∃ c, dict_lookup (py "content") d = Some c ∧ 100 ≤ length c) ∧
        (∃ ts, dict_lookup (py "crawl_date") d = Some ts ∧ is_iso8601 ts = true) ∧
        dict_lookup (py "crawl_timestamp") d = None)
      (report_articles r).
Proof.
  pose (o := run is_digit urljoin_absolute (site 1 true) None None 3 new_crawler).
  assert (Ho : run is_digit urljoin_absolute (site 1 true) None None 3 new_crawler = o)
    by reflexivity.
  vm_compute in o.
  match eval unfold o in o with
  | Done ?s =>
      match eval vm_compute in (saved s) with
      | Some ?r =>
          exists s, r;
          assert (Hs : saved s = Some r) by (vm_compute; reflexivity);
          split; [apply site_clock_valid|];
          split; [exact Ho|]; split; [exact Hs|];
          split; [vm_compute; reflexivity|];
          exact (proj2 (proj2 (proj2
                   (persisted_records is_digit urljoin_absolute (site 1 true)
                      None None 3 s r (site_clock_valid 1 true) Ho Hs))))
      end
  end.
Defined.

(** C2 fails on the name of the field: the record of the report written
    for the site with one alert has a [crawl_date] and no
    [crawl_timestamp]. *)
Lemma record_has_no_crawl_timestamp :
  match run is_digit urljoin_absolute (site 1 true) None None 3 new_crawler with
  | Done self =>
      match saved self with
      | Some r =>
          match report_articles r with
          | [d] =>
              map fst d = [py "title"; py "url"; py "author"; py "release_date";
                           py "content"; py "crawl_date"] ∧
              dict_lookup (py "crawl_timestamp") d = None
          | _ => False
          end
      | None => False
      end
  | _ => False
  end.
Proof. vm_compute. split; reflexivity. Qed.

(** C8 fails on the write: on the site with one alert and a file that
    cannot be written, the run keeps its record, notes the failed write,
    saves nothing, and [main] returns: the exit status is 0. *)
Lemma failed_write_exits_with_0 :
  match main is_digit urljoin_absolute int_ascii (site 1 false) 3 [script] with
  | Done self =>
      last (events self) = Some EvSaveFailed ∧ saved self = None ∧
      length (articles self) = 1
  | _ => False
  end ∧
  exit_status (main is_digit urljoin_absolute int_ascii (site 1 false) 3 [script])
  = Some 0%Z.
Proof. vm_compute. split_and!; reflexivity. Qed.

(** C3 on the site: an alert already visited, an alert not yet visited,
    and a whole run over two alerts. *)
Lemma visited_once_witness :
  ((url first_alert ∈ visited_urls seen_first) ∧
   crawl_article is_digit (site 1 true) first_alert seen_first = Done (None, seen_first)) ∧
  ((url first_alert ∉ visited_urls new_crawler) ∧
   ∃ r self' evs,
     crawl_article is_digit (site 1 true) first_alert new_crawler = Done (r, self') ∧
     visited_urls self' = {[url first_alert]} ∪ visited_urls new_crawler ∧
     events self' = events new_crawler
                    ++ EvVisit (url first_alert) :: EvGet (url first_alert) :: evs ∧
     visits evs = []) ∧
  (∃ self,
     crawl_all_pages is_digit urljoin_absolute (site 2 true) None None 3 new_crawler
       = Done (2, NoArticles, self) ∧
     List.NoDup (visits (events self)) ∧
     ∀ u, u ∈ visited_urls self ↔ In u (visits (events self))).
Proof.
  pose proof (visited_once is_digit urljoin_absolute (site 1 true)) as (H1 & H2 & _ & _).
  pose proof (visited_once is_digit urljoin_absolute (site 2 true)) as (_ & _ & _ & H4).
  assert (Hin : url first_alert ∈ visited_urls seen_first)
    by (unfold seen_first, first_alert; simpl; by apply elem_of_singleton_2).
  assert (Hout : url first_alert ∉ visited_urls new_crawler)
    by (unfold new_crawler; simpl; apply not_elem_of_empty).
  split; [exact (conj Hin (H1 _ _ Hin))|].
  split; [exact (conj Hout (H2 _ _ Hout))|].
  pose (o := crawl_all_pages is_digit urljoin_absolute (site 2 true) None None 3 new_crawler).
  assert (Ho : crawl_all_pages is_digit urljoin_absolute (site 2 true) None None 3
                 new_crawler = o) by reflexivity.
  vm_compute in o.
  match eval unfold o in o with
  | Done (_, _, ?s) => exists s; exact (conj Ho (H4 _ _ _ _ _ _ Ho))
  end.
Defined.

(** C4 on the site with two alerts: page 2 is the first empty page. *)
Lemma stops_at_first_empty_page_witness :
  1 < 2 ∧ 2 ≤ 5 ∧
  ∃ self',
    crawl_all_pages is_digit urljoin_absolute (site 2 true) None None 5 new_crawler
      = Done (2, NoArticles, self') ∧
    pages_processed (events self') = 2 - 1 ∧
    listings (events self') = seq 1 2 ∧
    ¬ In 3 (listings (events self')).
Proof.
  assert (H12 : 1 < 2) by lia. assert (H25 : 2 ≤ 5) by lia.
  split; [exact H12|]. split; [exact H25|].
  apply (proj2 (stops_at_first_empty_page is_digit urljoin_absolute (site 2 true) 2 H12)
           (λ j, match j with 1 => alert_listing 2 | _ => empty_page end)).
  - intros j h Hj. destruct j as [|[|[|j]]]; [lia|reflexivity|reflexivity|lia].
  - intros j visited Hj. destruct j as [|[|j]]; [lia| |lia].
    vm_compute. discriminate.
  - intros visited. reflexivity.
  - exact H25.
Defined.

Lemma eqb_str_eq a b : eqb_str a b = true ↔ a = b.
Proof.
  revert b. induction a as [|x a IH]; intros [|y b]; simpl; try done.
  rewrite andb_true_iff, N.eqb_eq, IH. split; [by intros [-> ->]|by intros [= -> ->]].
Qed.

Lemma nodupb_NoDup l : nodupb l = true → List.NoDup l.
Proof.
  induction l as [|x r IH]; simpl; [constructor|].
  intros [Hx Hr]%andb_prop. constructor; [|by apply IH].
  intros Hin. apply negb_true_iff in Hx.
  assert (mem_str x r = true); [|congruence].
  unfold mem_str. apply existsb_exists. exists x. split; [done|].
  by apply eqb_str_eq.
Qed.

Lemma site_serves_alerts n writable c :
  contains (py "/news-events/news/") (url c) = true →
  eqb_str (url c) (listing_url 1) = false →
  served (site n writable) c.
Proof.
  intros H1 H2. exists alert_page. split.
  - intros h. simpl. by rewrite H2, H1.
  - vm_compute. lia.
Qed.

(** C5 on the scenario of the specification: a limit of 5 and a first
    listing page with 10 alerts. *)
Lemma article_limit_enforced_witness :
  let cands := extract_article_links urljoin_absolute ∅ (Some (alert_listing 10)) (listing_url 1) in
  length cands = 10 ∧
  ∃ self,
    crawl_all_pages is_digit urljoin_absolute (site 10 true) (Some (Z.of_nat 5)) None 2 new_crawler
      = Done (2, ArticleLimit, self) ∧
    length (articles self) = 5 ∧
    map (dict_lookup (py "url")) (articles self)
      = map (λ c, Some (url c)) (take 5 cands) ∧
    visits (events self) = map url (take 5 cands) ∧
    listings (events self) = [1].
Proof.
  intros cands. split; [reflexivity|].
  assert (H5 : 0 < 5) by lia.
  apply (proj2 (article_limit_enforced is_digit urljoin_absolute (site 10 true) 5 H5)
           (alert_listing 10) cands).
  - intros h. reflexivity.
  - reflexivity.
  - vm_compute. lia.
  - apply nodupb_NoDup. vm_compute. reflexivity.
  - intros c Hc. apply site_serves_alerts.
    + vm_compute in Hc. decompose [or] Hc; subst; try reflexivity. done.
    + vm_compute in Hc. decompose [or] Hc; subst; try reflexivity. done.
  - lia.
Defined.

(** C8 on a file that cannot be written, an article that gives nothing,
    and a listing page that cannot be fetched. *)
Lemma failures_are_not_fatal_witness :
  (can_write (site 1 false) (events new_crawler) = false ∧
   save_to_json (site 1 false) new_crawler = Done (emit [EvSaveFailed] new_crawler)) ∧
  (article_limit_reached None seen_first = false ∧
   crawl_article is_digit (site 1 false) first_alert seen_first = Done (None, seen_first) ∧
   article_loop is_digit (site 1 false) None [first_alert] seen_first
   = article_loop is_digit (site 1 false) None [] (emit [EvSleep 1] seen_first)) ∧
  (∃ self1,
     get_page_content offline (listing_url 1) 3 (emit [EvListing 1] new_crawler)
       = (None, self1) ∧
     crawl_pages_from is_digit urljoin_absolute offline None None 1 1 new_crawler
       = Done (1, ListingFailed, self1) ∧ articles self1 = articles new_crawler).
Proof.
  pose proof (failures_are_not_fatal is_digit urljoin_absolute (site 1 false) int_ascii)
    as (_ & H2 & H3 & _).
  pose proof (failures_are_not_fatal is_digit urljoin_absolute offline int_ascii)
    as (_ & _ & _ & H4).
  assert (Hw : can_write (site 1 false) (events new_crawler) = false) by reflexivity.
  assert (Hl : article_limit_reached None seen_first = false) by reflexivity.
  assert (Hc : crawl_article is_digit (site 1 false) first_alert seen_first
               = Done (None, seen_first)) by (vm_compute; reflexivity).
  split; [exact (conj Hw (H2 _ Hw))|].
  split; [exact (conj Hl (conj Hc (H3 None first_alert [] seen_first seen_first Hl Hc)))|].
  eexists. 
  assert (Hg : get_page_content offline (listing_url 1) 3 (emit [EvListing 1] new_crawler)
     = (None, emit [EvGet (listing_url 1); EvSleep 5; EvGet (listing_url 1); EvSleep 5;
                    EvGet (listing_url 1)] (emit [EvListing 1] new_crawler)))
    by reflexivity.
  split; [exact Hg|].
  exact (H4 None None 0 1 new_crawler _ eq_refl eq_refl Hg).
Defined.

(** C10 on [cisa_crawler.py --max five --pages]: the token after [--max]
    is no integer and the token after [--pages] is missing. *)
Lemma bad_flag_value_ignored_witness :
  let argv := [script; py "--max"; py "five"; py "--pages"] in
  (index (py "--max") argv = Some 1 ∧ argv !! 2 = Some (py "five") ∧
   int_ascii (py "five") = None ∧
   (parse_args int_ascii argv).1 = None) ∧
  (index (py "--pages") argv = Some 3 ∧ argv !! 4 = None ∧
   (parse_args int_ascii argv).2 = None) ∧
  main is_digit urljoin_absolute int_ascii (site 1 true) 3 argv
  = run is_digit urljoin_absolute (site 1 true) None None 3 new_crawler.
Proof.
  intros argv.
  pose proof (bad_flag_value_ignored is_digit urljoin_absolute (site 1 true) int_ascii argv)
    as (H1 & H2 & _).
  assert (Hi1 : index (py "--max") argv = Some 1) by reflexivity.
  assert (Hi2 : index (py "--pages") argv = Some 3) by reflexivity.
  assert (Ht1 : argv !! (1 + 1) = Some (py "five")) by reflexivity.
  assert (Hn1 : int_ascii (py "five") = None) by reflexivity.
  assert (Ht2 : argv !! (3 + 1) = None) by reflexivity.
  destruct (H1 1 Hi1 (or_intror (ex_intro _ _ (conj Ht1 Hn1)))) as [Hmax Hmain].
  destruct (H2 3 Hi2 (or_introl Ht2)) as [Hpages _].
  split; [exact (conj Hi1 (conj Ht1 (conj Hn1 Hmax)))|].
  split; [exact (conj Hi2 (conj Ht2 Hpages))|].
  destruct (Hmain 3) as [Hm _]. rewrite Hm. by rewrite Hpages.
Defined.

(** * Further properties *)

(** ** The fetcher *)

Section Fetch.

Variable w : world.

Lemma attempt_history_S h url j :
  attempt_history (h ++ [EvGet url; EvSleep 5]) url j = attempt_history h url (S j).
Proof. unfold attempt_history. simpl. by rewrite <- app_assoc. Qed.

Lemma attempt_history_0 h url : attempt_history h url 0 = h.
Proof. unfold attempt_history. simpl. by rewrite app_nil_r. Qed.

Lemma get_page_content_loop_answer url max_retries remaining h i text :
  remaining ≤ max_retries → i < remaining →
  (∀ j, j < i → http_get w (attempt_history h url j) url = RequestException) →
  http_get w (attempt_history h url i) url = ResponseText text →
  get_page_content_loop w url max_retries remaining h = (text, fetch_trace url i).
Proof.
  revert h i. induction remaining as [|r IH]; intros h i Hle Hi Hfail Hans; [lia|].
  simpl get_page_content_loop. destruct i as [|i].
  - rewrite attempt_history_0 in Hans. by rewrite Hans.
  - pose proof (Hfail 0 ltac:(lia)) as H0. rewrite attempt_history_0 in H0.
    rewrite H0.
    destruct (Nat.ltb_spec (max_retries - S r) (max_retries - 1)); [|lia].
    rewrite (IH (h ++ [EvGet url; EvSleep 5]) i); [done|lia|lia| |].
    + intros j Hj. rewrite attempt_history_S. apply Hfail. lia.
    + by rewrite attempt_history_S.
Qed.

Lemma get_page_content_loop_exhausted url max_retries remaining h :
  remaining ≤ max_retries →
  (∀ j, j < remaining → http_get w (attempt_history h url j) url = RequestException) →
  get_page_content_loop w url max_retries remaining h
  = (None, match remaining with O => [] | S r => fetch_trace url r end).
Proof.
  revert h. induction remaining as [|r IH]; intros h Hle Hfail; [done|].
  simpl get_page_content_loop.
  pose proof (Hfail 0 ltac:(lia)) as H0. rewrite attempt_history_0 in H0.
  rewrite H0.
  destruct (Nat.ltb_spec (max_retries - S r) (max_retries - 1)).
  - rewrite (IH (h ++ [EvGet url; EvSleep 5])); [|lia|].
    + destruct r; [lia|]. done.
    + intros j Hj. rewrite attempt_history_S. apply Hfail. lia.
  - assert (r = 0) as -> by lia. done.
Qed.

(** X1: The fetcher returns the first answer: when the attempts before the one
    of index [i] raise and that one is answered, [get_page_content] returns
    the text of the answer, an empty text included, after [i+1] requests
    and [i] pauses of 5 seconds, and asks no more. *)
Theorem get_page_content_first_answer url max_retries self i text :
  i < max_retries →
  (∀ j, j < i →
     http_get w (attempt_history (events self) url j) url = RequestException) →
  http_get w (attempt_history (events self) url i) url = ResponseText text →
  get_page_content w url max_retries self = (text, emit (fetch_trace url i) self).
Proof.
  intros Hi Hfail Hans. unfold get_page_content.
  by rewrite (get_page_content_loop_answer url max_retries max_retries
                (events self) i text).
Qed.

(** X2: When every attempt raises, [get_page_content] returns [None] after
    exactly [max_retries] requests with a pause of 5 seconds between two
    of them and none after the last; with [max_retries = 0] it asks
    nothing. *)
Theorem get_page_content_gives_up url max_retries self :
  (∀ j, j < max_retries →
     http_get w (attempt_history (events self) url j) url = RequestException) →
  get_page_content w url max_retries self
  = (None, emit (match max_retries with O => [] | S r => fetch_trace url r end) self).
Proof.
  intros Hfail. unfold get_page_content.
  by rewrite (get_page_content_loop_exhausted url max_retries max_retries
                (events self)).
Qed.

Lemma get_page_content_loop_shape url max_retries remaining h :
  0 < remaining → remaining ≤ max_retries →
  ∃ i, i < remaining ∧
    (get_page_content_loop w url max_retries remaining h).2 = fetch_trace url i.
Proof.
  revert h. induction remaining as [|r IH]; intros h Hpos Hle; [lia|].
  simpl get_page_content_loop.
  destruct (http_get w h url); [|exists 0; split; [lia|done]].
  destruct (Nat.ltb_spec (max_retries - S r) (max_retries - 1)).
  - destruct (IH (h ++ [EvGet url; EvSleep 5])) as (i & Hi & E); [lia|lia|].
    destruct (get_page_content_loop _ _ _ _ _) as [t evs]. simpl in *.
    exists (S i). split; [lia|]. by rewrite E.
  - exists 0. split; [lia|done].
Qed.

(** X3: Whatever the network does, a fetch makes at least one request and at
    most [max_retries], all for the same URL, with a pause of 5 seconds
    after each of them but the last. *)
Theorem get_page_content_requests url max_retries self :
  0 < max_retries →
  ∃ i, i < max_retries ∧
    (get_page_content w url max_retries self).2 = emit (fetch_trace url i) self.
Proof.
  intros Hpos. unfold get_page_content.
  destruct (get_page_content_loop_shape url max_retries max_retries (events self))
    as (i & Hi & E); [done|lia|].
  destruct (get_page_content_loop _ _ _ _ _) as [r evs]. simpl in *.
  exists i. by rewrite E.
Qed.

End Fetch.

(** ** Listing URLs *)

Lemma digits_of_uint_range d c :
  In c (digits_of_uint d) → (48 ≤ c ≤ 57)%N.
Proof.
  induction d; simpl; try done; intros [<-|H]; try lia; by apply IHd.
Qed.

Lemma digits_of_uint_inj d d' :
  digits_of_uint d = digits_of_uint d' → d = d'.
Proof.
  revert d'. induction d; intros []; simpl; intros H; try discriminate;
    try reflexivity; injection H as H; f_equal; by apply IHd.
Qed.

(** X4: Different listing pages have different URLs: the page loop never asks
    for the same URL under two page numbers. *)
Theorem listing_url_distinct a b : a ≠ b → listing_url a ≠ listing_url b.
Proof.
  unfold listing_url. intros Hab H. apply Hab.
  apply app_inv_head, app_inv_head, digits_of_uint_inj in H.
  by apply DecimalNat.Unsigned.to_uint_inj.
Qed.

Lemma contains_after_listing_prefix ds :
  contains (py "/news-events/news/") (base_url ++ py "?page=" ++ ds)
  = contains (py "/news-events/news/") ds.
Proof. reflexivity. Qed.

Lemma contains_slash_digits p ds :
  (∀ c, In c ds → (48 ≤ c ≤ 57)%N) →
  contains (47%N :: p) ds = false.
Proof.
  induction ds as [|d r IH]; intros H; [reflexivity|].
  simpl. rewrite IH by (intros c Hc; apply H; by right).
  destruct (N.eqb_spec 47 d) as [<-|_]; [|done].
  specialize (H 47%N (or_introl eq_refl)). lia.
Qed.

(** X5: No listing URL passes [is_article_url]: the heuristic tier never
    proposes a listing page as an article. *)
Theorem listing_url_is_no_article page_num :
  is_article_url (listing_url page_num) = false.
Proof.
  unfold is_article_url, listing_url.
  rewrite contains_after_listing_prefix.
  change (py "/news-events/news/") with (47%N :: py "news-events/news/").
  rewrite contains_slash_digits; [|apply digits_of_uint_range].
  by rewrite andb_false_r.
Qed.

(** ** [extract_title] *)

Lemma title_loop_Some elems t :
  title_loop elems = Some t →
  long_enough t = true ∧ ∃ e, In e elems ∧ t = get_text_strip [] e.
Proof.
  induction elems as [|e rest IH]; simpl; [done|].
  destruct (long_enough (get_text_strip [] e)) eqn:E.
  - intros [= <-]. split; [done|]. exists e. split; [by left|done].
  - intros (? & e' & ? & ?)%IH. split; [done|]. exists e'. split; [by right|done].
Qed.

Lemma long_enough_length t : long_enough t = true → 10 < length t.
Proof. intros [_ H%Nat.ltb_lt]%andb_prop. done. Qed.

(** X6: A title returned by [extract_title] is longer than 10 characters and
    is the stripped text of the link, of a heading below the parent, or of
    the first element below the parent whose class names a title; the text
    of the link wins whenever it is longer than 10 characters. *)
Theorem extract_title_sound link_element parent_element :
  (∀ t, extract_title link_element parent_element = Some t →
     10 < length t ∧
     (t = get_text_strip [] link_element
      ∨ (∃ e, In e (below parent_element) ∧ has_tag_in heading_tags e = true
              ∧ t = get_text_strip [] e)
      ∨ (∃ e, List.find class_matches_title (below parent_element) = Some e
              ∧ t = get_text_strip [] e))) ∧
  (10 < length (get_text_strip [] link_element) →
   extract_title link_element parent_element
   = Some (get_text_strip [] link_element)).
Proof.
  unfold extract_title. split.
  - intros t.
    destruct (long_enough (get_text_strip [] link_element)) eqn:E1.
    { intros [= <-]. split; [by apply long_enough_length|by left]. }
    destruct (title_loop _) as [t'|] eqn:E2.
    { intros [= <-]. apply title_loop_Some in E2 as (Hl & e & [He Ht]%filter_In & ->).
      split; [by apply long_enough_length|]. right. left. by exists e. }
    destruct (List.find _ _) as [e|] eqn:E3; [|done].
    destruct (long_enough (get_text_strip [] e)) eqn:E4; [|done].
    intros [= <-]. split; [by apply long_enough_length|]. right. right. by exists e.
  - intros Hlen. unfold long_enough.
    destruct (get_text_strip [] link_element) as [|c t] eqn:E; [simpl in Hlen; lia|].
    simpl nonempty. by rewrite (proj2 (Nat.ltb_lt _ _) Hlen).
Qed.

(** ** Link discovery: order, and the part of [visited_urls] *)

Section Discovery.

Variable urljoin : list N → list N → list N.

Lemma sublist_filter_map {A B} (f : A → B) (p : A → bool) (l : list A) :
  sublist (map f (List.filter p l)) (map f l).
Proof.
  induction l as [|x l IH]; simpl; [constructor|].
  destruct (p x); simpl; by constructor.
Qed.

Lemma filter_implies_sublist {A} (p q : A → bool) (l : list A) :
  (∀ x, p x = true → q x = true) →
  sublist (List.filter p l) (List.filter q l).
Proof.
  intros Hpq. induction l as [|x l IH]; simpl; [constructor|].
  destruct (p x) eqn:Ep.
  - rewrite (Hpq x Ep). by constructor.
  - destruct (q x); [by constructor|done].
Qed.

Lemma sublist_map {A B} (f : A → B) (l k : list A) :
  sublist l k → sublist (map f l) (map f k).
Proof. induction 1; simpl; by constructor. Qed.

Lemma path_pattern_loop_sublist page_url links :
  sublist (path_pattern_loop urljoin page_url links)
          (map (candidate_of urljoin page_url) links).
Proof.
  induction links as [|link rest IH]; simpl; [constructor|].
  unfold candidate_of at 1.
  destruct (get_attr (py "href") link) as [[|h0 href]|]; try by constructor.
  destruct (nonempty _ && _); by constructor.
Qed.

Lemma heuristic_loop_sublist visited page_url links seen :
  sublist (heuristic_loop urljoin visited page_url links seen)
          (map (candidate_of urljoin page_url) links).
Proof.
  revert seen. induction links as [|link rest IH]; intros seen; simpl; [constructor|].
  unfold candidate_of at 1.
  destruct (get_attr (py "href") link) as [[|h0 href]|]; try by constructor.
  destruct (is_article_url _ && _ && _); [|by constructor].
  destruct (nonempty _ && _); by constructor.
Qed.

(** X7: The candidates come in document order: the result of
    [extract_article_links] is a subsequence of the anchors of the page
    that carry an [href], each taken with its stripped text and its
    resolved URL. *)
Theorem extract_article_links_in_order visited html_content page_url :
  sublist (extract_article_links urljoin visited html_content page_url)
          (map (candidate_of urljoin page_url)
             (match html_content with Some soup => all_links soup | None => [] end)).
Proof.
  destruct html_content as [soup|]; [|constructor].
  unfold extract_article_links.
  destruct (article_elements soup) eqn:Ea.
  - destruct (path_pattern_loop urljoin page_url (article_links soup)) eqn:Ep.
    + apply heuristic_loop_sublist.
    + rewrite <- Ep. etrans; [apply path_pattern_loop_sublist|].
      apply sublist_map. unfold article_links, all_links.
      apply filter_implies_sublist. intros x [-> H]%andb_prop.
      by destruct (get_attr (py "href") x).
  - apply heuristic_loop_sublist.
Qed.

Lemma filter_filter_implied {A} (p q : A → bool) (l : list A) :
  (∀ x, p x = true → q x = true) →
  List.filter p (List.filter q l) = List.filter p l.
Proof.
  intros Hpq. induction l as [|x l IH]; simpl; [done|].
  destruct (q x) eqn:Eq; simpl.
  - destruct (p x); by rewrite IH.
  - destruct (p x) eqn:Ep; [|done]. rewrite (Hpq x Ep) in Eq. done.
Qed.

Lemma heuristic_loop_seen visited page_url links seen a :
  heuristic_loop urljoin visited page_url links ({[a]} ∪ seen)
  = List.filter (λ c, bool_decide (url c ≠ a))
      (heuristic_loop urljoin visited page_url links seen).
Proof.
  revert seen. induction links as [|link rest IH]; intros seen; simpl; [done|].
  destruct (get_attr (py "href") link) as [[|h0 href]|]; try apply IH.
  set (u := urljoin page_url (h0 :: href)).
  destruct (decide (u = a)) as [->|Hne].
  - rewrite (bool_decide_eq_false_2 (a ∉ {[a]} ∪ seen))
      by (intros H; apply H, elem_of_union_l; by apply elem_of_singleton_2).
    rewrite andb_false_r. simpl.
    destruct (is_article_url a && _ && _); [|apply IH].
    destruct (nonempty _ && _); [|apply IH].
    simpl. rewrite bool_decide_eq_false_2 by (intros H; by apply H).
    rewrite <- IH. f_equal.
    by rewrite (assoc_L (∪)), (idemp_L (∪)).
  - assert (bool_decide (u ∉ {[a]} ∪ seen) = bool_decide (u ∉ seen)) as ->.
    { apply bool_decide_ext. split.
      - intros H Hs. apply H. by apply elem_of_union_r.
      - intros H [Ha%elem_of_singleton|Hs]%elem_of_union; done. }
    destruct (is_article_url u && _ && _); [|apply IH].
    destruct (nonempty _ && _); [|apply IH].
    simpl. rewrite bool_decide_eq_true_2 by done. f_equal.
    rewrite <- IH. f_equal.
    by rewrite !(assoc_L (∪)), (comm_L (∪) {[u]} {[a]}).
Qed.

Lemma heuristic_loop_visited visited more page_url links seen :
  heuristic_loop urljoin (visited ∪ more) page_url links seen
  = List.filter (λ c, bool_decide (url c ∉ more))
      (heuristic_loop urljoin visited page_url links seen).
Proof.
  revert seen. induction links as [|link rest IH]; intros seen; simpl; [done|].
  destruct (get_attr (py "href") link) as [[|h0 href]|]; try apply IH.
  set (u := urljoin page_url (h0 :: href)).
  destruct (decide (u ∈ more)) as [Hin|Hout].
  - rewrite (bool_decide_eq_false_2 (u ∉ visited ∪ more))
      by (intros H; apply H; by apply elem_of_union_r).
    rewrite andb_false_r.
    destruct (is_article_url u && _ && _); [|apply IH].
    destruct (nonempty _ && _); [|apply IH].
    simpl. rewrite bool_decide_eq_false_2 by (intros H; by apply H).
    rewrite heuristic_loop_seen, filter_filter_implied; [apply IH|].
    intros c Hc%bool_decide_eq_true. apply bool_decide_eq_true.
    intros E. by rewrite E in Hc.
  - assert (bool_decide (u ∉ visited ∪ more) = bool_decide (u ∉ visited)) as ->.
    { apply bool_decide_ext. split.
      - intros H Hv. apply H. by apply elem_of_union_l.
      - intros H [Hv|Hm]%elem_of_union; done. }
    destruct (is_article_url u && _ && _); [|apply IH].
    destruct (nonempty _ && _); [|apply IH].
    simpl. rewrite bool_decide_eq_true_2 by done. f_equal. apply IH.
Qed.

(** X8: What [visited_urls] does to discovery.  When the path-pattern tier
    gives candidates, the result does not depend on [visited_urls]: visited
    articles are proposed again.  Otherwise a larger [visited_urls] gives
    the same candidates without those now visited; so a page without
    candidates stays without candidates. *)
Theorem extract_article_links_visited visited more soup page_url :
  let tier2 :=
    match article_elements soup with
    | [] => path_pattern_loop urljoin page_url (article_links soup)
    | _ :: _ => []
    end in
  (tier2 ≠ [] →
   extract_article_links urljoin visited (Some soup) page_url = tier2) ∧
  (tier2 = [] →
   extract_article_links urljoin (visited ∪ more) (Some soup) page_url
   = List.filter (λ c, bool_decide (url c ∉ more))
       (extract_article_links urljoin visited (Some soup) page_url)) ∧
  (extract_article_links urljoin visited (Some soup) page_url = [] →
   extract_article_links urljoin (visited ∪ more) (Some soup) page_url = []).
Proof.
  intros tier2.
  assert (H2 : tier2 = [] →
    extract_article_links urljoin (visited ∪ more) (Some soup) page_url
    = List.filter (λ c, bool_decide (url c ∉ more))
        (extract_article_links urljoin visited (Some soup) page_url)).
  { unfold extract_article_links. fold tier2. intros ->.
    apply heuristic_loop_visited. }
  split_and!; [|exact H2|].
  - unfold extract_article_links. fold tier2. by destruct tier2.
  - intros He. destruct tier2 as [|c cs] eqn:E2.
    + by rewrite H2, He.
    + exfalso. revert He. unfold extract_article_links. fold tier2.
      by rewrite E2.
Qed.

End Discovery.

(** ** The content extractor: format, choice of the region, boilerplate *)

Lemma extract_article_content_normal html_content :
  ∃ content, extract_article_content html_content = normalize_content content.
Proof.
  destruct html_content as [parsed|]; [|by exists []].
  unfold extract_article_content.
  match goal with |- context [if nonempty ?c then _ else _] =>
    destruct c as [|a c'] eqn:E end.
  - by exists [].
  - by eexists.
Qed.

(** X9: The text [extract_article_content] returns is empty, or each of its
    lines is longer than 20 characters, begins and ends with a character
    that is no white space, and has no two spaces in a row; in particular
    the text has no empty line. *)
Theorem extract_article_content_lines html_content :
  let text := extract_article_content html_content in
  text = [] ∨ Forall good_line (split nl text).
Proof.
  intros text. subst text.
  destruct (extract_article_content_normal html_content) as [content ->].
  unfold normalize_content.
  pose proof (cleaned_lines_good content) as HL.
  destruct (cleaned_lines (split nl (collapse_whitespace content))) as [|l L] eqn:E;
    [by left|right].
  rewrite split_join; [done|done|].
  eapply Forall_impl; [exact HL|]. by intros ? (_ & _ & ? & _).
Qed.

Lemma content_loop_first_long pre sel post soup content0 text :
  (∀ s, In s pre → ∀ t, selected_text s soup = Some t → length t ≤ 200) →
  selected_text sel soup = Some text → 200 < length text →
  content_loop (pre ++ sel :: post) soup content0 = text.
Proof.
  unfold selected_text. intros Hpre Hsel Hlen. revert content0.
  induction pre as [|s pre IH]; intros content0; simpl.
  - destruct (select_one sel soup) as [e|]; [|done]. injection Hsel as Hsel.
    rewrite Hsel. by rewrite (proj2 (Nat.ltb_lt _ _) Hlen).
  - pose proof (Hpre s (or_introl eq_refl)) as Hs.
    destruct (select_one s soup) as [e|].
    + specialize (Hs _ eq_refl).
      rewrite (proj2 (Nat.ltb_ge _ _) Hs). apply IH.
      intros s' Hs'. apply Hpre. by right.
    + apply IH. intros s' Hs'. apply Hpre. by right.
Qed.

(** X10: The first selector, in the order of [content_selectors], whose element
    has a text longer than 200 characters gives the content: what the
    selectors before it select is passed over, the selectors after it and
    [body] are not looked at. *)
Theorem extract_article_content_first_long pre sel post parsed text :
  content_selectors = pre ++ sel :: post →
  let soup := decompose_all unwanted_tags parsed in
  (∀ s, In s pre → ∀ t, selected_text s soup = Some t → length t ≤ 200) →
  selected_text sel soup = Some text → 200 < length text →
  extract_article_content (Some parsed) = normalize_content text.
Proof.
  intros Hsels soup Hpre Hsel Hlen. unfold extract_article_content.
  fold soup. rewrite Hsels.
  rewrite (content_loop_first_long pre sel post soup [] text Hpre Hsel Hlen).
  cbv zeta.
  assert (Hne : nonempty text = true).
  { destruct text; [simpl in Hlen; lia|done]. }
  assert (Hge : (length text <? 200) = false) by (apply Nat.ltb_ge; lia).
  rewrite Hne, Hge. cbn [negb orb]. by rewrite Hne.
Qed.

Lemma content_loop_short sels soup content0 :
  (∀ s, In s sels → ∀ t, selected_text s soup = Some t → length t < 200) →
  length content0 < 200 →
  length (content_loop sels soup content0) < 200.
Proof.
  unfold selected_text. revert content0.
  induction sels as [|s sels IH]; intros content0 Hall H0; simpl; [done|].
  pose proof (Hall s (or_introl eq_refl)) as Hs.
  destruct (select_one s soup) as [e|].
  - specialize (Hs _ eq_refl).
    rewrite (proj2 (Nat.ltb_ge _ _)) by lia.
    apply IH; [|done]. intros s' Hs'. apply Hall. by right.
  - apply IH; [|done]. intros s' Hs'. apply Hall. by right.
Qed.

(** X11: When every element that a content selector selects has a text shorter
    than 200 characters and the page has a [body], the content is the text
    of [body], normalised. *)
Theorem extract_article_content_body_fallback parsed body :
  let soup := decompose_all unwanted_tags parsed in
  (∀ s, In s content_selectors →
     ∀ t, selected_text s soup = Some t → length t < 200) →
  find_tag (py "body") soup = Some body →
  extract_article_content (Some parsed)
  = let content := get_text_strip [nl] body in
    if nonempty content then normalize_content content else [].
Proof.
  intros soup Hall Hbody. unfold extract_article_content. fold soup.
  assert (Hshort : length (content_loop content_selectors soup []) < 200).
  { apply content_loop_short; [exact Hall|]. change (length (@nil N)) with 0. lia. }
  cbv zeta.
  rewrite (proj2 (Nat.ltb_lt _ _) Hshort), orb_true_r, Hbody.
  by destruct (get_text_strip [nl] body).
Qed.

Lemma node_nested_ind (P : node → Prop) :
  (∀ s, P (Text s)) →
  (∀ t a cs, Forall P cs → P (Elem t a cs)) →
  ∀ n, P n.
Proof.
  intros HT HE.
  refine (fix IH (n : node) : P n :=
            match n with
            | Text s => HT s
            | Elem t a cs =>
                HE t a cs
                  ((fix go (l : list node) : Forall P l :=
                      match l with
                      | [] => List.Forall_nil P
                      | c :: l' => @List.Forall_cons node P c l' (IH c) (go l')
                      end) cs)
            end).
Qed.

Lemma has_tag_in_no_dot n :
  no_dot_tags n = true →
  has_tag_in unwanted_tags n = has_tag_in boilerplate_tags n.
Proof.
  destruct n as [s|t a cs]; [done|]. simpl.
  intros [Ht _]%andb_prop. apply negb_true_iff in Ht.
  destruct t as [|c t]; [done|].
  simpl in Ht. rewrite andb_true_r in Ht.
  unfold has_tag_in, mem_str, unwanted_tags, boilerplate_tags. simpl tag_of.
  cbn [existsb]. rewrite !orb_false_r.
  assert (Hdot : ∀ r, eqb_str (c :: t) (46%N :: r) = false).
  { intros r. simpl. rewrite N.eqb_sym. by rewrite Ht. }
  change (py ".navigation") with (46%N :: py "navigation").
  change (py ".sidebar") with (46%N :: py "sidebar").
  change (py ".comments") with (46%N :: py "comments").
  change (py ".social-share") with (46%N :: py "social-share").
  change (py ".related-posts") with (46%N :: py "related-posts").
  rewrite !Hdot, !orb_false_r. done.
Qed.

Lemma decompose_node_no_dot n :
  no_dot_tags n = true →
  decompose_node unwanted_tags n = decompose_node boilerplate_tags n.
Proof.
  induction n as [s|t a cs IH] using node_nested_ind; [done|].
  simpl. intros [_ Hcs]%andb_prop. f_equal.
  induction IH as [|c cs Hc _ IHcs]; [done|].
  apply andb_prop in Hcs as [Hc1 Hcs].
  rewrite (has_tag_in_no_dot c Hc1).
  destruct (has_tag_in boilerplate_tags c); [by apply IHcs|].
  f_equal; [by apply Hc|by apply IHcs].
Qed.

(** X12: On a tree whose tag names do not begin with a dot, as the parser
    gives, the five entries [.navigation], [.sidebar], [.comments],
    [.social-share] and [.related-posts] of the list of line 220 remove
    nothing: elements leave the tree by their tag name only, whatever
    their class, and the text returned is the one the seven tag names
    alone would give. *)
Theorem class_entries_remove_nothing parsed :
  forallb no_dot_tags parsed = true →
  decompose_all unwanted_tags parsed = decompose_all boilerplate_tags parsed.
Proof.
  induction parsed as [|n doc IH]; [done|]. simpl.
  intros [Hn Hdoc]%andb_prop.
  rewrite (has_tag_in_no_dot n Hn).
  destruct (has_tag_in boilerplate_tags n); [by apply IH|].
  f_equal; [by apply decompose_node_no_dot|by apply IH].
Qed.

Lemma has_tag_in_decompose_node names names' n :
  has_tag_in names (decompose_node names' n) = has_tag_in names n.
Proof. by destruct n. Qed.

Lemma decompose_node_clean names n :
  Forall (λ e, has_tag_in names e = false) (descendants (decompose_node names n))
  ∨ has_tag_in names n = true.
Proof.
  induction n as [s|t a cs IH] using node_nested_ind; [left; constructor|].
  destruct (has_tag_in names (Elem t a cs)) eqn:E; [by right|left].
  simpl. constructor; [exact E|]. clear E.
  induction IH as [|c cs Hc _ IHcs]; [constructor|].
  destruct (has_tag_in names c) eqn:Ec; [exact IHcs|].
  apply Forall_app. split; [|exact IHcs].
  destruct Hc as [Hc|Hc]; [exact Hc|congruence].
Qed.

Lemma decompose_node_strings names n :
  sublist (strings (decompose_node names n)) (strings n).
Proof.
  induction n as [s|t a cs IH] using node_nested_ind; [done|].
  simpl. induction IH as [|c cs Hc _ IHcs]; [constructor|].
  destruct (has_tag_in names c).
  - by apply sublist_inserts_l.
  - by apply sublist_app.
Qed.

(** X13: What the removal of line 220 leaves.  In the tree that the selectors
    and the [body] fallback read, no element at any depth has one of the
    listed tag names, and its text nodes are text nodes of the page, in
    their order: text is taken away, never added or moved. *)
Theorem decompose_all_removes names doc :
  Forall (λ e, has_tag_in names e = false) (elements (decompose_all names doc)) ∧
  sublist (doc_strings (decompose_all names doc)) (doc_strings doc).
Proof.
  induction doc as [|n doc [IH1 IH2]]; [split; constructor|]. simpl.
  destruct (has_tag_in names n) eqn:E.
  - split; [exact IH1|]. by apply sublist_inserts_l.
  - split.
    + simpl. apply Forall_app. split; [|exact IH1].
      destruct (decompose_node_clean names n) as [H|H]; [exact H|congruence].
    + simpl. apply sublist_app; [apply decompose_node_strings|exact IH2].
Qed.

(** ** One article *)

Section Article.

Variable isdecimal : N → bool.
Variable w : world.

(** X14: One call of [crawl_article] for a URL not yet visited makes at most
    three requests, all for that URL, with a pause of 5 seconds after each
    of them but the last, and reads the clock once exactly when it returns
    a record. *)
Theorem crawl_article_trace info self :
  url info ∉ visited_urls self →
  ∃ i r self',
    i < 3 ∧
    crawl_article isdecimal w info self = Done (r, self') ∧
    events self' =
      events self ++ EvVisit (url info) :: fetch_trace (url info) i
        ++ match r with Some _ => [EvNow] | None => [] end.
Proof.
  intros Hnew. unfold crawl_article, get_page_content.
  rewrite bool_decide_eq_false_2 by done. cbn [events].
  destruct (get_page_content_loop_shape w (url info) 3 3
              (events self ++ [EvVisit (url info)])) as (i & Hi & E);
    [lia|lia|].
  destruct (get_page_content_loop _ _ _ _ _) as [t evs]. simpl in E. subst evs.
  exists i. destruct t as [soup|].
  - destruct (extract_article_metadata_Some isdecimal soup) as (rd & au & ->).
    destruct (negb _ || _).
    + eexists None, _. split_and!; [done|done|].
      simpl. by rewrite <- app_assoc, app_nil_r.
    + eexists (Some _), _. split_and!; [done|done|].
      simpl. by rewrite <- !app_assoc.
  - eexists None, _. split_and!; [done|done|].
    simpl. by rewrite <- app_assoc, app_nil_r.
Qed.

End Article.

(** ** The metadata extractor *)

Lemma join_nil_concat L : join [] L = concat L.
Proof.
  induction L as [|l L IH]; [done|].
  simpl. destruct L as [|l' L]; [by rewrite app_nil_r|].
  by rewrite <- IH.
Qed.

Lemma concat_trimmed L :
  Forall (λ l, trimmed l ∧ l ≠ []) L → trimmed (concat L).
Proof.
  induction 1 as [|l L [[Hh Hl] Hne] HL IH]; [by split|].
  simpl. destruct IH as [IHh IHl]. split; intros c.
  - destruct l as [|a l]; [done|]. simpl. apply Hh.
  - rewrite last_app. destruct (last (concat L)) as [c'|] eqn:E.
    + intros [= <-]. by apply IHl.
    + apply Hl.
Qed.

Lemma get_text_strip_nil_trimmed e : trimmed (get_text_strip [] e).
Proof.
  unfold get_text_strip, stripped_strings. rewrite join_nil_concat.
  apply concat_trimmed. apply List.Forall_forall.
  intros l [Hin Hne]%filter_In. apply in_map_iff in Hin as (s & <- & _).
  split; [apply strip_trimmed|]. by destruct (strip s).
Qed.

Lemma author_loop_trimmed sels soup author :
  trimmed author → trimmed (author_loop sels soup author).
Proof.
  revert author. induction sels as [|s sels IH]; intros author Ha; simpl; [done|].
  destruct (select_one s soup) as [e|]; [|by apply IH].
  destruct (nonempty (get_text_strip [] e));
    [|apply IH]; apply get_text_strip_nil_trimmed.
Qed.

Lemma release_date_loop_first pre sel post soup release_date e :
  (∀ s e', In s pre → select_one s soup = Some e' → date_of e' = []) →
  select_one sel soup = Some e → date_of e ≠ [] →
  release_date_loop (pre ++ sel :: post) soup release_date = date_of e.
Proof.
  intros Hpre Hsel Hne. revert release_date.
  induction pre as [|s pre IH]; intros release_date; simpl.
  - rewrite Hsel. fold (date_of e). by destruct (date_of e).
  - destruct (select_one s soup) as [e'|] eqn:Es.
    + fold (date_of e'). rewrite (Hpre s e' (or_introl eq_refl) Es). simpl.
      apply IH. intros s' e'' Hs'. apply Hpre. by right.
    + apply IH. intros s' e'' Hs'. apply Hpre. by right.
Qed.

Lemma author_loop_first pre sel post soup author e :
  (∀ s e', In s pre → select_one s soup = Some e' → get_text_strip [] e' = []) →
  select_one sel soup = Some e → get_text_strip [] e ≠ [] →
  author_loop (pre ++ sel :: post) soup author = get_text_strip [] e.
Proof.
  intros Hpre Hsel Hne. revert author.
  induction pre as [|s pre IH]; intros author; simpl.
  - rewrite Hsel. by destruct (get_text_strip [] e).
  - destruct (select_one s soup) as [e'|] eqn:Es.
    + rewrite (Hpre s e' (or_introl eq_refl) Es). simpl.
      apply IH. intros s' e'' Hs'. apply Hpre. by right.
    + apply IH. intros s' e'' Hs'. apply Hpre. by right.
Qed.

Lemma release_date_loop_none sels soup :
  (∀ s e, In s sels → select_one s soup = Some e → date_of e = []) →
  release_date_loop sels soup [] = [].
Proof.
  induction sels as [|s sels IH]; intros Hall; simpl; [done|].
  destruct (select_one s soup) as [e|] eqn:Es.
  - fold (date_of e). rewrite (Hall s e (or_introl eq_refl) Es). simpl.
    apply IH. intros s' e' Hs'. apply Hall. by right.
  - apply IH. intros s' e' Hs'. apply Hall. by right.
Qed.

Lemma forallb_take_while p s : forallb p (take_while p s) = true.
Proof.
  induction s as [|c r IH]; simpl; [done|].
  destruct (p c) eqn:E; simpl; [by rewrite E|done].
Qed.

Lemma re_search_suffix {A} (m : list N → option A) s x :
  re_search m s = Some x → ∃ p t, s = p ++ t ∧ m t = Some x.
Proof.
  induction s as [|c r IH]; simpl.
  - destruct (m []) eqn:E; [|done]. intros [= <-]. by exists [], [].
  - destruct (m (c :: r)) eqn:E.
    + intros [= <-]. by exists [], (c :: r).
    + intros (p & t & -> & Ht)%IH. by exists (c :: p), t.
Qed.

Lemma startswith_app p s : startswith p s = true → ∃ r, s = p ++ r.
Proof.
  revert s. induction p as [|a p IH]; intros s; simpl; [by exists s|].
  destruct s as [|b s]; [done|].
  intros [Hab%N.eqb_eq (r & ->)%IH]%andb_prop. subst. by exists r.
Qed.

Section Dates.

Variable isdecimal : N → bool.

Lemma match_released_shape s g :
  match_released isdecimal s = Some g →
  date_shape isdecimal g ∧
  ∃ ws q, forallb isspace ws = true ∧ s = py "Released" ++ ws ++ g ++ q.
Proof.
  unfold match_released.
  destruct (startswith (py "Released") s) eqn:Es; [|done].
  apply startswith_app in Es as (r & ->).
  change (drop 8 (py "Released" ++ r)) with r.
  set (s1 := drop_while isspace r).
  set (s2 := drop_while is_ascii_letter s1).
  set (s3 := drop_while isspace s2).
  destruct (nonempty _ && nonempty _ && _ && _) eqn:E1; [|done].
  apply andb_prop in E1 as [[[Hm Hw1]%andb_prop Hd1%Nat.leb_le]%andb_prop Hd2%Nat.leb_le].
  destruct (drop_while isdecimal s3) as [|c s5] eqn:E4; [done|].
  destruct (_ && _ && _ && _) eqn:E2; [|done].
  apply andb_prop in E2 as [[[Hc%N.eqb_eq Hw2]%andb_prop Hy%Nat.eqb_eq]%andb_prop Hyd].
  subst c. intros [= <-]. split.
  - exists (take_while is_ascii_letter s1), (take_while isspace s2),
      (take_while isdecimal s3), (take_while isspace s5),
      (take 4 (drop_while isspace s5)).
    split_and!; try done; try apply forallb_take_while.
    + intros E. by rewrite E in Hm.
    + intros E. by rewrite E in Hw1.
    + intros E. by rewrite E in Hw2.
  - exists (take_while isspace r), (drop 4 (drop_while isspace s5)).
    split; [apply forallb_take_while|]. f_equal.
    rewrite <- !app_assoc. rewrite <- app_comm_cons, <- app_assoc.
    rewrite take_drop, (take_drop_while isspace s5), <- E4.
    subst s3 s2 s1. by rewrite !take_drop_while.
Qed.

(** X15: The author that [extract_article_metadata] returns begins and ends
    with a character that is no white space, whether it comes from an
    element or from the [By] sentence of the text. *)
Theorem extract_article_metadata_author_trimmed soup :
  ∃ d, extract_article_metadata isdecimal (Some soup) = MetaDict d ∧
       trimmed (dict_get (py "author") [] d).
Proof.
  unfold extract_article_metadata. eexists. split; [reflexivity|].
  unfold dict_get. cbn [dict_lookup].
  change (eqb_str (py "author") (py "release_date")) with false.
  change (eqb_str (py "author") (py "author")) with true. cbv iota.
  destruct (nonempty (author_loop author_selectors soup [])) eqn:E.
  - by apply author_loop_trimmed.
  - destruct (re_search match_by (get_text soup)); [apply strip_trimmed|].
    by apply author_loop_trimmed.
Qed.

(** X16: Markup comes before the text of the page, and the selectors are
    tried in their order.  The release date is what the first date selector
    whose element gives a date gives: its [datetime] attribute when it has
    one that is not empty, else its stripped text.  The author is the
    stripped text of the first author selector whose element has one.  The
    [Released] and [By] sentences are not looked at then. *)
Theorem extract_article_metadata_first_selector soup :
  (∀ pre sel post e,
     date_selectors = pre ++ sel :: post →
     (∀ s e', In s pre → select_one s soup = Some e' → date_of e' = []) →
     select_one sel soup = Some e → date_of e ≠ [] →
     ∃ d, extract_article_metadata isdecimal (Some soup) = MetaDict d ∧
          dict_get (py "release_date") [] d = date_of e) ∧
  (∀ pre sel post e,
     author_selectors = pre ++ sel :: post →
     (∀ s e', In s pre → select_one s soup = Some e' → get_text_strip [] e' = []) →
     select_one sel soup = Some e → get_text_strip [] e ≠ [] →
     ∃ d, extract_article_metadata isdecimal (Some soup) = MetaDict d ∧
          dict_get (py "author") [] d = get_text_strip [] e).
Proof.
  split; intros pre sel post e Hsels Hpre Hsel Hne;
    unfold extract_article_metadata; (eexists; split; [reflexivity|]);
    unfold dict_get; cbn [dict_lookup].
  - change (eqb_str (py "release_date") (py "release_date")) with true. cbv iota.
    rewrite Hsels, (release_date_loop_first pre sel post soup [] e Hpre Hsel Hne).
    by destruct (date_of e).
  - change (eqb_str (py "author") (py "release_date")) with false.
    change (eqb_str (py "author") (py "author")) with true. cbv iota.
    rewrite Hsels, (author_loop_first pre sel post soup [] e Hpre Hsel Hne).
    by destruct (get_text_strip [] e).
Qed.

(** X17: When no date selector gives a date, the release date is empty or is
    taken from the text of the page: it stands there after the word
    [Released] and white space, and it has the form of a month in letters,
    a day of one or two digits, a comma and a year of four digits. *)
Theorem extract_article_metadata_date_from_text soup :
  (∀ s e, In s date_selectors → select_one s soup = Some e → date_of e = []) →
  ∃ d, extract_article_metadata isdecimal (Some soup) = MetaDict d ∧
       let release_date := dict_get (py "release_date") [] d in
       release_date = [] ∨
       (date_shape isdecimal release_date ∧
        ∃ ws, forallb isspace ws = true ∧
              infix (py "Released" ++ ws ++ release_date) (get_text soup)).
Proof.
  intros Hnone. unfold extract_article_metadata.
  eexists. split; [reflexivity|].
  unfold dict_get. cbn [dict_lookup].
  change (eqb_str (py "release_date") (py "release_date")) with true. cbv iota zeta.
  rewrite (release_date_loop_none date_selectors soup Hnone). cbn [nonempty].
  destruct (re_search (match_released isdecimal) (get_text soup)) as [g|] eqn:E;
    [right|by left].
  apply re_search_suffix in E as (p & t & Et & Hm).
  apply match_released_shape in Hm as [Hshape (ws & q & Hws & ->)].
  split; [done|]. exists ws. split; [done|].
  exists p, q. by rewrite Et, <- !app_assoc.
Qed.

End Dates.

(** ** The page loop: limits, order of the pages, the URLs recorded *)

Section Loop.

Variable isdecimal : N → bool.
Variable urljoin : list N → list N → list N.
Variable w : world.

Lemma article_loop_zero links self :
  article_loop isdecimal w (Some 0%Z) links self
  = article_loop isdecimal w None links self.
Proof.
  revert self. induction links as [|info rest IH]; intros self; [done|].
  simpl. change (article_limit_reached (Some 0%Z) self) with false.
  change (article_limit_reached None self) with false. cbv iota.
  destruct (crawl_article isdecimal w info self) as [[r s]| |]; [apply IH|done|done].
Qed.

Lemma page_turn_zero_articles max_pages page_num self :
  page_turn isdecimal urljoin w (Some 0%Z) max_pages page_num self
  = page_turn isdecimal urljoin w None max_pages page_num self.
Proof.
  unfold page_turn.
  change (article_limit_reached (Some 0%Z) self) with false.
  change (article_limit_reached None self) with false. cbv iota.
  destruct (page_limit_reached max_pages page_num); [done|].
  destruct (get_page_content _ _ _ _) as [[soup|] s]; [|done].
  destruct (extract_article_links _ _ _ _); [done|].
  by rewrite article_loop_zero.
Qed.

Lemma page_turn_zero_pages max_articles page_num self :
  page_turn isdecimal urljoin w max_articles (Some 0%Z) page_num self
  = page_turn isdecimal urljoin w max_articles None page_num self.
Proof. reflexivity. Qed.

Lemma crawl_pages_from_zero_articles max_pages fuel page_num self :
  crawl_pages_from isdecimal urljoin w (Some 0%Z) max_pages fuel page_num self
  = crawl_pages_from isdecimal urljoin w None max_pages fuel page_num self.
Proof.
  revert page_num self. induction fuel as [|fuel IH]; intros page_num self; [done|].
  simpl. rewrite page_turn_zero_articles.
  destruct (page_turn _ _ _ _ _ _ _) as [[[r s]|s]| |]; first [done|apply IH].
Qed.

Lemma crawl_pages_from_zero_pages max_articles fuel page_num self :
  crawl_pages_from isdecimal urljoin w max_articles (Some 0%Z) fuel page_num self
  = crawl_pages_from isdecimal urljoin w max_articles None fuel page_num self.
Proof.
  revert page_num self. induction fuel as [|fuel IH]; intros page_num self; [done|].
  simpl. rewrite page_turn_zero_pages.
  destruct (page_turn _ _ _ _ _ _ _) as [[[r s]|s]| |]; first [done|apply IH].
Qed.

(** X18: A limit of 0 is no limit: [run] with [max_articles = 0] does what it
    does with [max_articles = None], and likewise for [max_pages]. *)
Theorem zero_limit_is_no_limit fuel self :
  (∀ max_pages,
     run isdecimal urljoin w (Some 0%Z) max_pages fuel self
     = run isdecimal urljoin w None max_pages fuel self) ∧
  (∀ max_articles,
     run isdecimal urljoin w max_articles (Some 0%Z) fuel self
     = run isdecimal urljoin w max_articles None fuel self).
Proof.
  split; intros; unfold run, crawl_all_pages.
  - by rewrite crawl_pages_from_zero_articles.
  - by rewrite crawl_pages_from_zero_pages.
Qed.

(** X19: A negative limit ends the crawl before the first request: with a
    negative [max_articles], or with a negative [max_pages] when the
    article limit is not reached, [crawl_all_pages] leaves the crawler as
    it is, and [run] goes straight to writing the report. *)
Theorem negative_limit_stops_at_once (m : Z) fuel self :
  (m < 0)%Z →
  (∀ max_pages,
     crawl_all_pages isdecimal urljoin w (Some m) max_pages (S fuel) self
       = Done (1, ArticleLimit, self) ∧
     run isdecimal urljoin w (Some m) max_pages (S fuel) self = save_to_json w self) ∧
  (∀ max_articles,
     article_limit_reached max_articles self = false →
     crawl_all_pages isdecimal urljoin w max_articles (Some m) (S fuel) self
       = Done (1, PageLimit, self) ∧
     run isdecimal urljoin w max_articles (Some m) (S fuel) self = save_to_json w self).
Proof.
  intros Hm.
  assert (Ha : article_limit_reached (Some m) self = true).
  { unfold article_limit_reached. apply andb_true_intro. split.
    - apply negb_true_iff, Z.eqb_neq. lia.
    - apply Z.leb_le. lia. }
  assert (Hp : page_limit_reached (Some m) 1 = true).
  { unfold page_limit_reached. apply andb_true_intro. split.
    - apply negb_true_iff, Z.eqb_neq. lia.
    - apply Z.ltb_lt. lia. }
  split.
  - intros max_pages.
    assert (E : crawl_all_pages isdecimal urljoin w (Some m) max_pages (S fuel) self
                = Done (1, ArticleLimit, self)).
    { unfold crawl_all_pages. simpl. unfold page_turn. by rewrite Ha. }
    split; [exact E|]. unfold run. by rewrite E.
  - intros max_articles Hno.
    assert (E : crawl_all_pages isdecimal urljoin w max_articles (Some m) (S fuel) self
                = Done (1, PageLimit, self)).
    { unfold crawl_all_pages. simpl. unfold page_turn. by rewrite Hno, Hp. }
    split; [exact E|]. unfold run. by rewrite E.
Qed.

Lemma crawl_pages_from_listings max_articles max_pages fuel page_num self k reason self' :
  crawl_pages_from isdecimal urljoin w max_articles max_pages fuel page_num self
    = Done (k, reason, self') →
  ∃ evs, events self' = events self ++ evs ∧
    page_num ≤ k ∧
    pages_processed evs = k - page_num ∧
    listings evs =
      seq page_num
        (match reason with
         | ArticleLimit | PageLimit => k - page_num
         | ListingFailed | NoArticles => S (k - page_num)
         end).
Proof.
  intros (n & s & -> & _ & (e1 & P1 & H1 & H2)%turns_progress & Hp)%crawl_pages_from_turns.
  destruct (page_turn_Done isdecimal urljoin w max_articles max_pages (page_num + n) s)
    as (res & e2 & Hres & P2 & H3).
  rewrite Hp in Hres. injection Hres as <-. destruct H3 as [H3 H4].
  exists (e1 ++ e2).
  replace (page_num + n - page_num) with n by lia.
  split_and!.
  - assert (P : progress w self self' (e1 ++ e2))
      by (eapply progress_trans; eassumption).
    apply P.
  - lia.
  - rewrite pages_processed_app. lia.
  - rewrite listings_app, H2, H4.
    destruct reason; rewrite ?app_nil_r; try done;
      by rewrite seq_S.
Qed.

(** X20: The listing pages are asked for in order and without gaps: a crawl
    that ends at page [k] has asked for the pages 1, 2, ... one after the
    other, up to [k - 1] when a limit ended it and up to [k] when page [k]
    failed or had no article, each once, and has completed [k - 1] of
    them. *)
Theorem listing_pages_in_order max_articles max_pages fuel self k reason self' :
  crawl_all_pages isdecimal urljoin w max_articles max_pages fuel self
    = Done (k, reason, self') →
  ∃ evs, events self' = events self ++ evs ∧
    pages_processed evs = k - 1 ∧
    listings evs =
      seq 1 (match reason with
             | ArticleLimit | PageLimit => k - 1
             | ListingFailed | NoArticles => k
             end).
Proof.
  intros (evs & E & Hk & Hp & Hl)%crawl_pages_from_listings.
  exists evs. split_and!; [done|done|].
  rewrite Hl. destruct reason; try done; f_equal; lia.
Qed.

Lemma page_turn_past_limit max_articles max_pages page_num self res :
  page_limit_reached max_pages page_num = true →
  page_turn isdecimal urljoin w max_articles max_pages page_num self = Done res →
  res = inl (ArticleLimit, self) ∨ res = inl (PageLimit, self).
Proof.
  unfold page_turn. intros ->.
  destruct (article_limit_reached max_articles self); intros [= <-]; auto.
Qed.

Lemma crawl_pages_from_ends (p : nat) max_articles fuel page_num self :
  0 < p → page_num ≤ S p → S p - page_num < fuel →
  ∃ k reason self',
    crawl_pages_from isdecimal urljoin w max_articles (Some (Z.of_nat p)) fuel page_num self
      = Done (k, reason, self') ∧
    match reason with
    | ArticleLimit | PageLimit => k ≤ S p
    | ListingFailed | NoArticles => k ≤ p
    end.
Proof.
  intros Hp. revert page_num self.
  induction fuel as [|fuel IH]; intros page_num self Hle Hfuel; [lia|].
  simpl.
  destruct (page_turn_Done isdecimal urljoin w max_articles (Some (Z.of_nat p)) page_num self)
    as (res & e1 & Hres & _).
  rewrite Hres.
  destruct (page_limit_reached (Some (Z.of_nat p)) page_num) eqn:El.
  - destruct (page_turn_past_limit _ _ _ _ _ El Hres) as [-> | ->];
      by eexists _, _, _.
  - assert (page_num ≤ p).
    { unfold page_limit_reached in El.
      apply andb_false_iff in El as [El|El].
      - apply negb_false_iff, Z.eqb_eq in El. lia.
      - apply Z.ltb_ge in El. lia. }
    destruct res as [[reason s]|s].
    + exists page_num, reason, s. split; [done|]. destruct reason; lia.
    + apply IH; lia.
Qed.

(** X21: With a page limit [p > 0] the program ends: the page loop breaks
    after at most [p + 1] turns, the listing pages it has asked for are the
    first pages of the site, at most [p] of them, and [run] returns. *)
Theorem page_limit_enforced (p : nat) max_articles fuel self :
  0 < p → p < fuel →
  (∃ k reason self' evs,
     crawl_all_pages isdecimal urljoin w max_articles (Some (Z.of_nat p)) fuel self
       = Done (k, reason, self') ∧
     k ≤ S p ∧
     events self' = events self ++ evs ∧
     listings evs = seq 1 (length (listings evs)) ∧
     length (listings evs) ≤ p ∧
     pages_processed evs ≤ p) ∧
  (∃ self',
     run isdecimal urljoin w max_articles (Some (Z.of_nat p)) fuel self = Done self').
Proof.
  intros Hp Hfuel. unfold run, crawl_all_pages.
  destruct (crawl_pages_from_ends p max_articles fuel 1 self)
    as (k & reason & self' & Hc & Hk); [done|lia|lia|].
  destruct (crawl_pages_from_listings _ _ _ _ _ _ _ _ Hc)
    as (evs & E & H1 & Hpp & Hl).
  rewrite Hc. split.
  - exists k, reason, self', evs. rewrite Hl, length_seq.
    split_and!; try done; destruct reason; lia.
  - destruct (save_to_json_Done w self') as (s & Hs & _). by exists s.
Qed.

Lemma recorded_refl self : recorded self self.
Proof.
  exists [], []. rewrite !app_nil_r. split_and!; [done|done|constructor].
Qed.

Lemma recorded_trans a b c : recorded a b → recorded b c → recorded a c.
Proof.
  intros (n1 & e1 & A1 & E1 & S1) (n2 & e2 & A2 & E2 & S2).
  exists (n1 ++ n2), (e1 ++ e2). split_and!.
  - by rewrite A2, A1, app_assoc.
  - by rewrite E2, E1, app_assoc.
  - unfold record_urls in *. rewrite map_app, visits_app, map_app.
    by apply sublist_app.
Qed.

Lemma recorded_emit evs self : recorded self (emit evs self).
Proof.
  exists [], evs. simpl. rewrite app_nil_r. split_and!; [done|done|].
  apply sublist_nil_l.
Qed.

Lemma crawl_article_recorded info self r self' :
  crawl_article isdecimal w info self = Done (r, self') →
  ∃ evs, events self' = events self ++ evs ∧ articles self' = articles self ∧
    match r with
    | Some d => dict_lookup (py "url") d = Some (url info) ∧ visits evs = [url info]
    | None => True
    end.
Proof.
  destruct (crawl_article_Done isdecimal urljoin w info self)
    as (r0 & s0 & evs & -> & P & A & _ & Hin & Hout & Hr).
  intros [= <- <-]. exists evs. split_and!; [apply P|done|].
  destruct r0 as [d|]; [|done].
  destruct (Hr d eq_refl) as (_ & _ & Hu). split; [done|].
  destruct (decide (url info ∈ visited_urls self)) as [Hv|Hv].
  - by destruct (Hin Hv).
  - destruct (Hout Hv) as (_ & evs' & -> & Hq). simpl. by rewrite Hq.
Qed.

Lemma article_loop_recorded max_articles links self self' :
  article_loop isdecimal w max_articles links self = Done self' →
  recorded self self'.
Proof.
  revert self. induction links as [|info rest IH]; intros self; simpl.
  { intros [= <-]. apply recorded_refl. }
  destruct (article_limit_reached max_articles self).
  { intros [= <-]. apply recorded_refl. }
  destruct (crawl_article isdecimal w info self) as [[r s1]| |] eqn:Ec; try done.
  apply crawl_article_recorded in Ec as (evs & E & A & Hr).
  intros H%IH. eapply recorded_trans; [|eapply recorded_trans; [|exact H]].
  2: apply recorded_emit.
  destruct r as [d|].
  - destruct Hr as [Hu Hv]. exists [d], evs. simpl. rewrite A.
    split_and!; [done|done|]. rewrite Hu, Hv. simpl. done.
  - exists [], evs. rewrite app_nil_r. split_and!; [done|done|].
    apply sublist_nil_l.
Qed.

Lemma page_turn_recorded max_articles max_pages page_num self res :
  page_turn isdecimal urljoin w max_articles max_pages page_num self = Done res →
  recorded self (match res with inl (_, s) => s | inr s => s end).
Proof.
  unfold page_turn.
  destruct (article_limit_reached max_articles self).
  { intros [= <-]. apply recorded_refl. }
  destruct (page_limit_reached max_pages page_num).
  { intros [= <-]. apply recorded_refl. }
  destruct (get_page_content w (listing_url page_num) 3 _) as [html self1] eqn:Eg.
  apply get_page_content_spec in Eg as (evs & -> & _ & _).
  assert (R1 : recorded self (emit evs (emit [EvListing page_num] self))).
  { eapply recorded_trans; apply recorded_emit. }
  destruct html as [soup|]; [|by intros [= <-]].
  destruct (extract_article_links _ _ _ _) as [|c cs]; [by intros [= <-]|].
  destruct (article_loop _ _ _ _ _) as [s2| |] eqn:El; try done.
  apply article_loop_recorded in El. intros [= <-].
  eapply recorded_trans; [exact R1|].
  eapply recorded_trans; [exact El|apply recorded_emit].
Qed.

Lemma crawl_pages_from_recorded max_articles max_pages fuel page_num self k reason self' :
  crawl_pages_from isdecimal urljoin w max_articles max_pages fuel page_num self
    = Done (k, reason, self') →
  recorded self self'.
Proof.
  revert page_num self. induction fuel as [|fuel IH]; intros page_num self; simpl; [done|].
  destruct (page_turn _ _ _ _ _ _ _) as [[[r s]|s]| |] eqn:Et; try done.
  - intros [= <- <- <-]. by apply page_turn_recorded in Et.
  - apply page_turn_recorded in Et. intros H%IH. by eapply recorded_trans.
Qed.

(** X22: No two records of a run have the same URL.  The [url] fields of the
    records that a run from a new crawler holds at its end, and of those
    in the report it has written, are pairwise distinct; they are URLs
    entered in [visited_urls], in the order in which they were entered. *)
Theorem record_urls_distinct max_articles max_pages fuel self :
  run isdecimal urljoin w max_articles max_pages fuel new_crawler = Done self →
  List.NoDup (record_urls (articles self)) ∧
  sublist (record_urls (articles self)) (map Some (visits (events self))) ∧
  (∀ r, saved self = Some r → List.NoDup (record_urls (report_articles r))).
Proof.
  unfold run, crawl_all_pages.
  destruct (crawl_pages_from _ _ _ _ _ _ _ _) as [[[k reason] s]| |] eqn:Ec;
    try done.
  pose proof Ec as (evs & P)%crawl_pages_from_progress.
  apply progress_new_crawler in P as (Hev & Hnd & _ & _ & Hnone).
  apply crawl_pages_from_recorded in Ec as (new & evs' & A & E & Hsub).
  simpl in A, E. subst new evs'. rewrite Hev in Hsub.
  assert (Hdistinct : List.NoDup (record_urls (articles s))).
  { apply NoDup_ListNoDup. eapply sublist_NoDup; [|exact Hsub].
    apply NoDup_fmap_2; [by intros ?? [= ->]|]. by apply NoDup_ListNoDup. }
  unfold save_to_json, write_report.
  destruct (can_write w (events s)); intros [= <-]; simpl.
  - split_and!; [done| |by intros r [= <-]].
    rewrite visits_app, app_nil_r. by rewrite Hev.
  - split_and!; [done| |].
    + rewrite visits_app, app_nil_r. by rewrite Hev.
    + intros r Hr. congruence.
Qed.

End Loop.

(** ** The number of pages *)

Section Pages.

Variable isdecimal : N → bool.
Variable int : list N → option Z.

Lemma re_search_sound {A} (m : list N → option A) (P : A → Prop) s x :
  (∀ t y, m t = Some y → P y) → re_search m s = Some x → P x.
Proof.
  intros Hm (p & t & _ & Ht)%re_search_suffix. by eapply Hm.
Qed.

Lemma re_findall_from_sound {A} (m : list N → option (A * nat)) (P : A → Prop) skip s :
  (∀ t y n, m t = Some (y, n) → P y) →
  Forall P (re_findall_from m skip s).
Proof.
  intros Hm. revert skip. induction s as [|c r IH]; intros skip; simpl; [constructor|].
  destruct skip as [|k]; [|apply IH].
  destruct (m (c :: r)) as [[y [|n]]|] eqn:E; try apply IH.
  constructor; [by eapply Hm|apply IH].
Qed.

Lemma take_while_digit_run s c ds :
  take_while isdecimal s = c :: ds → digit_run isdecimal (c :: ds).
Proof.
  intros E. split; [done|]. rewrite <- E. apply forallb_take_while.
Qed.

Lemma match_page_eq_digits s ds :
  match_page_eq isdecimal s = Some ds → digit_run isdecimal ds.
Proof.
  unfold match_page_eq. destruct (startswith (py "page=") s); [|done].
  destruct (take_while isdecimal (drop 5 s)) as [|c r] eqn:E; [done|].
  intros [= <-]. by eapply take_while_digit_run.
Qed.

Lemma match_page_text_digits s ds n :
  match_page_text isdecimal s = Some (ds, n) → digit_run isdecimal ds.
Proof.
  unfold match_page_text. destruct s as [|p [|a [|g [|e r]]]]; try done.
  destruct (_ && _ && _ && _); [|done].
  destruct (take_while isdecimal (drop_while isspace r)) as [|c r'] eqn:E; [done|].
  intros [= <- _]. by eapply take_while_digit_run.
Qed.

Lemma max_page_loop_Some links max_page :
  (∀ ds, digit_run isdecimal ds → ∃ n, int ds = Some n) →
  ∃ r, max_page_loop isdecimal int links max_page = Some r.
Proof.
  intros Hint. revert max_page.
  induction links as [|link rest IH]; intros max_page; simpl; [by eexists|].
  destruct (re_search _ _) as [ds|] eqn:E; [|apply IH].
  destruct (Hint ds) as (n & ->); [|apply IH].
  eapply (re_search_sound _ (digit_run isdecimal)); [|exact E].
  intros t y. apply match_page_eq_digits.
Qed.

Lemma max_ints_Some ms :
  ms ≠ [] → Forall (λ ds, ∃ n, int ds = Some n) ms →
  ∃ r, max_ints int ms = Some r.
Proof.
  intros Hne H. induction H as [|p rest (n & Hn) Hrest IH]; [done|].
  simpl. rewrite Hn. destruct rest as [|q rest]; [by eexists|].
  destruct IH as (r & ->); [done|]. by eexists.
Qed.

(** X23: [get_max_pages] raises only when [int] does: if [int] reads every
    run of digits, it returns a number for every page, whatever its links
    and its text. *)
Theorem get_max_pages_returns html_content :
  (∀ ds, digit_run isdecimal ds → ∃ n, int ds = Some n) →
  ∃ r, get_max_pages isdecimal int html_content = Some r.
Proof.
  intros Hint. destruct html_content as [soup|]; [|by eexists].
  unfold get_max_pages.
  destruct (max_page_loop_Some (pagination_links isdecimal soup) 1 Hint) as (r & ->).
  destruct (r =? 1)%Z; [|by eexists].
  pose proof (re_findall_from_sound (match_page_text isdecimal)
                (digit_run isdecimal) 0 (get_text soup)
                (λ t y n, match_page_text_digits t y n)) as Hall.
  unfold re_findall.
  destruct (re_findall_from _ 0 (get_text soup)) as [|p ps]; [by eexists|].
  apply max_ints_Some; [done|].
  eapply Forall_impl; [exact Hall|]. intros ds Hds. by apply Hint.
Qed.

Lemma max_page_loop_max links max_page r :
  max_page_loop isdecimal int links max_page = Some r →
  (max_page ≤ r)%Z ∧
  (∀ link n, In link links → link_page isdecimal int link n → (n ≤ r)%Z) ∧
  (r = max_page ∨ ∃ link, In link links ∧ link_page isdecimal int link r).
Proof.
  revert max_page. induction links as [|link rest IH]; intros max_page; simpl.
  { intros [= <-]. split_and!; [lia|by intros ?? []|by left]. }
  destruct (re_search _ _) as [ds|] eqn:E.
  - destruct (int ds) as [n|] eqn:En; [|done].
    intros (H1 & H2 & H3)%IH. split_and!; [lia| |].
    + intros link' n' [<-|Hin] Hp; [|by eapply H2].
      destruct Hp as (ds' & Hs & Hi). rewrite E in Hs. injection Hs as <-.
      rewrite En in Hi. injection Hi as <-. lia.
    + destruct H3 as [->|(l & Hl & Hp)].
      * destruct (Z.max_spec max_page n) as [[_ ->]|[_ ->]]; [|by left].
        right. exists link. split; [by left|]. by exists ds.
      * right. exists l. split; [by right|done].
  - intros (H1 & H2 & H3)%IH. split_and!; [done| |].
    + intros link' n' [<-|Hin] Hp; [|by eapply H2].
      destruct Hp as (ds' & Hs & _). by rewrite E in Hs.
    + destruct H3 as [->|(l & Hl & Hp)]; [by left|].
      right. exists l. split; [by right|done].
Qed.

Lemma max_ints_max ms r :
  max_ints int ms = Some r →
  (∀ p, In p ms → ∃ n, int p = Some n ∧ (n ≤ r)%Z) ∧
  (∃ p, In p ms ∧ int p = Some r).
Proof.
  revert r. induction ms as [|p rest IH]; intros r; simpl; [done|].
  destruct (int p) as [n|] eqn:En; [|done].
  destruct rest as [|q rest].
  { intros [= <-]. split.
    - intros p' [<-|[]]. exists n. split; [done|lia].
    - exists p. split; [by left|done]. }
  destruct (max_ints int (q :: rest)) as [n'|]; [|done].
  intros [= <-]. destruct (IH n' eq_refl) as (H1 & p0 & Hp0 & Hn0). split.
  - intros p' [<-|Hin].
    + exists n. split; [done|lia].
    + destruct (H1 p' Hin) as (m & Hm & Hle). exists m. split; [done|lia].
  - destruct (Z.max_spec n n') as [[_ ->]|[_ ->]].
    + exists p0. split; [by right|done].
    + exists p. split; [by left|done].
Qed.

(** X24: What [get_max_pages] returns is a largest number.  When a pagination
    link names a page above 1, it is the largest page number that the
    links name, and the text is not read.  When no link does and the text
    has a [page N], it is the largest such [N], which can be below 1. *)
Theorem get_max_pages_largest soup r :
  get_max_pages isdecimal int (Some soup) = Some r →
  let links := pagination_links isdecimal soup in
  ((∃ link n, In link links ∧ link_page isdecimal int link n ∧ (1 < n)%Z) →
   (∀ link n, In link links → link_page isdecimal int link n → (n ≤ r)%Z) ∧
   (∃ link, In link links ∧ link_page isdecimal int link r)) ∧
  ((∀ link n, In link links → link_page isdecimal int link n → (n ≤ 1)%Z) →
   let page_matches := re_findall (match_page_text isdecimal) (get_text soup) in
   match page_matches with
   | [] => r = 1%Z
   | _ :: _ =>
       (∀ p, In p page_matches → ∃ n, int p = Some n ∧ (n ≤ r)%Z) ∧
       (∃ p, In p page_matches ∧ int p = Some r)
   end).
Proof.
  intros H links. unfold get_max_pages in H. fold links in H.
  destruct (max_page_loop isdecimal int links 1) as [r0|] eqn:E0; [|done].
  apply max_page_loop_max in E0 as (H1 & H2 & H3). split.
  - intros (link & n & Hin & Hp & Hn).
    pose proof (H2 link n Hin Hp) as Hle.
    destruct (Z.eqb_spec r0 1); [lia|]. injection H as <-.
    split; [exact H2|]. destruct H3 as [->|H3]; [lia|done].
  - intros Hlow page_matches.
    assert (r0 = 1%Z) as ->.
    { destruct H3 as [->|(l & Hl & Hp)]; [done|].
      pose proof (Hlow l r0 Hl Hp). lia. }
    simpl in H. fold page_matches in H.
    destruct page_matches as [|p ps]; [by injection H|].
    by apply max_ints_max.
Qed.

End Pages.

(** ** The command line *)

Section Flags.

Variable int : list N → option Z.

Lemma eqb_str_sym a b : eqb_str a b = eqb_str b a.
Proof.
  revert b. induction a as [|x a IH]; intros [|y b]; simpl; try done.
  by rewrite IH, N.eqb_sym.
Qed.

Lemma index_first flag pre rest :
  mem_str flag pre = false → index flag (pre ++ flag :: rest) = Some (length pre).
Proof.
  unfold mem_str. induction pre as [|a pre IH]; simpl.
  - intros _. by rewrite (proj2 (eqb_str_eq flag flag) eq_refl).
  - intros [Ha Hpre]%orb_false_elim. rewrite eqb_str_sym, Ha. by rewrite IH.
Qed.

Lemma flag_value_first flag pre token post n :
  mem_str flag pre = false → int token = Some n →
  flag_value int flag (pre ++ flag :: token :: post) = Some n.
Proof.
  intros Hpre Hint. unfold flag_value.
  assert (Hmem : mem_str flag (pre ++ flag :: token :: post) = true).
  { unfold mem_str. rewrite existsb_app. simpl.
    by rewrite (proj2 (eqb_str_eq flag flag) eq_refl), orb_true_r. }
  rewrite Hmem, (index_first flag pre _ Hpre).
  rewrite length_app. simpl length.
  destruct (Nat.ltb_spec (length pre + 1) (length pre + S (S (length post)))); [|lia].
  rewrite lookup_app_r by lia.
  replace (length pre + 1 - length pre) with 1 by lia. simpl. done.
Qed.

(** X25: A flag is read where it first stands: when [--max] (or [--pages])
    occurs in [sys.argv] and the token after its first occurrence is a
    number for [int], that number is the limit, whatever follows, a second
    occurrence of the flag included. *)
Theorem flag_read_at_first_occurrence pre token post n :
  int token = Some n →
  (mem_str (py "--max") pre = false →
   (parse_args int (pre ++ py "--max" :: token :: post)).1 = Some n) ∧
  (mem_str (py "--pages") pre = false →
   (parse_args int (pre ++ py "--pages" :: token :: post)).2 = Some n).
Proof.
  intros Hint. unfold parse_args. split; intros Hpre.
  - rewrite length_app. simpl length.
    destruct (Nat.ltb_spec 1 (length pre + S (S (length post)))); [|lia].
    simpl. by apply flag_value_first.
  - rewrite length_app. simpl length.
    destruct (Nat.ltb_spec 1 (length pre + S (S (length post)))); [|lia].
    simpl. by apply flag_value_first.
Qed.

End Flags.

(** ** What a run requests *)

Lemma gets_app e1 e2 : gets (e1 ++ e2) = gets e1 ++ gets e2.
Proof.
  induction e1 as [|[] e1 IH]; simpl; try done. by rewrite IH.
Qed.

Lemma accounted_nil : accounted [].
Proof. by intros u []. Qed.

Lemma accounted_app e1 e2 : accounted e1 → accounted e2 → accounted (e1 ++ e2).
Proof.
  intros H1 H2 u. rewrite gets_app, listings_app, visits_app, in_app_iff.
  intros [Hu|Hu]; [destruct (H1 u Hu) as [(k & Hk & ->)|Hv]
                  |destruct (H2 u Hu) as [(k & Hk & ->)|Hv]].
  - left. exists k. rewrite in_app_iff. auto.
  - right. rewrite in_app_iff. auto.
  - left. exists k. rewrite in_app_iff. auto.
  - right. rewrite in_app_iff. auto.
Qed.

Lemma accounted_quiet evs : gets evs = [] → accounted evs.
Proof. intros E u. by rewrite E. Qed.

Lemma fetch_events_gets url evs u :
  fetch_events url evs → In u (gets evs) → u = url.
Proof.
  induction 1 as [|e evs [->| ->] _ IH]; simpl; [done| |exact IH].
  intros [<-|Hu]; [done|by apply IH].
Qed.

Section Requests.

Variable isdecimal : N → bool.
Variable urljoin : list N → list N → list N.
Variable w : world.

Lemma crawl_article_accounted info self r self' :
  crawl_article isdecimal w info self = Done (r, self') →
  ∃ evs, events self' = events self ++ evs ∧ accounted evs.
Proof.
  unfold crawl_article.
  destruct (bool_decide (url info ∈ visited_urls self)).
  { intros [= <- <-]. exists []. split; [by rewrite app_nil_r|apply accounted_nil]. }
  destruct (get_page_content w (url info) 3 _) as [html self1] eqn:Eg.
  apply get_page_content_spec in Eg as (evs & -> & Hf & _).
  assert (Ha : ∀ tail, gets tail = [] → accounted ([EvVisit (url info)] ++ evs ++ tail)).
  { intros tail Ht u. rewrite !gets_app, Ht, app_nil_r. simpl.
    intros Hu. right. left. symmetry. by eapply fetch_events_gets. }
  destruct html as [soup|].
  2:{ intros [= <- <-]. exists ([EvVisit (url info)] ++ evs ++ []).
      split; [simpl; by rewrite app_nil_r, <- app_assoc|by apply Ha]. }
  destruct (negb _ || _).
  { intros [= <- <-]. exists ([EvVisit (url info)] ++ evs ++ []).
    split; [simpl; by rewrite app_nil_r, <- app_assoc|by apply Ha]. }
  destruct (extract_article_metadata isdecimal (Some soup)); [done|].
  intros [= <- <-]. exists ([EvVisit (url info)] ++ evs ++ [EvNow]).
  split; [simpl; by rewrite <- !app_assoc|by apply Ha].
Qed.

Lemma article_loop_accounted max_articles links self self' :
  article_loop isdecimal w max_articles links self = Done self' →
  ∃ evs, events self' = events self ++ evs ∧ accounted evs.
Proof.
  revert self. induction links as [|info rest IH]; intros self; simpl.
  { intros [= <-]. exists []. split; [by rewrite app_nil_r|apply accounted_nil]. }
  destruct (article_limit_reached max_articles self).
  { intros [= <-]. exists []. split; [by rewrite app_nil_r|apply accounted_nil]. }
  destruct (crawl_article isdecimal w info self) as [[r s1]| |] eqn:Ec; try done.
  apply crawl_article_accounted in Ec as (e1 & E1 & A1).
  intros (e2 & E2 & A2)%IH. exists (e1 ++ [EvSleep 1] ++ e2). split.
  - rewrite E2. simpl. destruct r; simpl; rewrite E1; by rewrite <- !app_assoc.
  - apply accounted_app; [done|]. apply accounted_app; [by apply accounted_quiet|done].
Qed.

Lemma page_turn_accounted max_articles max_pages page_num self res :
  page_turn isdecimal urljoin w max_articles max_pages page_num self = Done res →
  ∃ evs,
    events (match res with inl (_, s) => s | inr s => s end) = events self ++ evs ∧
    accounted evs.
Proof.
  unfold page_turn.
  destruct (article_limit_reached max_articles self).
  { intros [= <-]. exists []. split; [by rewrite app_nil_r|apply accounted_nil]. }
  destruct (page_limit_reached max_pages page_num).
  { intros [= <-]. exists []. split; [by rewrite app_nil_r|apply accounted_nil]. }
  destruct (get_page_content w (listing_url page_num) 3 _) as [html self1] eqn:Eg.
  apply get_page_content_spec in Eg as (evs & -> & Hf & _).
  assert (A1 : accounted ([EvListing page_num] ++ evs)).
  { intros u. rewrite gets_app. simpl. intros Hu. left. exists page_num.
    split; [by left|]. by eapply fetch_events_gets. }
  assert (E1 : events (emit evs (emit [EvListing page_num] self))
               = events self ++ [EvListing page_num] ++ evs).
  { simpl. by rewrite <- app_assoc. }
  destruct html as [soup|]; [|intros [= <-]; by eexists].
  destruct (extract_article_links _ _ _ _) as [|c cs]; [intros [= <-]; by eexists|].
  destruct (article_loop _ _ _ _ _) as [s2| |] eqn:El; try done.
  apply article_loop_accounted in El as (e2 & E2 & A2). intros [= <-].
  exists (([EvListing page_num] ++ evs) ++ e2 ++ [EvSleep 2]). split.
  - simpl. rewrite E2, E1. simpl. by rewrite <- !app_assoc.
  - apply accounted_app; [done|]. apply accounted_app; [done|by apply accounted_quiet].
Qed.

Lemma crawl_pages_from_accounted max_articles max_pages fuel page_num self k reason self' :
  crawl_pages_from isdecimal urljoin w max_articles max_pages fuel page_num self
    = Done (k, reason, self') →
  ∃ evs, events self' = events self ++ evs ∧ accounted evs.
Proof.
  revert page_num self. induction fuel as [|fuel IH]; intros page_num self; simpl; [done|].
  destruct (page_turn _ _ _ _ _ _ _) as [[[r s]|s]| |] eqn:Et; try done.
  - intros [= <- <- <-]. by apply page_turn_accounted in Et.
  - apply page_turn_accounted in Et as (e1 & E1 & A1).
    intros (e2 & E2 & A2)%IH. exists (e1 ++ e2). split.
    + rewrite E2. simpl in E1. by rewrite E1, <- app_assoc.
    + by apply accounted_app.
Qed.

(** X26: The crawler asks for nothing else: every request of a run is for a
    listing page of the run, under its URL, or for a URL that the run has
    entered in [visited_urls]. *)
Theorem requests_accounted max_articles max_pages fuel self self' :
  run isdecimal urljoin w max_articles max_pages fuel self = Done self' →
  ∃ evs, events self' = events self ++ evs ∧
    ∀ u, In u (gets evs) →
      (∃ k, In k (listings evs) ∧ u = listing_url k) ∨ In u (visits evs).
Proof.
  unfold run, crawl_all_pages.
  destruct (crawl_pages_from _ _ _ _ _ _ _ _) as [[[k reason] s]| |] eqn:Ec;
    try done.
  apply crawl_pages_from_accounted in Ec as (e1 & E1 & A1).
  unfold save_to_json, write_report.
  destruct (can_write w (events s)); intros [= <-]; simpl.
  - exists (e1 ++ [EvNow; EvSaved]). split; [by rewrite E1, <- app_assoc|].
    apply accounted_app; [done|by apply accounted_quiet].
  - exists (e1 ++ [EvSaveFailed]). split; [by rewrite E1, <- app_assoc|].
    apply accounted_app; [done|by apply accounted_quiet].
Qed.

End Requests.

(** * The further properties on the small site *)

(** X3: A fetch on the world that refuses the first request. *)
Lemma get_page_content_requests_witness :
  0 < 3 ∧
  ∃ i, i < 3 ∧
    (get_page_content flaky (alert_url 0) 3 new_crawler).2
    = emit (fetch_trace (alert_url 0) i) new_crawler.
Proof.
  assert (H : 0 < 3) by lia.
  exact (conj H (get_page_content_requests flaky (alert_url 0) 3 new_crawler H)).
Defined.

(** X1: The fetcher on a world that refuses the first request: the second
    attempt is answered. *)
Lemma get_page_content_first_answer_witness :
  1 < 3 ∧
  http_get flaky (attempt_history [] (alert_url 0) 0) (alert_url 0) = RequestException ∧
  http_get flaky (attempt_history [] (alert_url 0) 1) (alert_url 0)
    = ResponseText (Some alert_page) ∧
  get_page_content flaky (alert_url 0) 3 new_crawler
  = (Some alert_page,
     emit [EvGet (alert_url 0); EvSleep 5; EvGet (alert_url 0)] new_crawler).
Proof.
  assert (H13 : 1 < 3) by lia.
  split; [exact H13|]. split; [reflexivity|]. split; [reflexivity|].
  apply (get_page_content_first_answer flaky (alert_url 0) 3 new_crawler 1
           (Some alert_page) H13).
  - intros j Hj. destruct j as [|j]; [reflexivity|lia].
  - reflexivity.
Defined.

(** X2: The fetcher with no network: three requests, two pauses. *)
Lemma get_page_content_gives_up_witness :
  get_page_content offline (alert_url 0) 3 new_crawler
  = (None,
     emit [EvGet (alert_url 0); EvSleep 5; EvGet (alert_url 0); EvSleep 5;
           EvGet (alert_url 0)] new_crawler).
Proof.
  apply (get_page_content_gives_up offline (alert_url 0) 3 new_crawler).
  intros j Hj. reflexivity.
Defined.

(** X14: One article on the world that refuses the first request. *)
Lemma crawl_article_trace_witness :
  (url first_alert ∉ visited_urls new_crawler) ∧
  ∃ i r self',
    i < 3 ∧
    crawl_article is_digit flaky first_alert new_crawler = Done (r, self') ∧
    events self' =
      events new_crawler ++ EvVisit (url first_alert) :: fetch_trace (url first_alert) i
        ++ match r with Some _ => [EvNow] | None => [] end.
Proof.
  assert (Hout : url first_alert ∉ visited_urls new_crawler)
    by (unfold new_crawler; simpl; apply not_elem_of_empty).
  split; [exact Hout|].
  exact (crawl_article_trace is_digit flaky first_alert new_crawler Hout).
Defined.

(** X4 on the pages 1 and 2. *)
Lemma listing_url_distinct_witness : 1 ≠ 2 ∧ listing_url 1 ≠ listing_url 2.
Proof.
  assert (H : 1 ≠ 2) by lia.
  exact (conj H (listing_url_distinct 1 2 H)).
Defined.

(** X6: The title of a teaser: the link is too short, the heading gives it. *)
Lemma extract_title_sound_witness :
  extract_title teaser_link teaser = Some (py "Security alert number 0") ∧
  10 < length (py "Security alert number 0") ∧
  (10 < length (get_text_strip [] (anchor (alert_url 0) (alert_title 0))) ∧
   extract_title (anchor (alert_url 0) (alert_title 0)) teaser = Some (alert_title 0)).
Proof.
  assert (E : extract_title teaser_link teaser = Some (py "Security alert number 0"))
    by reflexivity.
  split; [exact E|].
  split; [exact (proj1 (proj1 (extract_title_sound teaser_link teaser) _ E))|].
  assert (Hlong : 10 < length (get_text_strip [] (anchor (alert_url 0) (alert_title 0))))
    by (vm_compute; lia).
  split; [exact Hlong|].
  exact (proj2 (extract_title_sound (anchor (alert_url 0) (alert_title 0)) teaser) Hlong).
Defined.

(** X8: Discovery and [visited_urls] on the two listing pages: in the plain
    list a visited alert is proposed again, inside the [div] it is not. *)
Lemma extract_article_links_visited_witness :
  (path_pattern_loop urljoin_absolute (listing_url 1) (article_links (alert_listing 2)) ≠ [] ∧
   extract_article_links urljoin_absolute {[alert_url 0]} (Some (alert_listing 2)) (listing_url 1)
   = path_pattern_loop urljoin_absolute (listing_url 1) (article_links (alert_listing 2))) ∧
  (extract_article_links urljoin_absolute (∅ ∪ {[alert_url 0]}) (Some (framed_listing 2))
     (listing_url 1)
   = List.filter (λ c, bool_decide (url c ∉ ({[alert_url 0]} : gset (list N))))
       (extract_article_links urljoin_absolute ∅ (Some (framed_listing 2)) (listing_url 1))).
Proof.
  split.
  - assert (H : match article_elements (alert_listing 2) with
                | [] => path_pattern_loop urljoin_absolute (listing_url 1)
                          (article_links (alert_listing 2))
                | _ :: _ => []
                end ≠ []) by (vm_compute; discriminate).
    split; [vm_compute; discriminate|].
    exact (proj1 (extract_article_links_visited urljoin_absolute {[alert_url 0]} ∅
                    (alert_listing 2) (listing_url 1)) H).
  - apply (proj1 (proj2 (extract_article_links_visited urljoin_absolute ∅ {[alert_url 0]}
                           (framed_listing 2) (listing_url 1)))).
    reflexivity.
Defined.

(** X10: The content of a page with a short [main] and a long [article]. *)
Lemma extract_article_content_first_long_witness :
  let soup := decompose_all unwanted_tags article_page in
  selected_text (ByTag (py "main")) soup = Some (py "Overview") ∧
  (∃ text, selected_text (ByTag (py "article")) soup = Some text ∧
           200 < length text ∧
           extract_article_content (Some article_page) = normalize_content text).
Proof.
  intros soup. split; [reflexivity|].
  pose (o := selected_text (ByTag (py "article")) soup).
  assert (Ho : selected_text (ByTag (py "article")) soup = o) by reflexivity.
  vm_compute in o.
  match eval unfold o in o with
  | Some ?text =>
      exists text;
      assert (Hlen : 200 < length text) by (vm_compute; lia);
      split; [exact Ho|]; split; [exact Hlen|];
      apply (extract_article_content_first_long [ByTag (py "main")]
               (ByTag (py "article")) _ article_page text eq_refl);
      [ intros s [<-|[]] t Ht; vm_compute in Ht; injection Ht as <-; vm_compute; lia
      | exact Ho | exact Hlen ]
  end.
Defined.

(** X11: The content of a page whose only region is short: the text of [body]. *)
Lemma extract_article_content_body_fallback_witness :
  ∃ body,
    find_tag (py "body") (decompose_all unwanted_tags short_main_page) = Some body ∧
    selected_text (ByTag (py "main")) (decompose_all unwanted_tags short_main_page)
      = Some (py "Overview") ∧
    extract_article_content (Some short_main_page)
    = normalize_content (get_text_strip [nl] body).
Proof.
  pose (o := find_tag (py "body") (decompose_all unwanted_tags short_main_page)).
  assert (Ho : find_tag (py "body") (decompose_all unwanted_tags short_main_page) = o)
    by reflexivity.
  vm_compute in o.
  match eval unfold o in o with
  | Some ?body =>
      exists body; split; [exact Ho|]; split; [reflexivity|];
      rewrite (extract_article_content_body_fallback short_main_page body);
      [ reflexivity
      | intros s Hs t Ht; vm_compute in Hs; decompose [or] Hs; subst;
        vm_compute in Ht; try discriminate; try done;
        injection Ht as <-; vm_compute; lia
      | exact Ho ]
  end.
Defined.

(** X12: The side bar of the article page stays in the tree. *)
Lemma class_entries_remove_nothing_witness :
  forallb no_dot_tags article_page = true ∧
  decompose_all unwanted_tags article_page
  = decompose_all boilerplate_tags article_page ∧
  ∃ e, select_one (ByClass (py "sidebar")) (decompose_all unwanted_tags article_page)
       = Some e.
Proof.
  assert (H : forallb no_dot_tags article_page = true) by reflexivity.
  split; [exact H|].
  split; [exact (class_entries_remove_nothing article_page H)|].
  eexists. vm_compute. reflexivity.
Defined.

(** X16: The metadata of a page that carries both in its markup. *)
Lemma extract_article_metadata_first_selector_witness :
  (∃ d, extract_article_metadata is_digit (Some signed_page) = MetaDict d ∧
        dict_get (py "release_date") [] d = py "2024-05-01") ∧
  (∃ d, extract_article_metadata is_digit (Some signed_page) = MetaDict d ∧
        dict_get (py "author") [] d = py "Jane Doe").
Proof.
  pose proof (extract_article_metadata_first_selector is_digit signed_page) as [Hd Ha].
  split.
  - pose (o := select_one (ByClass (py "date")) signed_page).
    assert (Ho : select_one (ByClass (py "date")) signed_page = o) by reflexivity.
    vm_compute in o.
    match eval unfold o in o with
    | Some ?e =>
        destruct (Hd [ByTag (py "time")] (ByClass (py "date")) _ e eq_refl) as (d & E & Hv);
        [ intros s e' [<-|[]] He'; vm_compute in He'; discriminate
        | exact Ho
        | vm_compute; discriminate
        | exists d; split; [exact E|]; rewrite Hv; reflexivity ]
    end.
  - pose (o := select_one (ByClass (py "author-name")) signed_page).
    assert (Ho : select_one (ByClass (py "author-name")) signed_page = o) by reflexivity.
    vm_compute in o.
    match eval unfold o in o with
    | Some ?e =>
        destruct (Ha [ByClass (py "author"); ByClass (py "byline"); ByClass (py "writer");
                      ByTag (py "cite")]
                    (ByClass (py "author-name")) _ e eq_refl) as (d & E & Hv);
        [ intros s e' Hs He'; vm_compute in Hs; decompose [or] Hs; subst;
          vm_compute in He'; try discriminate; try done;
          injection He' as <-; reflexivity
        | exact Ho
        | vm_compute; discriminate
        | exists d; split; [exact E|]; rewrite Hv; reflexivity ]
    end.
Defined.

(** X17: The release date of a page that has it in its text only. *)
Lemma extract_article_metadata_date_from_text_witness :
  ∃ d, extract_article_metadata is_digit (Some (page_of_text released_text)) = MetaDict d ∧
       dict_get (py "release_date") [] d = py "January 5, 2024" ∧
       (dict_get (py "release_date") [] d = [] ∨
        (date_shape is_digit (dict_get (py "release_date") [] d) ∧
         ∃ ws, forallb isspace ws = true ∧
               infix (py "Released" ++ ws ++ dict_get (py "release_date") [] d)
                 (get_text (page_of_text released_text)))).
Proof.
  destruct (extract_article_metadata_date_from_text is_digit (page_of_text released_text))
    as (d & E & H).
  - intros s e Hs He. vm_compute in Hs. decompose [or] Hs; subst;
      vm_compute in He; try discriminate; done.
  - exists d. split; [exact E|]. split; [|exact H].
    clear H. vm_compute in E. injection E as <-. reflexivity.
Defined.

(** X19: A limit of -1 of either kind. *)
Lemma negative_limit_stops_at_once_witness :
  (-1 < 0)%Z ∧
  crawl_all_pages is_digit urljoin_absolute (site 2 true) (Some (-1)%Z) None 1 new_crawler
    = Done (1, ArticleLimit, new_crawler) ∧
  article_limit_reached None new_crawler = false ∧
  crawl_all_pages is_digit urljoin_absolute (site 2 true) None (Some (-1)%Z) 1 new_crawler
    = Done (1, PageLimit, new_crawler).
Proof.
  assert (H : (-1 < 0)%Z) by lia.
  pose proof (negative_limit_stops_at_once is_digit urljoin_absolute (site 2 true)
                (-1)%Z 0 new_crawler H) as [H1 H2].
  split; [exact H|]. split; [exact (proj1 (H1 None))|].
  split; [reflexivity|]. exact (proj1 (H2 None eq_refl)).
Defined.

(** X20: The pages asked for on the site with two alerts. *)
Lemma listing_pages_in_order_witness :
  ∃ self' evs,
    crawl_all_pages is_digit urljoin_absolute (site 2 true) None None 3 new_crawler
      = Done (2, NoArticles, self') ∧
    events self' = events new_crawler ++ evs ∧
    pages_processed evs = 2 - 1 ∧
    listings evs = seq 1 2.
Proof.
  pose (o := crawl_all_pages is_digit urljoin_absolute (site 2 true) None None 3 new_crawler).
  assert (Ho : crawl_all_pages is_digit urljoin_absolute (site 2 true) None None 3
                 new_crawler = o) by reflexivity.
  vm_compute in o.
  match eval unfold o in o with
  | Done (_, _, ?s) =>
      destruct (listing_pages_in_order is_digit urljoin_absolute (site 2 true)
                  None None 3 new_crawler 2 NoArticles s Ho) as (evs & H);
      exists s, evs; exact (conj Ho H)
  end.
Defined.

(** X21: A limit of one page on the site with two alerts. *)
Lemma page_limit_enforced_witness :
  0 < 1 ∧ 1 < 2 ∧
  (∃ k reason self' evs,
     crawl_all_pages is_digit urljoin_absolute (site 2 true) None (Some (Z.of_nat 1)) 2
       new_crawler = Done (k, reason, self') ∧
     k ≤ 2 ∧
     events self' = events new_crawler ++ evs ∧
     listings evs = seq 1 (length (listings evs)) ∧
     length (listings evs) ≤ 1 ∧
     pages_processed evs ≤ 1) ∧
  (∃ self',
     run is_digit urljoin_absolute (site 2 true) None (Some (Z.of_nat 1)) 2 new_crawler
     = Done self').
Proof.
  assert (H1 : 0 < 1) by lia. assert (H2 : 1 < 2) by lia.
  split; [exact H1|]. split; [exact H2|].
  exact (page_limit_enforced is_digit urljoin_absolute (site 2 true) 1 None 2
           new_crawler H1 H2).
Defined.

(** X22: The records of a run over the site with two alerts. *)
Lemma record_urls_distinct_witness :
  ∃ self,
    run is_digit urljoin_absolute (site 2 true) None None 3 new_crawler = Done self ∧
    length (articles self) = 2 ∧
    List.NoDup (record_urls (articles self)) ∧
    sublist (record_urls (articles self)) (map Some (visits (events self))) ∧
    (∀ r, saved self = Some r → List.NoDup (record_urls (report_articles r))).
Proof.
  pose (o := run is_digit urljoin_absolute (site 2 true) None None 3 new_crawler).
  assert (Ho : run is_digit urljoin_absolute (site 2 true) None None 3 new_crawler = o)
    by reflexivity.
  vm_compute in o.
  match eval unfold o in o with
  | Done ?s =>
      exists s; split; [exact Ho|]; split; [reflexivity|];
      exact (record_urls_distinct is_digit urljoin_absolute (site 2 true)
               None None 3 s Ho)
  end.
Defined.

Lemma int_ascii_digit_run ds :
  digit_run is_digit ds → ∃ n, int_ascii ds = Some n.
Proof.
  intros [Hne Hd]. unfold int_ascii. destruct ds as [|c r]; [done|].
  rewrite Hd. by eexists.
Qed.

(** X23: The number of pages of a listing, with [int] on ASCII digits. *)
Lemma get_max_pages_returns_witness :
  (∀ ds, digit_run is_digit ds → ∃ n, int_ascii ds = Some n) ∧
  ∃ r, get_max_pages is_digit int_ascii (Some paged_listing) = Some r.
Proof.
  split; [exact int_ascii_digit_run|].
  exact (get_max_pages_returns is_digit int_ascii (Some paged_listing) int_ascii_digit_run).
Defined.

(** X24: The largest page of the links, and a text that names page 0. *)
Lemma get_max_pages_largest_witness :
  (get_max_pages is_digit int_ascii (Some paged_listing) = Some 7%Z ∧
   ∃ link, In link (pagination_links is_digit paged_listing) ∧
           link_page is_digit int_ascii link 7%Z) ∧
  (get_max_pages is_digit int_ascii (Some (page_of_text (py "Page 0 of 3"))) = Some 0%Z ∧
   ∃ p, In p (re_findall (match_page_text is_digit) (get_text (page_of_text (py "Page 0 of 3"))))
        ∧ int_ascii p = Some 0%Z).
Proof.
  split.
  - assert (E : get_max_pages is_digit int_ascii (Some paged_listing) = Some 7%Z)
      by reflexivity.
    split; [exact E|].
    apply (proj1 (get_max_pages_largest is_digit int_ascii paged_listing 7%Z E)).
    exists (anchor (py "/news-events/news?page=2") (py "2")), 2%Z.
    split; [by left|]. split; [|lia].
    exists (py "2"). split; reflexivity.
  - assert (E : get_max_pages is_digit int_ascii (Some (page_of_text (py "Page 0 of 3")))
                = Some 0%Z) by reflexivity.
    split; [exact E|].
    pose proof (proj2 (get_max_pages_largest is_digit int_ascii
                         (page_of_text (py "Page 0 of 3")) 0%Z E)) as H.
    cbv zeta in H.
    assert (Hno : ∀ link n,
              In link (pagination_links is_digit (page_of_text (py "Page 0 of 3"))) →
              link_page is_digit int_ascii link n → (n ≤ 1)%Z)
      by (intros link n []).
    specialize (H Hno).
    change (re_findall (match_page_text is_digit)
              (get_text (page_of_text (py "Page 0 of 3")))) with [py "0"] in H |- *.
    exact (proj2 H).
Defined.

(** X25: [cisa_crawler.py --max 5 --max 9]: the limit is 5. *)
Lemma flag_read_at_first_occurrence_witness :
  int_ascii (py "5") = Some 5%Z ∧
  mem_str (py "--max") [script] = false ∧
  (parse_args int_ascii [script; py "--max"; py "5"; py "--max"; py "9"]).1 = Some 5%Z.
Proof.
  assert (Hi : int_ascii (py "5") = Some 5%Z) by reflexivity.
  assert (Hm : mem_str (py "--max") [script] = false) by reflexivity.
  split; [exact Hi|]. split; [exact Hm|].
  exact (proj1 (flag_read_at_first_occurrence int_ascii [script] (py "5")
                  [py "--max"; py "9"] 5%Z Hi) Hm).
Defined.

(** X26: The requests of a run over the site with two alerts. *)
Lemma requests_accounted_witness :
  ∃ self' evs,
    run is_digit urljoin_absolute (site 2 true) None None 3 new_crawler = Done self' ∧
    events self' = events new_crawler ++ evs ∧
    gets evs = [listing_url 1; alert_url 0; alert_url 1; listing_url 2] ∧
    ∀ u, In u (gets evs) →
      (∃ k, In k (listings evs) ∧ u = listing_url k) ∨ In u (visits evs).
Proof.
  pose (o := run is_digit urljoin_absolute (site 2 true) None None 3 new_crawler).
  assert (Ho : run is_digit urljoin_absolute (site 2 true) None None 3 new_crawler = o)
    by reflexivity.
  vm_compute in o.
  match eval unfold o in o with
  | Done ?s =>
      destruct (requests_accounted is_digit urljoin_absolute (site 2 true)
                  None None 3 new_crawler s Ho) as (evs & E & H);
      exists s, evs; split; [exact Ho|]; split; [exact E|]; split; [|exact H];
      simpl in E; subst evs; vm_compute; reflexivity
  end.
Defined.
